(** * Codus: a terminal agent loop (src/index.js)

    A shallow embedding of the agent of [src/index.js]: its two tools, the
    oracle client [callGemini], the loop [runConversation] and the session
    driver [start], with the parts of the JavaScript platform they rest on
    (strings, the Number type, [path.dirname], a file system). *)

From Stdlib Require Import ZArith Lia Bool List String Ascii SpecFloat.
From stdpp Require Import gmap strings list.

Import ListNotations.
Local Open Scope string_scope.
Local Open Scope Z_scope.

(** ** JavaScript strings

    A JavaScript string is a sequence of UTF-16 code units.  The model keeps
    the strings whose code units are all below 0x100: one [ascii] is one
    code unit (not one byte of an encoding), so [String.length] is the
    [.length] of the source. *)

Module JsString.

Definition code (c : ascii) : Z := Z.of_N (N_of_ascii c).

Definition chr (z : Z) : ascii := ascii_of_N (Z.to_N z).

Definition str1 (c : ascii) : string := String c EmptyString.

(** The double quote, written by its code. *)
Definition dq : string := str1 (chr 34).

(** Line feed and escape, written by their codes. *)
Definition lf : string := str1 (chr 10).
Definition esc : string := str1 (chr 27).

Definition chars (s : string) : list ascii := list_ascii_of_string s.
Definition of_chars (l : list ascii) : string := string_of_list_ascii l.

(** [s.startsWith(p)], and what follows the prefix. *)
Fixpoint strip_prefix (p s : string) : option string :=
  match p, s with
  | EmptyString, _ => Some s
  | String a p', String b s' => if Ascii.eqb a b then strip_prefix p' s' else None
  | String _ _, EmptyString => None
  end.

(** [s.split(sep)] for a separator of one code unit: the pieces between
    the separators, at least one piece. *)
Fixpoint split_on (sep : ascii) (s : string) : list string :=
  match s with
  | EmptyString => [EmptyString]
  | String c r =>
      if Ascii.eqb c sep then EmptyString :: split_on sep r
      else match split_on sep r with
           | h :: t => String c h :: t
           | [] => [str1 c]
           end
  end.

Fixpoint has_char (x : ascii) (s : string) : bool :=
  match s with
  | EmptyString => false
  | String c r => Ascii.eqb c x || has_char x r
  end.

(** [a.join(sep)]. *)
Fixpoint join (sep : string) (l : list string) : string :=
  match l with
  | [] => EmptyString
  | [x] => x
  | x :: r => x +:+ sep +:+ join sep r
  end.

(** [s.toLowerCase()] on code units below 0x100: A-Z and the capital
    letters of the Latin-1 supplement (all of U+00C0..U+00DE but the
    multiplication sign U+00D7) move up by 32. *)
Definition lower_char (c : ascii) : ascii :=
  let n := code c in
  if ((65 <=? n) && (n <=? 90)) || ((192 <=? n) && (n <=? 222) && negb (n =? 215))
  then chr (n + 32) else c.

Fixpoint toLowerCase (s : string) : string :=
  match s with
  | EmptyString => EmptyString
  | String c r => String (lower_char c) (toLowerCase r)
  end.

(** [s.toUpperCase()] for the lower-case ASCII words the source uses. *)
Definition upper_char (c : ascii) : ascii :=
  let n := code c in
  if (97 <=? n) && (n <=? 122) then chr (n - 32) else c.

Fixpoint toUpperCase_ascii (s : string) : string :=
  match s with
  | EmptyString => EmptyString
  | String c r => String (upper_char c) (toUpperCase_ascii r)
  end.

(** Decimal digits of a natural number, as [String(n)] prints an integer. *)
Fixpoint digits_fuel (fuel : nat) (n : Z) (acc : string) : string :=
  match fuel with
  | O => acc
  | S f =>
      let acc' := String (chr (48 + n mod 10)) acc in
      if n <? 10 then acc' else digits_fuel f (n / 10) acc'
  end.

Definition decimal (n : Z) : string :=
  digits_fuel (S (Z.to_nat (Z.log2 n))) n EmptyString.

Definition js_length (s : string) : Z := Z.of_nat (String.length s).

End JsString.

Import JsString.

(** ** The Number type

    A Number is an IEEE 754 binary64 value; [spec_float] with precision 53
    and exponent bound 1024 is that format, and [SFadd] is its addition with
    rounding to nearest, ties to even. *)

Module JsNumber.

Definition number : Type := spec_float.

Definition prec : Z := 53.
Definition emax : Z := 1024.

Definition NaN : number := S754_nan.
Definition pos_zero : number := S754_zero false.

(** The Number nearest to an integer. *)
Definition of_Z (z : Z) : number := binary_normalize prec emax z 0 false.

(** [x + y] on Numbers. *)
Definition add (x y : number) : number := SFadd prec emax x y.

Definition is_nan (x : number) : bool :=
  match x with S754_nan => true | _ => false end.

Definition is_zero (x : number) : bool :=
  match x with S754_zero _ => true | _ => false end.

(** The Number nearest to [m * 10^t], with the sign [neg]; [m >= 0]. *)
Definition of_decimal (neg : bool) (m t : Z) : number :=
  match m with
  | Z0 => S754_zero neg
  | Zpos p =>
      if 0 <=? t then binary_round prec emax neg (Z.to_pos (Zpos p * 10 ^ t)) 0
      else SFdiv prec emax (S754_finite neg p 0)
                           (S754_finite false (Z.to_pos (10 ^ (- t))) 0)
  | Zneg _ => NaN
  end.

(** *** StringToNumber, the conversion behind [Number(s)] *)

(** WhiteSpace and LineTerminator code units below 0x100: TAB, LF, VT, FF,
    CR, SP and NBSP. *)
Definition is_ws (c : ascii) : bool :=
  let n := code c in
  ((9 <=? n) && (n <=? 13)) || (n =? 32) || (n =? 160).

Fixpoint trim_left (s : string) : string :=
  match s with
  | String c r => if is_ws c then trim_left r else s
  | EmptyString => EmptyString
  end.

Fixpoint trim_right (s : string) : string :=
  match s with
  | EmptyString => EmptyString
  | String c r =>
      match trim_right r with
      | EmptyString => if is_ws c then EmptyString else str1 c
      | r' => String c r'
      end
  end.

Definition trim (s : string) : string := trim_right (trim_left s).

Definition digit_of (base : Z) (c : ascii) : option Z :=
  let n := code c in
  let v := if (48 <=? n) && (n <=? 57) then n - 48
           else if (97 <=? n) && (n <=? 102) then n - 87
           else if (65 <=? n) && (n <=? 70) then n - 55
           else base in
  if v <? base then Some v else None.

(** Reads the longest prefix of digits: the value read (continuing [acc]),
    how many digits were read (added to [cnt]) and what follows them. *)
Fixpoint read_digits (base : Z) (s : string) (acc cnt : Z) : Z * Z * string :=
  match s with
  | String c r =>
      match digit_of base c with
      | Some d => read_digits base r (acc * base + d) (cnt + 1)
      | None => (acc, cnt, s)
      end
  | EmptyString => (acc, cnt, s)
  end.

Definition is_char (c : ascii) (s : string) : bool :=
  match s with String d _ => Ascii.eqb c d | EmptyString => false end.

Definition tail (s : string) : string :=
  match s with String _ r => r | EmptyString => EmptyString end.

(** StrUnsignedDecimalLiteral: [Infinity], or digits with an optional
    fraction and an optional exponent, at least one digit before the
    exponent. *)
Definition unsigned_decimal (neg : bool) (s : string) : number :=
  if String.eqb s "Infinity" then S754_infinity neg else
  let '(ip, ni, r1) := read_digits 10 s 0 0 in
  let '(m, nf, r2) :=
    if is_char "." r1 then read_digits 10 (tail r1) ip 0 else (ip, 0, r1) in
  if ni + nf =? 0 then NaN else
  match r2 with
  | EmptyString => of_decimal neg m (- nf)
  | String c r3 =>
      if Ascii.eqb c "e" || Ascii.eqb c "E" then
        let eneg := is_char "-" r3 in
        let r4 := if is_char "+" r3 || is_char "-" r3 then tail r3 else r3 in
        let '(ev, ne, r5) := read_digits 10 r4 0 0 in
        if (ne =? 0) || negb (String.eqb r5 EmptyString) then NaN
        else of_decimal neg m ((if eneg then - ev else ev) - nf)
      else NaN
  end.

(** NonDecimalIntegerLiteral after its two-character prefix. *)
Definition radix_literal (base : Z) (s : string) : number :=
  let '(v, n, rest) := read_digits base s 0 0 in
  if (n =? 0) || negb (String.eqb rest EmptyString) then NaN else of_Z v.

Definition radix_of_prefix (c : ascii) : option Z :=
  if Ascii.eqb c "x" || Ascii.eqb c "X" then Some 16
  else if Ascii.eqb c "o" || Ascii.eqb c "O" then Some 8
  else if Ascii.eqb c "b" || Ascii.eqb c "B" then Some 2
  else None.

Definition StringToNumber (s : string) : number :=
  match trim s with
  | EmptyString => pos_zero
  | String c r as t =>
      if Ascii.eqb c "+" then unsigned_decimal false r
      else if Ascii.eqb c "-" then unsigned_decimal true r
      else
        match (if Ascii.eqb c "0" then
                 match r with
                 | String p r' => option_map (fun b => radix_literal b r') (radix_of_prefix p)
                 | EmptyString => None
                 end
               else None) with
        | Some x => x
        | None => unsigned_decimal false t
        end
  end.

(** *** Number::toString, the conversion behind [String(x)] and [`${x}`] *)

(** [x >= 10^n] for the positive rational [x = num / den]. *)
Definition ge_pow10 (num den n : Z) : bool :=
  if 0 <=? n then 10 ^ n * den <=? num else den <=? num * 10 ^ (- n).

Fixpoint first_above (fuel : nat) (num den n : Z) : Z :=
  match fuel with
  | O => n
  | S f => if ge_pow10 num den n then first_above f num den (n + 1) else n
  end.

(** [floor (x / 10^t)] for [x = num / den]. *)
Definition scaled_floor (num den t : Z) : Z :=
  if 0 <=? t then num / (den * 10 ^ t) else (num * 10 ^ (- t)) / den.

(** Compares [2 * x] with [c * 10^t]. *)
Definition cmp_twice (num den c t : Z) : comparison :=
  if 0 <=? t then (2 * num ?= c * 10 ^ t * den)
  else (2 * num * 10 ^ (- t) ?= c * den).

(** The shortest digits [s] (with [k] of them) such that [s * 10^(n-k)]
    rounds to [x]; of two candidates, the nearer to [x]. *)
Fixpoint shortest (fuel : nat) (x : number) (num den n0 k : Z) : Z * Z * Z :=
  let t := n0 - k in
  let lo := scaled_floor num den t in
  let hi := lo + 1 in
  let ok_lo := SFeqb (of_decimal false lo t) x in
  let ok_hi := SFeqb (of_decimal false hi t) x in
  let pick (s : Z) := if s =? 10 ^ k then (n0 + 1, 1, 1) else (n0, k, s) in
  match fuel with
  | O => pick lo
  | S f =>
      if ok_lo && ok_hi then
        match cmp_twice num den (lo + hi) t with
        | Lt => pick lo
        | Gt => pick hi
        | Eq => pick (if Z.even lo then lo else hi)
        end
      else if ok_lo then pick lo
      else if ok_hi then pick hi
      else shortest f x num den n0 (k + 1)
  end.

Definition zeros (n : Z) : string := of_chars (List.repeat "0"%char (Z.to_nat n)).

Definition substr_from (n : Z) (s : string) : string :=
  String.substring (Z.to_nat n) (String.length s - Z.to_nat n)%nat s.
Definition substr_to (n : Z) (s : string) : string :=
  String.substring 0 (Z.to_nat n) s.

Definition format (n k s : Z) : string :=
  let ds := decimal s in
  if (k <=? n) && (n <=? 21) then ds +:+ zeros (n - k)
  else if (0 <? n) && (n <=? 21) then substr_to n ds +:+ "." +:+ substr_from n ds
  else if (-6 <? n) && (n <=? 0) then "0." +:+ zeros (- n) +:+ ds
  else
    let e := n - 1 in
    let sign := if e <? 0 then "-" else "+" in
    (if k =? 1 then ds else substr_to 1 ds +:+ "." +:+ substr_from 1 ds)
      +:+ "e" +:+ sign +:+ decimal (Z.abs e).

Definition toString_pos (m : positive) (e : Z) : string :=
  let num := if 0 <=? e then Zpos m * 2 ^ e else Zpos m in
  let den := if 0 <=? e then 1 else 2 ^ (- e) in
  let b := Zpos (digits2_pos m) + e in
  let n0 := first_above 4 num den ((b - 1) * 30103 / 100000 - 1) in
  let '(n, k, s) := shortest 17 (S754_finite false m e) num den n0 1 in
  format n k s.

Definition toString (x : number) : string :=
  match x with
  | S754_nan => "NaN"
  | S754_zero _ => "0"
  | S754_infinity s => if s then "-Infinity" else "Infinity"
  | S754_finite s m e => (if s then "-" else EmptyString) +:+ toString_pos m e
  end.

End JsNumber.

Import JsNumber.

(** ** JavaScript values

    The values the program handles come out of [JSON.parse], are read from
    its objects (a missing property reads [undefined]) or are built by the
    source: numbers, strings and object literals.  An object is the list of
    its own properties in enumeration order, a key occurring once. *)

#[warnings="-register-all"]
Inductive value : Type :=
| Undefined
| Null
| Bool (b : bool)
| Num (x : number)
| Str (s : string)
| Arr (l : list value)
| Obj (fields : list (string * value)).

(** The error codes of the file system that the model can raise. *)
Inductive fs_errno : Type := ENOENT | ENOTDIR | EISDIR | EEXIST.

(** What V8 and Node throw on their own: a property read from [undefined]
    or [null], a call of what is not a function, an object with no
    primitive value, an argument of the wrong type or value, a failed
    system call. *)
Inductive platform_failure : Type :=
| CannotReadProperty (target : value) (key : string)
| NotAFunction (callee : string)
| CannotConvertToPrimitive
| InvalidArgType (arg : string) (actual : value)
| InvalidArgValue (arg : string) (actual : value)
| FsFailure (code : fs_errno) (syscall path : string).

(** What can be thrown: [new Error(message)] of the source, a failure of
    the platform, or an error that comes with its message from outside (a
    rejected [fetch], a body that cannot be read, a SyntaxError of
    [JSON.parse]). *)
Inductive js_error : Type :=
| SourceError (message : string)
| PlatformError (what : platform_failure)
| ForeignError (message : string).

(** A computation that returns or throws. *)
Inductive result (A : Type) : Type :=
| Ok (a : A)
| Throw (e : js_error).
Arguments Ok {A} a.
Arguments Throw {A} e.

#[global] Instance result_ret : MRet result := @Ok.

#[global] Instance result_bind : MBind result :=
  fun A B k m =>
    match m with
    | Ok a => k a
    | Throw e => Throw e
    end.

Module JsValue.

Fixpoint lookup_field (k : string) (fields : list (string * value)) : option value :=
  match fields with
  | [] => None
  | (k', v) :: r => if String.eqb k k' then Some v else lookup_field k r
  end.

(** [typeof v]. *)
Definition typeof (v : value) : string :=
  match v with
  | Undefined => "undefined"
  | Null => "object"
  | Bool _ => "boolean"
  | Num _ => "number"
  | Str _ => "string"
  | Arr _ => "object"
  | Obj _ => "object"
  end.

(** ToBoolean: [undefined], [null], [false], zero, NaN and the empty
    string are falsy. *)
Definition truthy (v : value) : bool :=
  match v with
  | Undefined => false
  | Null => false
  | Bool b => b
  | Num x => negb (is_zero x || is_nan x)
  | Str s => negb (String.eqb s EmptyString)
  | Arr _ => true
  | Obj _ => true
  end.

(** [v === "s"] against a string literal. *)
Definition is_str (s : string) (v : value) : bool :=
  match v with
  | Str t => String.eqb t s
  | _ => false
  end.

(** [v.k] for one of the property names the source reads ([step], [tool],
    [input], [content], [filePath], [fileContent], [candidates],
    [promptFeedback], [parts], [text], [blockReason]): none of them is on
    a built-in prototype, so only an object's own property answers;
    reading from [undefined] or [null] throws. *)
Definition get (v : value) (k : string) : result value :=
  match v with
  | Undefined => Throw (PlatformError (CannotReadProperty v k))
  | Null => Throw (PlatformError (CannotReadProperty v k))
  | Obj fields =>
      Ok (match lookup_field k fields with Some x => x | None => Undefined end)
  | _ => Ok Undefined
  end.

(** The same read where the source has already excluded [undefined] and
    [null] (object destructuring of a truthy value, a read behind a
    [typeof] test). *)
Definition field (v : value) (k : string) : value :=
  match v with
  | Obj fields => match lookup_field k fields with Some x => x | None => Undefined end
  | _ => Undefined
  end.

(** [v.length]: the length of a string or an array, else as [get]. *)
Definition get_length (v : value) : result value :=
  match v with
  | Str s => Ok (Num (of_Z (js_length s)))
  | Arr l => Ok (Num (of_Z (Z.of_nat (List.length l))))
  | _ => get v "length"
  end.

(** [v[0]]: the first element of an array, the first code unit of a
    string, the property ["0"] of an object. *)
Definition get_first (v : value) : result value :=
  match v with
  | Arr l => Ok (match l with x :: _ => x | [] => Undefined end)
  | Str s => Ok (match s with String c _ => Str (str1 c) | EmptyString => Undefined end)
  | _ => get v "0"
  end.

(** ToString, behind [String(v)] and template literals.  An array joins
    its elements with commas, [undefined] and [null] elements giving the
    empty string; an object gives "[object Object]" unless it has an own
    property [toString], which (coming from JSON) is not callable and
    makes the conversion throw. *)
Fixpoint ToString (v : value) : result string :=
  match v with
  | Undefined => Ok "undefined"
  | Null => Ok "null"
  | Bool b => Ok (if b then "true" else "false")
  | Num x => Ok (JsNumber.toString x)
  | Str s => Ok s
  | Arr l =>
      (fix elems (l : list value) : result string :=
         match l with
         | [] => Ok EmptyString
         | x :: r =>
             sx ← match x with
                  | Undefined => Ok EmptyString
                  | Null => Ok EmptyString
                  | _ => ToString x
                  end;
             match r with
             | [] => Ok sx
             | _ => sr ← elems r; Ok (sx +:+ "," +:+ sr)
             end
         end) l
  | Obj fields =>
      match lookup_field "toString" fields with
      | Some _ => Throw (PlatformError CannotConvertToPrimitive)
      | None => Ok "[object Object]"
      end
  end.

(** ToNumber. *)
Definition ToNumber (v : value) : result number :=
  match v with
  | Undefined => Ok NaN
  | Null => Ok pos_zero
  | Bool b => Ok (if b then of_Z 1 else pos_zero)
  | Num x => Ok x
  | Str s => Ok (StringToNumber s)
  | _ => s ← ToString v; Ok (StringToNumber s)
  end.

(** [v > 0]. *)
Definition gt_zero (v : value) : result bool :=
  x ← ToNumber v;
  Ok (match SFcompare x pos_zero with Some Gt => true | _ => false end).

(** *** JSON.stringify *)

Definition hex_digit (n : Z) : ascii :=
  if n <? 10 then chr (48 + n) else chr (87 + n).

Definition quote_char (c : ascii) : string :=
  let n := code c in
  if n =? 34 then "\" +:+ dq
  else if n =? 92 then "\\"
  else if n =? 8 then "\b"
  else if n =? 12 then "\f"
  else if n =? 10 then "\n"
  else if n =? 13 then "\r"
  else if n =? 9 then "\t"
  else if n <? 32 then "\u00" +:+ str1 (hex_digit (n / 16)) +:+ str1 (hex_digit (n mod 16))
  else str1 c.

Fixpoint quote_body (s : string) : string :=
  match s with
  | EmptyString => EmptyString
  | String c r => quote_char c +:+ quote_body r
  end.

Definition quote (s : string) : string := dq +:+ quote_body s +:+ dq.

Definition is_finite (x : number) : bool :=
  match x with
  | S754_zero _ => true
  | S754_finite _ _ _ => true
  | _ => false
  end.

(** [JSON.stringify(v)]: [None] is the [undefined] that it returns for
    [undefined].  A property whose value is [undefined] is left out, an
    [undefined] array element is written [null], a Number that is not
    finite is written [null]. *)
Fixpoint stringify (v : value) : option string :=
  match v with
  | Undefined => None
  | Null => Some "null"
  | Bool b => Some (if b then "true" else "false")
  | Num x => Some (if is_finite x then JsNumber.toString x else "null")
  | Str s => Some (quote s)
  | Arr l =>
      Some ("[" +:+ join ","
              (List.map (fun x => match stringify x with Some t => t | None => "null" end) l)
            +:+ "]")
  | Obj fields =>
      Some ("{" +:+ join ","
              ((fix members (fs : list (string * value)) : list string :=
                  match fs with
                  | [] => []
                  | (k, x) :: r =>
                      match stringify x with
                      | Some t => (quote k +:+ ":" +:+ t) :: members r
                      | None => members r
                      end
                  end) fields)
            +:+ "}")
  end.

(** The value of the expression [JSON.stringify(v)]. *)
Definition JSON_stringify (v : value) : value :=
  match stringify v with
  | Some s => Str s
  | None => Undefined
  end.

End JsValue.

Import JsValue.

(** ** The platform

    Two things are the platform's and stay parameters of the model: what
    [JSON.parse] makes of a text (a value, or a SyntaxError), and the wording
    of the messages of the errors that Node and V8 throw. *)

Class Platform : Type := {
  JSON_parse : string -> result value;
  node_message : platform_failure -> string
}.

(** [error.message]. *)
Definition message `{Platform} (e : js_error) : string :=
  match e with
  | SourceError m => m
  | PlatformError f => node_message f
  | ForeignError m => m
  end.

(** ** [path.dirname] (POSIX)

    Node scans the path from its end down to index 1: it skips the trailing
    slashes, then the last name, and cuts at the slash before it. *)

Module Path.

Definition is_slash (c : ascii) : bool := Ascii.eqb c "/".

Fixpoint drop_while (f : ascii -> bool) (l : list ascii) : list ascii :=
  match l with
  | c :: r => if f c then drop_while f r else l
  | [] => []
  end.

Definition dirname (p : string) : string :=
  match p with
  | EmptyString => "."
  | String c0 rest =>
      let hasRoot := is_slash c0 in
      let back := List.rev (chars rest) in
      let after_slashes := drop_while is_slash back in
      let after_name := drop_while (fun c => negb (is_slash c)) after_slashes in
      match after_name with
      | [] => if hasRoot then "/" else "."
      | _ :: before =>
          match before with
          | [] => if hasRoot then "//" else str1 c0
          | _ => String c0 (of_chars (List.rev before))
          end
      end
  end.

End Path.

(** ** The file system

    A POSIX file system without symbolic links, permissions or quotas: a
    finite map from absolute paths (the names from the root down) to files
    and directories, and the working directory of the process.  The root is
    always a directory.  An operation of the model fails only for what its
    path meets (a file in the way, a directory in the place of the file);
    the failures of a real system that the model has not (a name too long,
    a permission, a full disk) reach the program the same way, as a thrown
    error, so that a write succeeds is assumed where it matters, not
    concluded. *)

Module Fs.

Definition bytes : Type := list Z.

Inductive node : Type :=
| File (data : bytes)
| Dir.

Record filesystem : Type := {
  cwd : list string;
  nodes : gmap (list string) node
}.

Definition utf8_encode_char (c : ascii) : bytes :=
  let n := code c in
  if n <? 128 then [n] else [192 + n / 64; 128 + n mod 64].

(** The bytes [writeFileSync] writes for a string: its UTF-8 encoding. *)
Fixpoint utf8_encode (s : string) : bytes :=
  match s with
  | EmptyString => []
  | String c r => (utf8_encode_char c ++ utf8_encode r)%list
  end.

Definition node_at (m : gmap (list string) node) (p : list string) : option node :=
  match p with
  | [] => Some Dir
  | _ => m !! p
  end.

Definition parent (p : list string) : list string := List.removelast p.

Definition is_dot (c : string) : bool :=
  String.eqb c EmptyString || String.eqb c ".".

Definition is_dotdot (c : string) : bool := String.eqb c "..".

(** Walks down existing directories. *)
Fixpoint walk (m : gmap (list string) node) (cur : list string) (comps : list string)
  : fs_errno + list string :=
  match comps with
  | [] => inr cur
  | c :: r =>
      if is_dot c then walk m cur r
      else if is_dotdot c then walk m (parent cur) r
      else match node_at m (cur ++ [c])%list with
           | Some Dir => walk m (cur ++ [c])%list r
           | Some (File _) => inl ENOTDIR
           | None => inl ENOENT
           end
  end.

Fixpoint strip_trailing_empty (comps : list string) : list string :=
  match comps with
  | [] => []
  | c :: r =>
      match strip_trailing_empty r with
      | [] => if String.eqb c EmptyString then [] else [c]
      | r' => c :: r'
      end
  end.

Definition start_dir (fs : filesystem) (p : string) : list string :=
  if is_char "/" p then [] else cwd fs.

Definition has_nul (p : string) : bool := has_char (chr 0) p.

(** Where a path leads: the absolute path of what it names, with every
    directory on the way there existing.  A path that ends in a slash must
    name a directory. *)
Definition locate (fs : filesystem) (p : string) : fs_errno + list string :=
  if String.eqb p EmptyString then inl ENOENT else
  let comps := split_on "/" p in
  let names := strip_trailing_empty comps in
  match walk (nodes fs) (start_dir fs p) (List.removelast names) with
  | inl e => inl e
  | inr cur =>
      let c := List.last names EmptyString in
      if is_dot c then inr cur
      else if is_dotdot c then inr (parent cur)
      else inr (cur ++ [c])%list
  end.

Definition trailing_slash (p : string) : bool :=
  negb (Nat.eqb (List.length (strip_trailing_empty (split_on "/" p)))
                (List.length (split_on "/" p))).

(** [fs.existsSync(p)]: whether the path leads to something; never throws. *)
Definition existsSync (fs : filesystem) (p : string) : bool :=
  if has_nul p then false else
  match locate fs p with
  | inl _ => false
  | inr target =>
      match node_at (nodes fs) target with
      | Some Dir => true
      | Some (File _) => negb (trailing_slash p)
      | None => false
      end
  end.

(** The directories [mkdir -p] makes, name by name; it stops at a name
    that is a file: EEXIST when the path ends with that name, ENOTDIR when
    anything follows it, be it only a slash. *)
Fixpoint make_dirs (m : gmap (list string) node) (cur : list string) (comps : list string)
  : gmap (list string) node * option fs_errno :=
  match comps with
  | [] => (m, None)
  | c :: r =>
      if is_dot c then make_dirs m cur r
      else if is_dotdot c then make_dirs m (parent cur) r
      else match node_at m (cur ++ [c])%list with
           | Some Dir => make_dirs m (cur ++ [c])%list r
           | Some (File _) =>
               (m, Some (match r with [] => EEXIST | _ => ENOTDIR end))
           | None => make_dirs (<[(cur ++ [c])%list := Dir]> m) (cur ++ [c])%list r
           end
  end.

(** [fs.mkdirSync(p, { recursive: true })]. *)
Definition mkdirSync_recursive (fs : filesystem) (p : string) : filesystem * result unit :=
  if has_nul p then (fs, Throw (PlatformError (InvalidArgValue "path" (Str p)))) else
  if String.eqb p EmptyString then (fs, Throw (PlatformError (FsFailure ENOENT "mkdir" p))) else
  match make_dirs (nodes fs) (start_dir fs p) (split_on "/" p) with
  | (m, None) => ({| cwd := cwd fs; nodes := m |}, Ok tt)
  | (m, Some e) =>
      ({| cwd := cwd fs; nodes := m |}, Throw (PlatformError (FsFailure e "mkdir" p)))
  end.

(** [fs.writeFileSync(p, data)]: the data must be a string and the path a
    string without NUL; the file is opened for writing, created if it is
    not there and emptied if it is, and the bytes of the data are written
    to it. *)
Definition writeFileSync (fs : filesystem) (p data : value) : filesystem * result unit :=
  match data with
  | Str content =>
      match p with
      | Str path =>
          if has_nul path then (fs, Throw (PlatformError (InvalidArgValue "path" p))) else
          match locate fs path with
          | inl e => (fs, Throw (PlatformError (FsFailure e "open" path)))
          | inr target =>
              let c := List.last (strip_trailing_empty (split_on "/" path)) EmptyString in
              if trailing_slash path || is_dot c || is_dotdot c then
                (fs, Throw (PlatformError (FsFailure EISDIR "open" path)))
              else
                match node_at (nodes fs) target with
                | Some Dir => (fs, Throw (PlatformError (FsFailure EISDIR "open" path)))
                | _ =>
                    ({| cwd := cwd fs;
                        nodes := <[target := File (utf8_encode content)]> (nodes fs) |},
                     Ok tt)
                end
          end
      | _ => (fs, Throw (PlatformError (InvalidArgType "path" p)))
      end
  | _ => (fs, Throw (PlatformError (InvalidArgType "data" data)))
  end.

End Fs.

(** ** The program state and its effects

    What the program reads is given beforehand: the replies of the oracle in
    the order of the requests, and the lines typed at the terminal.  What it
    changes is the world: the chat history (the global [chatHistory]), the
    file system, what was written to the terminal and the request bodies
    sent to the oracle. *)

Inductive output : Type :=
| Log (line : string)
| LogError (line : string)
| Ask (prompt : string).

Record world : Type := {
  chatHistory : list value;
  files : Fs.filesystem;
  console : list output;
  requests : list value
}.

(** A statement of the program: it changes the world and returns or throws. *)
Definition eff (A : Type) : Type := world -> world * result A.

#[global] Instance eff_ret : MRet eff := fun A a w => (w, Ok a).

#[global] Instance eff_bind : MBind eff :=
  fun A B k m w =>
    match m w with
    | (w', Ok a) => k a w'
    | (w', Throw e) => (w', Throw e)
    end.

Definition lift {A : Type} (r : result A) : eff A := fun w => (w, r).

(** [try { body } catch (e) { handler }]. *)
Definition try_catch {A : Type} (body : eff A) (handler : js_error -> eff A) : eff A :=
  fun w =>
    match body w with
    | (w', Throw e) => handler e w'
    | r => r
    end.

Definition write_console (o : output) : eff unit :=
  fun w => ({| chatHistory := chatHistory w; files := files w;
               console := (console w ++ [o])%list; requests := requests w |}, Ok tt).

(** [chatHistory.push(t)]. *)
Definition push_history (t : value) : eff unit :=
  fun w => ({| chatHistory := (chatHistory w ++ [t])%list; files := files w;
               console := console w; requests := requests w |}, Ok tt).

(** [chatHistory = h]. *)
Definition set_history (h : list value) : eff unit :=
  fun w => ({| chatHistory := h; files := files w;
               console := console w; requests := requests w |}, Ok tt).

Definition get_history : eff (list value) := fun w => (w, Ok (chatHistory w)).

Definition send_request (body : value) : eff unit :=
  fun w => ({| chatHistory := chatHistory w; files := files w;
               console := console w; requests := (requests w ++ [body])%list |}, Ok tt).

(** A call into the file system. *)
Definition on_files {A : Type} (op : Fs.filesystem -> Fs.filesystem * result A) : eff A :=
  fun w =>
    let '(fs', r) := op (files w) in
    ({| chatHistory := chatHistory w; files := fs';
        console := console w; requests := requests w |}, r).

(** The object literal [{ role: r, parts: [{ text: t }] }]. *)
Definition turn (role : string) (text : value) : value :=
  Obj [("role", Str role); ("parts", Arr [Obj [("text", text)]])].

(** ** What [fetch] answers *)

Inductive body_read : Type :=
| BodyText (text : string)
| BodyFails (message : string).

Record response : Type := {
  status : Z;
  statusText : string;
  body : body_read
}.

Inductive fetch_outcome : Type :=
| FetchRejects (message : string)
| FetchResolves (r : response).

(** [response.ok]: the status is in the range 200-299. *)
Definition ok (r : response) : bool := (200 <=? status r) && (status r <=? 299).

(** [await response.text()]. *)
Definition response_text (r : response) : result string :=
  match body r with
  | BodyText t => Ok t
  | BodyFails m => Throw (ForeignError m)
  end.

(** A text between double quotes. *)
Definition quoted (s : string) : string := dq +:+ s +:+ dq.

(** How loading the script ends: [process.exit(code)], or on to the entry
    point. *)
Inductive startup : Type :=
| Exits (code : Z)
| Proceeds.

(** Whether the loop goes round again ([continue], or the end of the body)
    or is left ([break]). *)
Inductive flow : Type :=
| Continue
| Break.

(** How a run of the loop stands when the replies given are used up: left
    by a [break], waiting for the answer to a request, or ended by an
    exception that nothing catches. *)
Inductive loop_end : Type :=
| LoopLeft
| OracleAwaited
| Uncaught (e : js_error).

(** How the session stands when the input given is used up: closed by
    [exit], waiting at the prompt, waiting for the oracle, or ended by an
    exception that nothing catches (the promise of the callback is
    rejected and Node ends the process). *)
Inductive session_end : Type :=
| Closed
| QueryAwaited
| ReplyAwaited
| Crashed (e : js_error).

(** ** The agent *)

Section Agent.

Context `{Platform}.

(** [await response.json()]. *)
Definition response_json (r : response) : result value :=
  t ← response_text r; JSON_parse t.

(** *** Configuration (lines 15-20) *)

Definition GEMINI_API_KEY : value := Str "api key".

(** The check of the key when the script is loaded; [env] is
    [process.env]. *)
Definition configuration (env : gmap string string) : eff startup :=
  if negb (truthy GEMINI_API_KEY) then
    _ ← write_console (LogError "Error: GEMINI_API_KEY environment variable is not set.");
    mret (Exits 1)
  else mret Proceeds.

Definition API_URL : result string :=
  k ← ToString GEMINI_API_KEY;
  Ok ("https://generativelanguage.googleapis.com/v1beta/models/gemini-2.0-flash:generateContent?key=" +:+ k).

Definition SYSTEM_PROMPT : string :=
  join lf
    [ "You are a helpful assistant designed to solve user queries, including writing code and files to the local system.";
      "You operate in a loop with the following steps: THINK, ACTION, OBSERVE, and OUTPUT.";
      EmptyString;
      "1.  **START**: The user provides a query.";
      "2.  **THINK**: You break down the problem and create a plan. For coding tasks, think about the file structure (e.g., which files to create, like index.html, styles.css). You must think at least once. Your thoughts should be clear and explain your reasoning for the next step.";
      "3.  **ACTION**: If a tool is needed, you call an ACTION with the tool name and the required input. To create or write to a file, use the 'writeFile' tool.";
      ("4.  **OBSERVE**: After an action, you will receive an observation. This is the output from the tool (e.g., " +:+ quoted "File written successfully." +:+ ").");
      "5.  **OUTPUT**: Based on your thoughts and observations, you provide the final answer to the user. This is usually done after all files have been created.";
      EmptyString;
      "**Rules:**";
      "- You must always respond in a single, valid JSON object.";
      ("- Always start with a " +:+ quoted "think" +:+ " step.");
      "- Only call tools that are available.";
      ("- For the 'writeFile' tool, the 'input' field must be a JSON object with " +:+ quoted "filePath" +:+ " and " +:+ quoted "fileContent" +:+ " keys.");
      ("- The loop continues until you have enough information or have completed all actions to use the " +:+ quoted "output" +:+ " step.");
      EmptyString;
      "**Available Tools:**";
      ("- `addTwoNumbers(x, y)`: Adds two numbers together. Input should be a comma-separated string of two numbers (e.g., " +:+ quoted "10,20" +:+ ").");
      ("- `writeFile(input)`: Writes content to a local file. The input must be a JSON object: { " +:+ quoted "filePath" +:+ ": " +:+ quoted "path/to/file.ext" +:+ ", " +:+ quoted "fileContent" +:+ ": " +:+ quoted "content to write" +:+ " }.");
      EmptyString;
      "**Output Format (Strict JSON):**";
      "{";
      ("  " +:+ quoted "step" +:+ ": " +:+ quoted "think" +:+ " | " +:+ quoted "action" +:+ " | " +:+ quoted "output" +:+ ",");
      ("  " +:+ quoted "tool" +:+ ": " +:+ quoted "addTwoNumbers" +:+ " | " +:+ quoted "writeFile" +:+ " | null,");
      ("  " +:+ quoted "input" +:+ ": string | object,");
      ("  " +:+ quoted "content" +:+ ": string");
      "}" ].

Definition acknowledgment : string :=
  "{" +:+ quoted "step" +:+ ": " +:+ quoted "think" +:+ ", " +:+ quoted "tool" +:+ ": null, "
  +:+ quoted "input" +:+ ": null, " +:+ quoted "content" +:+ ": "
  +:+ quoted "Okay, I understand the instructions. I am a helpful assistant that can write files. I will follow the THINK, ACTION, OBSERVE, OUTPUT loop. I am ready for the user's query."
  +:+ "}".

(** *** Tool definitions *)

(** ToPrimitive: an array or an object becomes its string. *)
Definition ToPrimitive (v : value) : result value :=
  match v with
  | Arr _ => s ← ToString v; Ok (Str s)
  | Obj _ => s ← ToString v; Ok (Str s)
  | _ => Ok v
  end.

(** [addTwoNumbers(x, y)], that is [x + y]: the concatenation when one
    side is a string, the sum of the Numbers otherwise. *)
Definition addTwoNumbers (x y : value) : result value :=
  px ← ToPrimitive x;
  py ← ToPrimitive y;
  match px, py with
  | Str a, _ => b ← ToString py; Ok (Str (a +:+ b))
  | _, Str b => a ← ToString px; Ok (Str (a +:+ b))
  | _, _ => a ← ToNumber px; b ← ToNumber py; Ok (Num (add a b))
  end.

(** [writeFile(filePath, fileContent)]. *)
Definition writeFile (filePath fileContent : value) : eff value :=
  try_catch
    (dirname ← lift (match filePath with
                    | Str p => Ok (Path.dirname p)
                    | _ => Throw (PlatformError (InvalidArgType "path" filePath))
                    end);
     _ ← (fun w =>
            if negb (Fs.existsSync (files w) dirname)
            then on_files (fun fs => Fs.mkdirSync_recursive fs dirname) w
            else (w, Ok tt));
     _ ← on_files (fun fs => Fs.writeFileSync fs filePath fileContent);
     len ← lift (get_length fileContent);
     n ← lift (ToString len);
     p ← lift (ToString filePath);
     mret (Str ("Successfully wrote " +:+ n +:+ " bytes to " +:+ p)))
    (fun error => mret (Str ("Error writing file: " +:+ message error))).

(** *** Terminal UI *)

Definition colors : list (string * string) :=
  [ ("think", esc +:+ "[33m");
    ("action", esc +:+ "[34m");
    ("observe", esc +:+ "[35m");
    ("output", esc +:+ "[32m");
    ("error", esc +:+ "[31m");
    ("reset", esc +:+ "[0m") ].

Fixpoint color (type : string) (l : list (string * string)) : string :=
  match l with
  | [] => EmptyString
  | (k, c) :: r => if String.eqb type k then c else color type r
  end.

(** [printStep(type, text)]; [type] is one of the keys of [colors]. *)
Definition printStep (type : string) (text : value) : eff unit :=
  t ← lift (ToString text);
  write_console
    (Log (color type colors +:+ "[" +:+ toUpperCase_ascii type +:+ "] " +:+ t
          +:+ color "reset" colors)).

(** *** Core agent logic *)

(** [s.replace(/^```json\n?/, "")]. *)
Definition strip_open (s : string) : string :=
  match strip_prefix "```json" s with
  | Some r => if is_char (chr 10) r then tail r else r
  | None => s
  end.

(** [s.replace(/\n?```$/, "")]: the leftmost place where what is left of
    the string is the closing fence, with or without a line feed before
    it. *)
Fixpoint strip_close (s : string) : string :=
  if String.eqb s (lf +:+ "```") || String.eqb s "```" then EmptyString
  else match s with
       | EmptyString => EmptyString
       | String c r => String c (strip_close r)
       end.

Definition clean (rawText : string) : string := strip_close (strip_open rawText).

(** [rawText.replace(...).replace(...)]: only a string has [replace]. *)
Definition cleanedText (rawText : value) : result string :=
  match rawText with
  | Str s => Ok (clean s)
  | Undefined => Throw (PlatformError (CannotReadProperty rawText "replace"))
  | Null => Throw (PlatformError (CannotReadProperty rawText "replace"))
  | _ => Throw (PlatformError (NotAFunction "rawText.replace"))
  end.

(** The body of the [try] of [callGemini], from the answer of [fetch] on. *)
Definition decode (reply : fetch_outcome) : result value :=
  match reply with
  | FetchRejects m => Throw (ForeignError m)
  | FetchResolves response =>
      if negb (ok response) then
        errorBody ← response_text response;
        Throw (SourceError ("API Error: " +:+ JsNumber.toString (of_Z (status response))
                            +:+ " " +:+ statusText response +:+ " - " +:+ errorBody))
      else
        result ← response_json response;
        candidates ← get result "candidates";
        some ← (if truthy candidates
                then len ← get_length candidates; gt_zero len
                else Ok false);
        if (some : bool) then
          first ← get_first candidates;
          content ← get first "content";
          parts ← get content "parts";
          part ← get_first parts;
          rawText ← get part "text";
          cleaned ← cleanedText rawText;
          JSON_parse cleaned
        else
          promptFeedback ← get result "promptFeedback";
          if truthy promptFeedback then
            blockReason ← get promptFeedback "blockReason";
            reason ← ToString blockReason;
            Throw (SourceError ("API blocked the prompt. Reason: " +:+ reason))
          else Throw (SourceError "Invalid response structure from API.")
  end.

Definition payload (history : list value) : value :=
  Obj [ ("contents", Arr history);
        ("generationConfig", Obj [("responseMimeType", Str "application/json")]) ].

(** The call of [fetch]: the chat history goes out in the request body. *)
Definition post : eff unit :=
  history ← get_history;
  send_request (JSON_stringify (payload history)).

(** [callGemini()], given what [fetch] answers: the Decision, or [null]
    after an error line. *)
Definition callGemini (reply : fetch_outcome) : eff value :=
  try_catch
    (_ ← post; lift (decode reply))
    (fun error =>
       _ ← printStep "error"
             (Str ("Error calling Gemini API or parsing response: " +:+ message error));
       mret Null).

(** [isNaN(v)]. *)
Definition isNaN (v : value) : result bool :=
  x ← ToNumber v; Ok (is_nan x).

(** [a || b] on conditions: [b] is evaluated only when [a] is false. *)
Definition or_else (a b : result bool) : result bool :=
  match a with
  | Ok true => Ok true
  | Ok false => b
  | Throw e => Throw e
  end.

(** The [try] of the [addTwoNumbers] branch; a place of the array
    pattern [[x, y]] that the array does not reach is [undefined]. *)
Definition add_numbers (input : value) : result value :=
  s ← ToString input;
  let numbers := List.map (fun piece => Num (StringToNumber piece)) (split_on "," s) in
  let x := List.nth 0 numbers Undefined in
  let y := List.nth 1 numbers Undefined in
  invalid ← or_else (isNaN x) (isNaN y);
  if (invalid : bool) then Throw (SourceError "Invalid number input.")
  else addTwoNumbers x y.

Definition executing (body : eff value) : eff value :=
  try_catch body (fun e => mret (Str ("Error executing tool: " +:+ message e))).

(** The [try] of the [writeFile] branch. *)
Definition write_file (input : value) : eff value :=
  if negb (String.eqb (typeof input) "object")
     || match input with Null => true | _ => false end
     || negb (truthy (field input "filePath"))
     || String.eqb (typeof (field input "fileContent")) "undefined"
  then lift (Throw (SourceError
         "Invalid input for writeFile. Expected an object with 'filePath' and 'fileContent'."))
  else writeFile (field input "filePath") (field input "fileContent").

(** The Observation of an [action] Decision: the value of [result]. *)
Definition observation (tool input : value) : eff value :=
  if is_str "addTwoNumbers" tool then executing (lift (add_numbers input))
  else if is_str "writeFile" tool then executing (write_file input)
  else name ← lift (ToString tool); mret (Str ("Unknown tool: " +:+ name)).

(** The body of the [while (true)] of [runConversation] after the
    [await callGemini()]. *)
Definition interpret (response : value) : eff flow :=
  if negb (truthy response) then mret Break
  else
    _ ← push_history (turn "model" (JSON_stringify response));
    let step := field response "step" in
    let tool := field response "tool" in
    let input := field response "input" in
    let content := field response "content" in
    if is_str "think" step then
      _ ← printStep "think" content;
      mret Continue
    else if is_str "action" step then
      t ← lift (ToString tool);
      i ← lift (ToString (JSON_stringify input));
      _ ← printStep "action" (Str ("Tool: " +:+ t +:+ ", Input: " +:+ i));
      result ← observation tool input;
      r ← lift (ToString result);
      _ ← printStep "observe" (Str ("Result: " +:+ r));
      _ ← push_history
            (turn "user" (JSON_stringify (Obj [("step", Str "observe"); ("output", result)])));
      mret Continue
    else if is_str "output" step then
      _ ← printStep "output" content;
      mret Break
    else mret Continue.

(** One round of the loop, given the answer of [fetch]. *)
Definition iteration (reply : fetch_outcome) : eff flow :=
  response ← callGemini reply;
  interpret response.

(** The [while (true)] loop: each round sends a request and takes the next
    reply; when no reply is left the request stays unanswered. *)
Fixpoint loop (oracle : list fetch_outcome) (w : world)
  : world * list fetch_outcome * loop_end :=
  match oracle with
  | [] => let '(w0, _) := post w in (w0, [], OracleAwaited)
  | reply :: rest =>
      match iteration reply w with
      | (w', Ok Continue) => loop rest w'
      | (w', Ok Break) => (w', rest, LoopLeft)
      | (w', Throw e) => (w', rest, Uncaught e)
      end
  end.

Definition question : string :=
  esc +:+ "[36m" +:+ lf +:+ "Enter your query (or type " +:+ quoted "exit" +:+ " to close): "
  +:+ esc +:+ "[0m".

Definition seed (userQuery : string) : list value :=
  [ turn "user" (Str SYSTEM_PROMPT);
    turn "model" (Str acknowledgment);
    turn "user" (Str userQuery) ].

(** [runConversation()] up to the end of its loop. *)
Definition conversation (oracle : list fetch_outcome) (w : world)
  : world * list fetch_outcome * loop_end :=
  let '(w1, _) := write_console (Log "Agent is processing...") w in
  loop oracle w1.

(** [start()], with [runConversation()] in the place where the callback
    awaits it: the loop of one query, then [start()] again. *)
Fixpoint start (stdin : list string) (oracle : list fetch_outcome) (w : world)
  : world * list fetch_outcome * session_end :=
  let '(w1, _) := write_console (Ask question) w in
  match stdin with
  | [] => (w1, oracle, QueryAwaited)
  | userQuery :: more =>
      if String.eqb (toLowerCase userQuery) "exit" then (w1, oracle, Closed)
      else
        let '(w2, _) := set_history (seed userQuery) w1 in
        match conversation oracle w2 with
        | (w3, oracle', LoopLeft) => start more oracle' w3
        | (w3, oracle', OracleAwaited) => (w3, oracle', ReplyAwaited)
        | (w3, oracle', Uncaught e) => (w3, oracle', Crashed e)
        end
  end.

(** [runConversation()]: the loop, then [start()]. *)
Definition runConversation (stdin : list string) (oracle : list fetch_outcome) (w : world)
  : world * list fetch_outcome * session_end :=
  match conversation oracle w with
  | (w1, oracle', LoopLeft) => start stdin oracle' w1
  | (w1, oracle', OracleAwaited) => (w1, oracle', ReplyAwaited)
  | (w1, oracle', Uncaught e) => (w1, oracle', Crashed e)
  end.

(** The script from its first line to its last. *)
Definition main (env : gmap string string) (stdin : list string)
           (oracle : list fetch_outcome) (w : world)
  : world * list fetch_outcome * session_end + world * Z :=
  match configuration env w with
  | (w1, Ok (Exits code)) => inr (w1, code)
  | (w1, _) =>
      let '(w2, _) := write_console (Log "--- Gemini AI Agent (Terminal) ---") w1 in
      inl (start stdin oracle w2)
  end.

End Agent.

(** ** A reference platform

    A reader of JSON texts and the wording of Node's messages, to run the
    agent on examples.  The reader follows the JSON grammar; an escape
    [\uXXXX] above 0x00FF has no code unit in the strings of the model and
    is refused. *)

Module Reference.

Definition syntax_error : js_error := ForeignError "Unexpected token in JSON".

Definition is_json_ws (c : ascii) : bool :=
  let n := code c in (n =? 32) || (n =? 9) || (n =? 10) || (n =? 13).

Fixpoint skip_ws (s : string) : string :=
  match s with
  | String c r => if is_json_ws c then skip_ws r else s
  | EmptyString => EmptyString
  end.

Definition hex4 (a b c d : ascii) : option Z :=
  match digit_of 16 a, digit_of 16 b, digit_of 16 c, digit_of 16 d with
  | Some x, Some y, Some z, Some t => Some (((x * 16 + y) * 16 + z) * 16 + t)
  | _, _, _, _ => None
  end.

Definition simple_escape (e : ascii) : option ascii :=
  let n := code e in
  if (n =? 34) || (n =? 92) || (n =? 47) then Some e
  else if n =? 98 then Some (chr 8)
  else if n =? 102 then Some (chr 12)
  else if n =? 110 then Some (chr 10)
  else if n =? 114 then Some (chr 13)
  else if n =? 116 then Some (chr 9)
  else None.

(** A string after its opening quote: its code units and what follows the
    closing quote. *)
Fixpoint read_string (s : string) : option (string * string) :=
  match s with
  | EmptyString => None
  | String c r =>
      if code c =? 34 then Some (EmptyString, r)
      else if code c <? 32 then None
      else if code c =? 92 then
        match r with
        | String e r1 =>
            if code e =? 117 then
              match r1 with
              | String h1 (String h2 (String h3 (String h4 r2))) =>
                  match hex4 h1 h2 h3 h4 with
                  | Some n =>
                      if n <? 256 then
                        match read_string r2 with
                        | Some (t, rest) => Some (String (chr n) t, rest)
                        | None => None
                        end
                      else None
                  | None => None
                  end
              | _ => None
              end
            else
              match simple_escape e with
              | Some x =>
                  match read_string r1 with
                  | Some (t, rest) => Some (String x t, rest)
                  | None => None
                  end
              | None => None
              end
        | EmptyString => None
        end
      else
        match read_string r with
        | Some (t, rest) => Some (String c t, rest)
        | None => None
        end
  end.

(** A JSON number and what follows it. *)
Definition read_number (s : string) : option (number * string) :=
  let neg := is_char "-" s in
  let s1 := if neg then tail s else s in
  let '(ip, ni, r1) := read_digits 10 s1 0 0 in
  if (ni =? 0) || (is_char "0" s1 && (1 <? ni)) then None else
  let '(m, nf, r2) :=
    if is_char "." r1 then read_digits 10 (tail r1) ip 0 else (ip, 0, r1) in
  if is_char "." r1 && (nf =? 0) then None else
  if is_char "e" r2 || is_char "E" r2 then
    let r3 := tail r2 in
    let eneg := is_char "-" r3 in
    let r4 := if is_char "+" r3 || is_char "-" r3 then tail r3 else r3 in
    let '(ev, ne, r5) := read_digits 10 r4 0 0 in
    if ne =? 0 then None
    else Some (of_decimal neg m ((if eneg then - ev else ev) - nf), r5)
  else Some (of_decimal neg m (- nf), r2).

(** A key that is an array index (a canonical integer below 2^32 - 1);
    such keys come first in an object, in ascending order. *)
Definition index_of_key (k : string) : option Z :=
  let '(v, n, rest) := read_digits 10 k 0 0 in
  if (0 <? n) && String.eqb rest EmptyString && String.eqb (decimal v) k
     && (v <? 4294967295)
  then Some v else None.

(** Defines the property [k]: an existing one keeps its place. *)
Fixpoint define (k : string) (v : value) (fields : list (string * value))
  : list (string * value) :=
  match fields with
  | [] => [(k, v)]
  | (k', v') :: r =>
      if String.eqb k k' then (k, v) :: r
      else
        match index_of_key k, index_of_key k' with
        | Some i, Some j => if i <? j then (k, v) :: fields else (k', v') :: define k v r
        | Some _, None => (k, v) :: fields
        | None, _ => (k', v') :: define k v r
        end
  end.

Fixpoint read_value (fuel : nat) (s : string) : option (value * string) :=
  match fuel with
  | O => None
  | S f =>
      match skip_ws s with
      | EmptyString => None
      | String c r as t =>
          if code c =? 123 then
            match skip_ws r with
            | String c' r' =>
                if code c' =? 125 then Some (Obj [], r') else read_members f (skip_ws r) []
            | EmptyString => None
            end
          else if code c =? 91 then
            match skip_ws r with
            | String c' r' =>
                if code c' =? 93 then Some (Arr [], r') else read_elements f r []
            | EmptyString => None
            end
          else if code c =? 34 then
            match read_string r with
            | Some (x, rest) => Some (Str x, rest)
            | None => None
            end
          else
            match strip_prefix "true" t, strip_prefix "false" t, strip_prefix "null" t with
            | Some rest, _, _ => Some (Bool true, rest)
            | _, Some rest, _ => Some (Bool false, rest)
            | _, _, Some rest => Some (Null, rest)
            | _, _, _ =>
                match read_number t with
                | Some (x, rest) => Some (Num x, rest)
                | None => None
                end
            end
      end
  end
with read_elements (fuel : nat) (s : string) (acc : list value) : option (value * string) :=
  match fuel with
  | O => None
  | S f =>
      match read_value f s with
      | Some (x, rest) =>
          match skip_ws rest with
          | String c r =>
              if code c =? 44 then read_elements f r (acc ++ [x])%list
              else if code c =? 93 then Some (Arr (acc ++ [x])%list, r)
              else None
          | EmptyString => None
          end
      | None => None
      end
  end
with read_members (fuel : nat) (s : string) (acc : list (string * value))
  : option (value * string) :=
  match fuel with
  | O => None
  | S f =>
      match s with
      | String c r =>
          if code c =? 34 then
            match read_string r with
            | Some (k, rest) =>
                match skip_ws rest with
                | String c1 r1 =>
                    if code c1 =? 58 then
                      match read_value f r1 with
                      | Some (x, rest1) =>
                          match skip_ws rest1 with
                          | String c2 r2 =>
                              if code c2 =? 44 then read_members f (skip_ws r2) (define k x acc)
                              else if code c2 =? 125 then Some (Obj (define k x acc), r2)
                              else None
                          | EmptyString => None
                          end
                      | None => None
                      end
                    else None
                | EmptyString => None
                end
            | None => None
            end
          else None
      | EmptyString => None
      end
  end.

(** [JSON.parse(text)]: one value, with only white space around it. *)
Definition parse (text : string) : result value :=
  match read_value (S (String.length text)) text with
  | Some (v, rest) =>
      match skip_ws rest with
      | EmptyString => Ok v
      | _ => Throw syntax_error
      end
  | None => Throw syntax_error
  end.

Definition describe (code : fs_errno) : string :=
  match code with
  | ENOENT => "ENOENT: no such file or directory"
  | ENOTDIR => "ENOTDIR: not a directory"
  | EISDIR => "EISDIR: illegal operation on a directory"
  | EEXIST => "EEXIST: file already exists"
  end.

Definition received (v : value) : string :=
  match v with
  | Undefined => "undefined"
  | Null => "null"
  | Bool b => "type boolean (" +:+ (if b then "true" else "false") +:+ ")"
  | Num x => "type number (" +:+ JsNumber.toString x +:+ ")"
  | Str s => "type string ('" +:+ s +:+ "')"
  | Arr _ => "an instance of Array"
  | Obj _ => "an instance of Object"
  end.

Definition wording (f : platform_failure) : string :=
  match f with
  | CannotReadProperty target key =>
      "Cannot read properties of "
      +:+ match target with Null => "null" | _ => "undefined" end
      +:+ " (reading '" +:+ key +:+ "')"
  | NotAFunction callee => callee +:+ " is not a function"
  | CannotConvertToPrimitive => "Cannot convert object to primitive value"
  | InvalidArgType arg actual =>
      "The " +:+ quoted arg +:+ " argument must be of type string"
      +:+ (if String.eqb arg "data"
           then " or an instance of Buffer, TypedArray, or DataView" else EmptyString)
      +:+ ". Received " +:+ received actual
  | InvalidArgValue arg actual =>
      "The argument '" +:+ arg
      +:+ "' must be a string, Uint8Array, or URL without null bytes. Received "
      +:+ received actual
  | FsFailure code syscall path =>
      describe code +:+ ", " +:+ syscall +:+ " '" +:+ path +:+ "'"
  end.

#[export] Instance node : Platform := {
  JSON_parse := parse;
  node_message := wording
}.

End Reference.

(** * Vocabulary of the properties *)

(** The world with more lines on the terminal. *)
Definition logged (lines : list output) (w : world) : world :=
  {| chatHistory := chatHistory w; files := files w;
     console := (console w ++ lines)%list; requests := requests w |}.

(** The world with more turns in the chat history. *)
Definition remembered (turns : list value) (w : world) : world :=
  {| chatHistory := (chatHistory w ++ turns)%list; files := files w;
     console := console w; requests := requests w |}.

(** The world with one more request sent, carrying the chat history. *)
Definition requested (w : world) : world :=
  {| chatHistory := chatHistory w; files := files w; console := console w;
     requests := (requests w ++ [JSON_stringify (payload (chatHistory w))])%list |}.

(** The line [printStep(type, text)] writes. *)
Definition step_line (type text : string) : output :=
  Log (color type colors +:+ "[" +:+ toUpperCase_ascii type +:+ "] " +:+ text
       +:+ color "reset" colors).

(** The text of [JSON.stringify(v)] inside a template literal. *)
Definition json_text (v : value) : string :=
  match stringify v with
  | Some s => s
  | None => "undefined"
  end.

(** The Observation turn pushed after a tool has run. *)
Definition observe_turn (result : value) : value :=
  turn "user" (JSON_stringify (Obj [("step", Str "observe"); ("output", result)])).

(** The Decision turn pushed before a Decision is interpreted. *)
Definition model_turn (response : value) : value :=
  turn "model" (JSON_stringify response).

Section Running.

Context `{Platform}.

(** The replies [pre] take the loop from [w] to [w'] and leave it running:
    every one of them is a round that goes round again. *)
Inductive rounds : list fetch_outcome -> world -> world -> Prop :=
| rounds_nil (w : world) : rounds [] w w
| rounds_cons (reply : fetch_outcome) (pre : list fetch_outcome) (w w1 w2 : world) :
    iteration reply w = (w1, Ok Continue) ->
    rounds pre w1 w2 ->
    rounds (reply :: pre) w w2.

End Running.

(** The world after the lines and turns of an [action] round around the
    tool's own effects. *)
Definition announced (response : value) (t : string) (w : world) : world :=
  logged [step_line "action"
            ("Tool: " +:+ t +:+ ", Input: " +:+ json_text (field response "input"))]
    (remembered [model_turn response] w).

Definition observed (result : value) (r : string) (w : world) : world :=
  remembered [observe_turn result] (logged [step_line "observe" ("Result: " +:+ r)] w).

(** The body of an answer of the oracle that carries the text [t]. *)
Definition candidate_body (t : string) : value :=
  Obj [("candidates", Arr [Obj [("content", Obj [("parts", Arr [Obj [("text", Str t)]])])]])].

(** The body of an answer that reports a blocked prompt. *)
Definition blocked_body (reason : string) : value :=
  Obj [("promptFeedback", Obj [("blockReason", Str reason)])].

(** The world with the chat history replaced. *)
Definition reseeded (h : list value) (w : world) : world :=
  {| chatHistory := h; files := files w; console := console w; requests := requests w |}.

(** A text inside a markdown code fence labelled [json]. *)
Definition fenced (d : string) : string := "```json" +:+ lf +:+ d +:+ lf +:+ "```".

(** JSON white space: space, tab, line feed, carriage return. *)
Fixpoint blank (s : string) : bool :=
  match s with
  | EmptyString => true
  | String c r => Reference.is_json_ws c && blank r
  end.

(** The shape of the text of one JSON object: an opening brace first and a
    closing brace last, with only white space around them. *)
Definition object_shaped (d : string) : Prop :=
  exists pre body post,
    d = pre +:+ "{" +:+ body +:+ "}" +:+ post /\ blank pre = true /\ blank post = true.

(** Whether the last code unit of the text is [x]. *)
Fixpoint ends_with (x : ascii) (s : string) : bool :=
  match s with
  | EmptyString => false
  | String c EmptyString => Ascii.eqb c x
  | String _ r => ends_with x r
  end.

(** The same fence without the line feeds. *)
Definition fenced_tight (d : string) : string := "```json" +:+ d +:+ "```".

(** What the branch makes of the pieces of the input: the first two are the
    operands, a missing one is [undefined]. *)
Definition pair_sum (pieces : list string) : result value :=
  match pieces with
  | a :: b :: _ =>
      if is_nan (StringToNumber a) || is_nan (StringToNumber b)
      then Throw (SourceError "Invalid number input.")
      else Ok (Num (add (StringToNumber a) (StringToNumber b)))
  | _ => Throw (SourceError "Invalid number input.")
  end.

(** How a result is printed after ["Result: "]. *)
Definition shown (v : value) : string :=
  match ToString v with
  | Ok s => s
  | Throw _ => EmptyString
  end.

Definition invalid_number : value := Str "Error executing tool: Invalid number input.".

(** A name of a file or a directory: not empty, without slash or NUL, and
    neither [.] nor [..]. *)
Definition plain_name (n : string) : bool :=
  negb (String.eqb n EmptyString) && negb (has_char "/" n)
  && negb (String.eqb n ".") && negb (String.eqb n "..")
  && negb (has_char (chr 0) n).

(** The directories on the way from [base] down the names [dirs]. *)
Fixpoint ancestors (base dirs : list string) : list (list string) :=
  match dirs with
  | [] => []
  | d :: r => (base ++ [d])%list :: ancestors (base ++ [d])%list r
  end.

Definition is_file (o : option Fs.node) : bool :=
  match o with Some (Fs.File _) => true | _ => false end.

Definition is_dir (o : option Fs.node) : bool :=
  match o with Some Fs.Dir => true | _ => false end.

(** No file stands where a directory of the way is needed. *)
Definition way_clear (m : gmap (list string) Fs.node) (base dirs : list string) : bool :=
  forallb (fun p => negb (is_file (Fs.node_at m p))) (ancestors base dirs).

(** The map with every directory of the way in place. *)
Definition made (m : gmap (list string) Fs.node) (base dirs : list string)
  : gmap (list string) Fs.node :=
  fold_left (fun acc p => <[p := Fs.Dir]> acc) (ancestors base dirs) m.

(** Every code unit is below 0x80. *)
Fixpoint ascii_only (s : string) : bool :=
  match s with
  | EmptyString => true
  | String c r => (code c <? 128) && ascii_only r
  end.

(** A path that starts with a name, not with a slash. *)
Definition relative (p : string) : bool :=
  match p with
  | String c _ => negb (Path.is_slash c)
  | EmptyString => false
  end.

(** The world with another file system. *)
Definition stored (fs : Fs.filesystem) (w : world) : world :=
  {| chatHistory := chatHistory w; files := fs; console := console w; requests := requests w |}.

(** The directory of a path of names, as [path.dirname] gives it. *)
Definition dir_path (dirs : list string) : string :=
  match dirs with
  | [] => "."
  | _ => join "/" dirs
  end.

(** The Observation of a write that succeeds. *)
Definition wrote (content path : string) : value :=
  Str ("Successfully wrote " +:+ JsNumber.toString (of_Z (js_length content))
       +:+ " bytes to " +:+ path).

(** The file system after the write. *)
Definition written (fs : Fs.filesystem) (dirs : list string) (name content : string)
  : Fs.filesystem :=
  {| Fs.cwd := Fs.cwd fs;
     Fs.nodes := <[(Fs.cwd fs ++ dirs ++ [name])%list := Fs.File (Fs.utf8_encode content)]>
                   (made (Fs.nodes fs) (Fs.cwd fs) dirs) |}.

(** What [writeFile] does before it writes: the directory of the path is
    made when it does not exist. *)
Definition ensured (fs : Fs.filesystem) (path : string) : Fs.filesystem * result unit :=
  if negb (Fs.existsSync fs (Path.dirname path))
  then Fs.mkdirSync_recursive fs (Path.dirname path)
  else (fs, Ok tt).

(** Whatever [fs] holds outside the paths [but], [fs'] holds too, and the
    working directory is the same. *)
Definition kept (fs fs' : Fs.filesystem) (but : list (list string)) : Prop :=
  Fs.cwd fs' = Fs.cwd fs
  /\ forall p x, ~ In p but ->
       Fs.node_at (Fs.nodes fs) p = Some x -> Fs.node_at (Fs.nodes fs') p = Some x.

(** In [fs'] the path leads, through existing directories, to a file that
    holds the bytes of the content and nothing more; everything else that
    [fs] held is kept. *)
Definition file_written (fs fs' : Fs.filesystem) (path content : string) : Prop :=
  exists target,
    Fs.locate fs' path = inr target
    /\ Fs.node_at (Fs.nodes fs') target = Some (Fs.File (Fs.utf8_encode content))
    /\ kept fs fs' [target].

(** ** What a run keeps *)

(** Whether a node is a directory. *)
Definition is_directory (n : Fs.node) : bool :=
  match n with
  | Fs.Dir => true
  | Fs.File _ => false
  end.

(** Nothing of [fs] is gone in [fs']: the working directory is the same,
    what was a directory is a directory and what was a file is a file
    (whose content may have been replaced). *)
Definition persists (fs fs' : Fs.filesystem) : Prop :=
  Fs.cwd fs' = Fs.cwd fs
  /\ forall p x, Fs.node_at (Fs.nodes fs) p = Some x ->
       exists y, Fs.node_at (Fs.nodes fs') p = Some y /\ is_directory y = is_directory x.

(** From [w] to [w'] the chat history and the terminal only got longer and
    nothing of the file system is gone. *)
Definition extends (w w' : world) : Prop :=
  chatHistory w `prefix_of` chatHistory w'
  /\ console w `prefix_of` console w'
  /\ persists (files w) (files w').

(** The same, with no request sent. *)
Definition quiet (w w' : world) : Prop := extends w w' /\ requests w' = requests w.

(** From [w] to [w'] only the file system changed. *)
Definition only_files (w w' : world) : Prop := exists fs', w' = stored fs' w.

(** A statement that takes every world to one related to it by [R]. *)
Definition respects {A : Type} (R : world -> world -> Prop) (m : eff A) : Prop :=
  forall w w' r, m w = (w', r) -> R w w'.

(** A statement that is quiet from every world. *)
Definition steady {A : Type} (m : eff A) : Prop := respects quiet m.

(** One of the sixteen spellings of [exit] in upper and lower case, with
    nothing before or after it. *)
Definition spelled_exit (q : string) : bool :=
  match q with
  | String e (String x (String i (String t EmptyString))) =>
      (Ascii.eqb e "e" || Ascii.eqb e "E") && (Ascii.eqb x "x" || Ascii.eqb x "X")
      && (Ascii.eqb i "i" || Ascii.eqb i "I") && (Ascii.eqb t "t" || Ascii.eqb t "T")
  | _ => false
  end.

(** * Examples on the reference platform *)

Module Examples.

Import Reference.

(** A home directory with nothing in it. *)
Definition home : Fs.filesystem :=
  {| Fs.cwd := ["home"; "u"];
     Fs.nodes := {[ ["home"] := Fs.Dir; ["home"; "u"] := Fs.Dir ]} |}.

(** The same with a file named [out]. *)
Definition home_with_file : Fs.filesystem :=
  {| Fs.cwd := ["home"; "u"];
     Fs.nodes := {[ ["home"] := Fs.Dir; ["home"; "u"] := Fs.Dir;
                    ["home"; "u"; "out"] := Fs.File [] ]} |}.

Definition fresh (fs : Fs.filesystem) : world :=
  {| chatHistory := seed "hello"; files := fs; console := []; requests := [] |}.

Definition decision (step tool : string) (input : value) (content : string) : value :=
  Obj [("step", Str step); ("tool", Str tool); ("input", input); ("content", Str content)].

Definition thinking : value := decision "think" "none" Null "First the sum.".
Definition adding : value := decision "action" "addTwoNumbers" (Str "10,20") "".
Definition writing : value :=
  decision "action" "writeFile"
           (Obj [("filePath", Str "out/sub/file.txt"); ("fileContent", Str "hi")]) "".
Definition answering : value := decision "output" "none" Null "The sum is 30.".
Definition planning : value := decision "plan" "none" Null "A plan.".

(** The answer of the oracle that carries the Decision [d] as its text. *)
Definition answer (d : value) : fetch_outcome :=
  FetchResolves {| status := 200; statusText := "OK";
                   body := BodyText (json_text (candidate_body (json_text d))) |}.

Definition unavailable : fetch_outcome :=
  FetchResolves {| status := 503; statusText := "Service Unavailable";
                   body := BodyText "overloaded" |}.

(** The world after the rounds of the replies [pre]. *)
Fixpoint after (pre : list fetch_outcome) (w : world) : world :=
  match pre with
  | [] => w
  | reply :: more => after more (fst (iteration reply w))
  end.

Definition object_body : string := quoted "step" +:+ ":" +:+ quoted "output".
Definition object_text : string := "{" +:+ object_body +:+ "}".

End Examples.

(** More inputs for the reference platform. *)

Module Cases.

Import Reference.
Import Examples.

(** An [action] Decision that names no tool. *)
Definition toolless : value := Obj [("step", Str "action"); ("input", Str "10,20")].

(** A sum that is not finite. *)
Definition overflowing : value := decision "action" "addTwoNumbers" (Str "Infinity,1") EmptyString.

(** The Decision [writing] with another content. *)
Definition rewriting : value :=
  decision "action" "writeFile"
           (Obj [("filePath", Str "out/sub/file.txt"); ("fileContent", Str "bye")])
           EmptyString.

(** A thought that cannot be printed. *)
Definition unprintable : value :=
  Obj [("step", Str "think"); ("content", Obj [("toString", Null)])].

(** A successful answer with an empty object. *)
Definition shapeless : response :=
  {| status := 200; statusText := "OK"; body := BodyText "{}" |}.

(** The response of the answer [unavailable]. *)
Definition unavailable_response : response :=
  {| status := 503; statusText := "Service Unavailable"; body := BodyText "overloaded" |}.

End Cases.

(** * Properties *)

(** ** Worlds after a step *)

Section Effects.

Context `{Platform}.

Lemma bind_ok {A B : Type} (m : eff A) (k : A -> eff B) (w w' : world) (a : A) :
  m w = (w', Ok a) -> (x ← m; k x) w = k a w'.
Proof. intros E. unfold mbind, eff_bind. now rewrite E. Qed.

Lemma printStep_text (type : string) (text : value) (t : string) (w : world) :
  ToString text = Ok t ->
  printStep type text w = (logged [step_line type t] w, Ok tt).
Proof.
  intros E. unfold printStep.
  rewrite (bind_ok _ _ w w t) by (unfold lift; now rewrite E).
  reflexivity.
Qed.

Lemma push_history_spec (t : value) (w : world) :
  push_history t w = (remembered [t] w, Ok tt).
Proof. reflexivity. Qed.

Lemma ToString_JSON_stringify (v : value) :
  ToString (JSON_stringify v) = Ok (json_text v).
Proof. unfold JSON_stringify, json_text. now destruct (stringify v). Qed.

Lemma post_spec (w : world) : post w = (requested w, Ok tt).
Proof. reflexivity. Qed.

(** A value with a property is an object, and an object is truthy. *)
Lemma field_truthy (response : value) (k : string) (v : value) :
  field response k = v -> v <> Undefined -> truthy response = true.
Proof.
  destruct response; simpl; intros E N; try reflexivity; congruence.
Qed.

End Effects.

(** ** The loop, round by round *)

Section Rounds.

Context `{Platform}.

Lemma callGemini_ok (reply : fetch_outcome) (response : value) (w : world) :
  decode reply = Ok response ->
  callGemini reply w = (requested w, Ok response).
Proof.
  intros E. unfold callGemini, try_catch.
  erewrite bind_ok by apply post_spec.
  unfold lift. now rewrite E.
Qed.

Lemma callGemini_failure (reply : fetch_outcome) (e : js_error) (w : world) :
  decode reply = Throw e ->
  callGemini reply w =
    (logged [step_line "error"
               ("Error calling Gemini API or parsing response: " +:+ message e)]
            (requested w),
     Ok Null).
Proof.
  intros E. unfold callGemini, try_catch.
  erewrite bind_ok by apply post_spec.
  unfold lift. rewrite E.
  erewrite bind_ok by (apply printStep_text; reflexivity).
  reflexivity.
Qed.

Lemma iteration_ok (reply : fetch_outcome) (response : value) (w : world) :
  decode reply = Ok response ->
  iteration reply w = interpret response (requested w).
Proof.
  intros E. unfold iteration.
  now rewrite (bind_ok _ _ w (requested w) response) by now apply callGemini_ok.
Qed.

Lemma loop_cons (reply : fetch_outcome) (rest : list fetch_outcome) (w : world) :
  loop (reply :: rest) w =
    match iteration reply w with
    | (w', Ok Continue) => loop rest w'
    | (w', Ok Break) => (w', rest, LoopLeft)
    | (w', Throw e) => (w', rest, Uncaught e)
    end.
Proof. reflexivity. Qed.

Lemma loop_nil (w : world) : loop [] w = (requested w, [], OracleAwaited).
Proof. reflexivity. Qed.

Lemma loop_rounds (pre : list fetch_outcome) (w w' : world) :
  rounds pre w w' ->
  forall rest, loop (pre ++ rest) w = loop rest w'.
Proof.
  induction 1 as [w | reply pre w w1 w2 E _ IH]; intros rest.
  - reflexivity.
  - simpl app. rewrite loop_cons, E. apply IH.
Qed.

(** A Decision that is falsy ([null], [false], [0], the empty string) is
    taken for the [null] of a failed call: the loop is left and nothing is
    printed. *)
Lemma falsy_response_leaves_silently
      (reply : fetch_outcome) (response : value) (rest : list fetch_outcome) (w : world) :
  decode reply = Ok response ->
  truthy response = false ->
  loop (reply :: rest) w = (requested w, rest, LoopLeft).
Proof.
  intros D F. rewrite loop_cons, (iteration_ok _ _ _ D).
  unfold interpret. rewrite F. reflexivity.
Qed.

End Rounds.

(** ** Decisions that do not call a tool *)

Section Decisions.

Context `{Platform}.

(** C8.  A Decision with [step = "think"] whose content prints as [text]
    makes the loop go round again: the only change of the chat history is
    the Decision appended as a [model] turn (no Observation turn), the
    thought is printed, and neither the file system nor the requests
    change; with the next reply the loop is back at the oracle. *)
Theorem think_only_appends_decision (response : value) (text : string) (w : world) :
  field response "step" = Str "think" ->
  ToString (field response "content") = Ok text ->
  let w' := logged [step_line "think" text] (remembered [model_turn response] w) in
  interpret response w = (w', Ok Continue)
  /\ chatHistory w' = (chatHistory w ++ [model_turn response])%list
  /\ files w' = files w
  /\ requests w' = requests w
  /\ (forall reply rest, decode reply = Ok response ->
        loop (reply :: rest) w =
          loop rest (logged [step_line "think" text]
                       (remembered [model_turn response] (requested w)))).
Proof.
  intros Hstep Htext w'.
  assert (T : truthy response = true)
    by (apply (field_truthy _ _ _ Hstep); discriminate).
  assert (I : forall v, interpret response v =
                (logged [step_line "think" text] (remembered [model_turn response] v),
                 Ok Continue)).
  { intros v. unfold interpret. rewrite T. cbn [negb].
    erewrite bind_ok by apply push_history_spec.
    rewrite Hstep. cbn [is_str]. rewrite String.eqb_refl.
    erewrite bind_ok by (apply printStep_text; exact Htext).
    reflexivity. }
  repeat split; try reflexivity.
  - apply I.
  - intros reply rest D. rewrite loop_cons, (iteration_ok _ _ _ D), I. reflexivity.
Qed.

(** C9.  A truthy response whose [step] is none of ["think"], ["action"],
    ["output"] is appended to the chat history and nothing else happens:
    nothing is printed, nothing is thrown, and the loop sends the next
    request, whose history ends with that response. *)
Theorem unrecognized_step_is_skipped (response : value) (w : world) :
  truthy response = true ->
  field response "step" <> Str "think" ->
  field response "step" <> Str "action" ->
  field response "step" <> Str "output" ->
  let w' := remembered [model_turn response] w in
  interpret response w = (w', Ok Continue)
  /\ console w' = console w
  /\ files w' = files w
  /\ (forall reply, decode reply = Ok response ->
        loop [reply] w = (requested (remembered [model_turn response] (requested w)), [],
                          OracleAwaited)).
Proof.
  intros T N1 N2 N3 w'.
  assert (S : forall s, field response "step" <> Str s -> is_str s (field response "step") = false).
  { intros s N. destruct (field response "step"); try reflexivity.
    simpl. apply String.eqb_neq. congruence. }
  assert (I : forall v, interpret response v = (remembered [model_turn response] v, Ok Continue)).
  { intros v. unfold interpret. rewrite T. cbn [negb].
    erewrite bind_ok by apply push_history_spec.
    rewrite (S _ N1), (S _ N2), (S _ N3). reflexivity. }
  repeat split; try reflexivity.
  - apply I.
  - intros reply D. rewrite loop_cons, (iteration_ok _ _ _ D), I. apply loop_nil.
Qed.

(** C5.  After any rounds [pre] that left the loop running, a Decision
    with [step = "output"] ends the loop there: its content is printed as
    the final answer, the one request of this round is the last one sent,
    and the replies that follow are not consumed. *)
Theorem output_ends_loop_once
        (pre : list fetch_outcome) (reply : fetch_outcome) (rest : list fetch_outcome)
        (response : value) (text : string) (w w1 : world) :
  rounds pre w w1 ->
  decode reply = Ok response ->
  field response "step" = Str "output" ->
  ToString (field response "content") = Ok text ->
  let w' := logged [step_line "output" text]
              (remembered [model_turn response] (requested w1)) in
  loop (pre ++ reply :: rest) w = (w', rest, LoopLeft)
  /\ console w' = (console w1 ++ [step_line "output" text])%list
  /\ requests w' = (requests w1 ++ [JSON_stringify (payload (chatHistory w1))])%list
  /\ files w' = files w1.
Proof.
  intros R D Hstep Htext w'.
  assert (T : truthy response = true)
    by (apply (field_truthy _ _ _ Hstep); discriminate).
  repeat split; try reflexivity.
  rewrite (loop_rounds _ _ _ R), loop_cons, (iteration_ok _ _ _ D).
  unfold interpret. rewrite T. cbn [negb].
  erewrite bind_ok by apply push_history_spec.
  rewrite Hstep. cbn [is_str]. cbn [String.eqb Ascii.eqb Bool.eqb].
  erewrite bind_ok by (apply printStep_text; exact Htext).
  reflexivity.
Qed.

End Decisions.

(** ** Decisions that call a tool *)

Section Actions.

Context `{Platform}.

(** An [action] round: the tool is announced, it runs, its result is
    printed and pushed as an Observation, and the loop goes round again. *)
Lemma interpret_action (response result : value) (t r : string) (w w2 : world) :
  field response "step" = Str "action" ->
  ToString (field response "tool") = Ok t ->
  observation (field response "tool") (field response "input") (announced response t w)
    = (w2, Ok result) ->
  ToString result = Ok r ->
  interpret response w = (observed result r w2, Ok Continue).
Proof.
  intros Hstep Htool Hobs Hres.
  assert (T : truthy response = true)
    by (apply (field_truthy _ _ _ Hstep); discriminate).
  unfold interpret. rewrite T. cbn [negb].
  erewrite bind_ok by apply push_history_spec.
  rewrite Hstep. cbn [is_str]. cbn [String.eqb Ascii.eqb Bool.eqb].
  erewrite bind_ok by (unfold lift; rewrite Htool; reflexivity).
  erewrite bind_ok by (unfold lift; rewrite ToString_JSON_stringify; reflexivity).
  erewrite bind_ok by (apply printStep_text; reflexivity).
  erewrite bind_ok by (exact Hobs).
  erewrite bind_ok by (unfold lift; rewrite Hres; reflexivity).
  erewrite bind_ok by (apply printStep_text; reflexivity).
  erewrite bind_ok by apply push_history_spec.
  reflexivity.
Qed.



End Actions.

(** ** The oracle client *)

Section Oracle.

Context `{Platform}.

Lemma decode_transport_error (m : string) :
  decode (FetchRejects m) = Throw (ForeignError m).
Proof. reflexivity. Qed.

Lemma decode_bad_status (r : response) :
  ok r = false -> exists e, decode (FetchResolves r) = Throw e.
Proof.
  intros E. unfold decode. rewrite E. cbn [negb].
  destruct (response_text r) as [t | e]; cbn; eauto.
Qed.

Lemma decode_candidate (r : response) (t : string) :
  ok r = true ->
  response_json r = Ok (candidate_body t) ->
  decode (FetchResolves r) = JSON_parse (clean t).
Proof.
  intros E J. unfold decode. rewrite E, J. cbn [negb]. reflexivity.
Qed.

Lemma decode_blocked (r : response) (reason : string) :
  ok r = true ->
  response_json r = Ok (blocked_body reason) ->
  decode (FetchResolves r)
    = Throw (SourceError ("API blocked the prompt. Reason: " +:+ reason)).
Proof.
  intros E J. unfold decode. rewrite E, J. reflexivity.
Qed.

Lemma decode_unreadable_body (r : response) (e : js_error) :
  ok r = true ->
  response_json r = Throw e ->
  decode (FetchResolves r) = Throw e.
Proof.
  intros E J. unfold decode. rewrite E, J. reflexivity.
Qed.

(** C4.  Whatever makes the oracle client fail (the request rejected, a
    status that is not a success, a blocked prompt, a text that does not
    parse: [decode] throws), the loop of the query ends without throwing:
    the failure is printed as an [error] line, the chat history and the
    file system are as they were, [runConversation] goes on to the prompt
    of [start], and a query typed there is taken: the history is seeded
    with it and a request is sent for it. *)
Theorem oracle_failure_ends_query
        (reply : fetch_outcome) (e : js_error) (rest : list fetch_outcome) (w : world) :
  decode reply = Throw e ->
  let line := step_line "error"
                ("Error calling Gemini API or parsing response: " +:+ message e) in
  let failed (v : world) := logged [line] (requested v) in
  loop (reply :: rest) w = (failed w, rest, LoopLeft)
  /\ chatHistory (failed w) = chatHistory w
  /\ files (failed w) = files w
  /\ (forall stdin,
        runConversation stdin (reply :: rest) w
        = start stdin rest (failed (logged [Log "Agent is processing..."] w)))
  /\ (forall userQuery,
        toLowerCase userQuery <> "exit" ->
        runConversation [userQuery] [reply] w
        = (requested
             (logged [Log "Agent is processing..."]
                (reseeded (seed userQuery)
                   (logged [Ask question]
                      (failed (logged [Log "Agent is processing..."] w))))),
           [], ReplyAwaited)).
Proof.
  intros D line failed.
  assert (L : forall v tail, loop (reply :: tail) v = (failed v, tail, LoopLeft)).
  { intros v tail. rewrite loop_cons. unfold iteration.
    erewrite bind_ok by (apply callGemini_failure; exact D).
    reflexivity. }
  repeat split.
  - apply L.
  - intros stdin. unfold runConversation, conversation.
    cbn [write_console]. fold (logged [Log "Agent is processing..."] w).
    now rewrite L.
  - intros userQuery N. unfold runConversation, conversation.
    cbn [write_console]. fold (logged [Log "Agent is processing..."] w).
    rewrite L. cbn [start].
    apply String.eqb_neq in N. rewrite N.
    reflexivity.
Qed.

End Oracle.

(** ** The markdown fence *)

Section Fence.

Context `{Platform}.

Lemma append_cons (c : ascii) (s t : string) : String c s +:+ t = String c (s +:+ t).
Proof. reflexivity. Qed.

Lemma eqb_length (s t : string) :
  String.length s <> String.length t -> String.eqb s t = false.
Proof.
  intros N. apply String.eqb_neq. intros E. apply N. now rewrite E.
Qed.

Lemma length_append (s t : string) :
  String.length (s +:+ t) = (String.length s + String.length t)%nat.
Proof.
  induction s as [| c s IH]; [reflexivity |].
  rewrite append_cons. cbn [String.length]. now rewrite IH.
Qed.

(** The closing fence goes, whatever stands before it. *)
Lemma strip_close_fence (d : string) : strip_close (d +:+ lf +:+ "```") = d.
Proof.
  induction d as [| c d IH].
  - reflexivity.
  - rewrite append_cons. cbn [strip_close].
    rewrite !eqb_length; cbn [orb].
    + f_equal. exact IH.
    + cbn [String.length]. rewrite length_append. simpl. lia.
    + cbn [String.length]. rewrite length_append. simpl. lia.
Qed.

Lemma strip_open_fence (s : string) : strip_open ("```json" +:+ lf +:+ s) = s.
Proof. reflexivity. Qed.

Lemma clean_fenced (d : string) : clean (fenced d) = d.
Proof.
  unfold clean, fenced. rewrite strip_open_fence. apply strip_close_fence.
Qed.

(** A text that does not end in a backtick has no closing fence. *)
Lemma strip_close_no_tick (s : string) : ends_with "`" s = false -> strip_close s = s.
Proof.
  induction s as [| c s IH]; intros L.
  - reflexivity.
  - cbn [strip_close].
    destruct (String.eqb (String c s) (lf +:+ "```")) eqn:E1.
    { apply String.eqb_eq in E1. rewrite E1 in L. discriminate. }
    destruct (String.eqb (String c s) "```") eqn:E2.
    { apply String.eqb_eq in E2. rewrite E2 in L. discriminate. }
    cbn [orb]. f_equal. apply IH.
    destruct s; [reflexivity | exact L].
Qed.

Lemma ends_with_append (x : ascii) (s t : string) :
  t <> EmptyString -> ends_with x (s +:+ t) = ends_with x t.
Proof.
  intros N. induction s as [| c s IH].
  - reflexivity.
  - rewrite append_cons. cbn [ends_with]. rewrite IH.
    destruct (s +:+ t) eqn:E; [| reflexivity].
    destruct s; [contradiction | discriminate].
Qed.

Lemma ends_with_tick_blank (c : ascii) (post : string) :
  Ascii.eqb c "`" = false -> blank post = true -> ends_with "`" (String c post) = false.
Proof.
  revert c. induction post as [| x post IH]; intros c N B.
  - exact N.
  - cbn [blank] in B. apply andb_prop in B as [Bx B].
    change (ends_with "`" (String c (String x post))) with (ends_with "`" (String x post)).
    apply IH; [| exact B].
    destruct (Ascii.eqb x "`") eqn:E; [| reflexivity].
    apply Ascii.eqb_eq in E. subst x. discriminate.
Qed.

Lemma object_shaped_no_tick (d : string) : object_shaped d -> ends_with "`" d = false.
Proof.
  intros (pre & body & post & -> & _ & B).
  rewrite ends_with_append by discriminate.
  rewrite (ends_with_append _ "{") by (destruct body; discriminate).
  rewrite ends_with_append by discriminate.
  now apply ends_with_tick_blank.
Qed.

(** The closing fence goes without its line feed when the text before it
    does not end in one. *)
Lemma strip_close_tight (d : string) :
  ends_with (chr 10) d = false -> strip_close (d +:+ "```") = d.
Proof.
  induction d as [| c d IH]; intros L.
  - reflexivity.
  - rewrite append_cons. cbn [strip_close].
    assert (E1 : String.eqb (String c (d +:+ "```")) (lf +:+ "```") = false).
    { apply String.eqb_neq. intros E. injection E as Ec Ed.
      destruct d as [| x d]; [| apply (f_equal String.length) in Ed;
                                 rewrite append_cons in Ed; cbn [String.length] in Ed;
                                 rewrite length_append in Ed; simpl in Ed; lia].
      subst c. discriminate L. }
    rewrite E1, eqb_length; cbn [orb].
    + f_equal. apply IH. destruct d; [reflexivity | exact L].
    + cbn [String.length]. rewrite length_append. simpl. lia.
Qed.

Lemma clean_fenced_tight (body : string) :
  clean (fenced_tight ("{" +:+ body +:+ "}")) = "{" +:+ body +:+ "}".
Proof.
  unfold clean, fenced_tight.
  change (strip_open ("```json" +:+ ("{" +:+ body +:+ "}") +:+ "```"))
    with (("{" +:+ body +:+ "}") +:+ "```").
  apply strip_close_tight.
  rewrite (ends_with_append _ "{") by (destruct body; discriminate).
  now rewrite ends_with_append by discriminate.
Qed.

Lemma object_shaped_no_open (d : string) : object_shaped d -> strip_open d = d.
Proof.
  intros (pre & body & post & -> & B & _).
  destruct pre as [| c pre].
  - reflexivity.
  - cbn [blank] in B. apply andb_prop in B as [Bc _].
    unfold strip_open. rewrite append_cons. cbn [strip_prefix].
    destruct (Ascii.eqb "`" c) eqn:E; [| reflexivity].
    apply Ascii.eqb_eq in E. subst c. discriminate.
Qed.

Lemma clean_object (d : string) : object_shaped d -> clean d = d.
Proof.
  intros S. unfold clean. rewrite (object_shaped_no_open _ S).
  apply strip_close_no_tick. now apply object_shaped_no_tick.
Qed.

(** C7.  For a text [d] with the shape of one JSON object, the oracle
    client parses the same text whether the oracle sent [d] or [d] inside
    a markdown fence: the fence is stripped before [JSON.parse], so both
    answers decode to [JSON.parse(d)].  A fence without line feeds around
    a text from brace to brace is stripped as well. *)
Theorem fence_stripped_before_parse (d : string) :
  object_shaped d ->
  cleanedText (Str (fenced d)) = Ok d
  /\ cleanedText (Str d) = Ok d
  /\ (forall plain wrapped : response,
        ok plain = true -> response_json plain = Ok (candidate_body d) ->
        ok wrapped = true -> response_json wrapped = Ok (candidate_body (fenced d)) ->
        decode (FetchResolves wrapped) = decode (FetchResolves plain)
        /\ decode (FetchResolves plain) = JSON_parse d)
  /\ (forall body, d = "{" +:+ body +:+ "}" -> cleanedText (Str (fenced_tight d)) = Ok d).
Proof.
  intros S. unfold cleanedText. rewrite clean_fenced, (clean_object _ S).
  split; [reflexivity | split; [reflexivity | split]].
  - intros plain wrapped Op Jp Ow Jw.
    rewrite (decode_candidate _ _ Ow Jw), (decode_candidate _ _ Op Jp).
    now rewrite clean_fenced, (clean_object _ S).
  - intros body ->. now rewrite clean_fenced_tight.
Qed.

End Fence.

(** ** Start-up *)

Section Startup.

Context `{Platform}.

(** C6 (on the code).  The key is the constant ["api key"] of the source,
    not a variable of the process environment: whatever the environment
    holds, and when it holds nothing, the check passes, nothing is
    printed, the process does not exit and goes on to the first prompt. *)
Theorem key_check_ignores_environment
        (env : gmap string string) (stdin : list string)
        (oracle : list fetch_outcome) (w : world) :
  configuration env w = (w, Ok Proceeds)
  /\ API_URL = Ok ("https://generativelanguage.googleapis.com/v1beta/models/gemini-2.0-flash:generateContent?key=api key")
  /\ main env stdin oracle w
     = inl (start stdin oracle (logged [Log "--- Gemini AI Agent (Terminal) ---"] w))
  /\ main (∅ : gmap string string) [] [] w
     = inl (logged [Ask question] (logged [Log "--- Gemini AI Agent (Terminal) ---"] w),
            [], QueryAwaited).
Proof.
  repeat split; reflexivity.
Qed.

End Startup.

(** ** The tool [addTwoNumbers] *)

Section Addition.

Context `{Platform}.

Lemma split_on_cons (sep c : ascii) (s : string) :
  split_on sep (String c s) =
    if Ascii.eqb c sep then EmptyString :: split_on sep s
    else match split_on sep s with
         | h :: t => String c h :: t
         | [] => [str1 c]
         end.
Proof. reflexivity. Qed.

(** The first piece ends at the first separator. *)
Lemma split_on_append (sep : ascii) (a r : string) :
  has_char sep a = false ->
  split_on sep (a +:+ String sep r) = a :: split_on sep r.
Proof.
  induction a as [| c a IH]; intros N.
  - change (EmptyString +:+ String sep r) with (String sep r).
    rewrite split_on_cons. now rewrite Ascii.eqb_refl.
  - cbn [has_char] in N. apply orb_false_elim in N as [Nc Na].
    change (String c a +:+ String sep r) with (String c (a +:+ String sep r)).
    rewrite split_on_cons, Nc, (IH Na). reflexivity.
Qed.

Lemma split_on_whole (sep : ascii) (a : string) :
  has_char sep a = false -> split_on sep a = [a].
Proof.
  induction a as [| c a IH]; intros N.
  - reflexivity.
  - cbn [has_char] in N. apply orb_false_elim in N as [Nc Na].
    rewrite split_on_cons, Nc, (IH Na). reflexivity.
Qed.

Lemma split_comma_pair (a b : string) :
  has_char "," a = false -> has_char "," b = false ->
  split_on "," (a +:+ "," +:+ b) = [a; b].
Proof.
  intros Na Nb.
  change (a +:+ "," +:+ b) with (a +:+ String "," b).
  now rewrite (split_on_append _ _ _ Na), (split_on_whole _ _ Nb).
Qed.

Lemma add_numbers_pieces (s : string) :
  add_numbers (Str s) = pair_sum (split_on "," s).
Proof.
  unfold add_numbers. cbn [ToString mbind result_bind].
  destruct (split_on "," s) as [| a [| b rest]]; try reflexivity.
  - cbn [List.map List.nth isNaN ToNumber mbind result_bind or_else].
    destruct (is_nan (StringToNumber a)); reflexivity.
  - cbn [List.map List.nth isNaN ToNumber mbind result_bind or_else pair_sum].
    destruct (is_nan (StringToNumber a)); cbn [orb]; [reflexivity |].
    destruct (is_nan (StringToNumber b)); reflexivity.
Qed.

Lemma observation_add (input : value) (w : world) :
  observation (Str "addTwoNumbers") input w =
    (w, Ok match add_numbers input with
           | Ok v => v
           | Throw e => Str ("Error executing tool: " +:+ message e)
           end).
Proof.
  unfold observation. cbn [is_str]. rewrite String.eqb_refl.
  unfold executing, try_catch, lift.
  destruct (add_numbers input); reflexivity.
Qed.


(** C10.  An empty operand does not make the input invalid: [Number("")]
    is 0, so [a,] is answered as [a,0] and [,b] as [0,b] (the sum with 0
    when the other operand is a number); and what follows a second comma
    is ignored.  ["5,"] gives 5 and ["1,2,3"] gives 3. *)
Theorem empty_operand_is_zero (a b extra : string) (w : world) :
  has_char "," a = false ->
  has_char "," b = false ->
  let answer (s : string) := observation (Str "addTwoNumbers") (Str s) w in
  StringToNumber EmptyString = pos_zero
  /\ answer (a +:+ ",") = answer (a +:+ ",0")
  /\ answer ("," +:+ b) = answer ("0," +:+ b)
  /\ (is_nan (StringToNumber a) = false ->
      answer (a +:+ ",") = (w, Ok (Num (add (StringToNumber a) pos_zero))))
  /\ (is_nan (StringToNumber b) = false ->
      answer ("," +:+ b) = (w, Ok (Num (add pos_zero (StringToNumber b)))))
  /\ answer (a +:+ "," +:+ b +:+ "," +:+ extra) = answer (a +:+ "," +:+ b)
  /\ answer "5," = (w, Ok (Num (of_Z 5)))
  /\ answer ",5" = (w, Ok (Num (of_Z 5)))
  /\ answer "1,2,3" = (w, Ok (Num (of_Z 3))).
Proof.
  intros Na Nb answer. unfold answer.
  rewrite !observation_add, !add_numbers_pieces.
  assert (E1 : split_on "," (a +:+ ",") = [a; EmptyString])
    by (apply (split_comma_pair a EmptyString); auto).
  assert (E2 : split_on "," (a +:+ ",0") = [a; "0"])
    by (apply (split_comma_pair a "0"); auto).
  assert (E3 : split_on "," ("," +:+ b) = [EmptyString; b])
    by (apply (split_comma_pair EmptyString b); auto).
  assert (E4 : split_on "," ("0," +:+ b) = ["0"; b])
    by (apply (split_comma_pair "0" b); auto).
  assert (E5 : split_on "," (a +:+ "," +:+ b +:+ "," +:+ extra)
               = a :: b :: split_on "," extra).
  { change (a +:+ "," +:+ b +:+ "," +:+ extra)
      with (a +:+ String "," (b +:+ String "," extra)).
    now rewrite (split_on_append _ _ _ Na), (split_on_append _ _ _ Nb). }
  rewrite E1, E2, E3, E4, E5, (split_comma_pair _ _ Na Nb).
  split; [reflexivity |].
  split; [reflexivity |].
  split; [reflexivity |].
  split.
  { intros E. unfold pair_sum. rewrite E. reflexivity. }
  split.
  { intros E. unfold pair_sum. rewrite E. reflexivity. }
  split; [reflexivity |].
  repeat split; vm_compute; reflexivity.
Qed.

End Addition.

(** ** The tool [writeFile] *)

Section Paths.

Lemma chars_append (a b : string) : chars (a +:+ b) = (chars a ++ chars b)%list.
Proof.
  induction a as [| c a IH]; [reflexivity |].
  change (String c a +:+ b) with (String c (a +:+ b)).
  unfold chars in *. cbn [list_ascii_of_string]. now rewrite IH.
Qed.

Lemma of_chars_chars (s : string) : of_chars (chars s) = s.
Proof. apply string_of_list_ascii_of_string. Qed.

Lemma chars_nil (s : string) : chars s = [] -> s = EmptyString.
Proof. destruct s; [reflexivity | discriminate]. Qed.

Lemma no_slash_chars (n : string) :
  has_char "/" n = false ->
  forallb (fun c => negb (Path.is_slash c)) (chars n) = true.
Proof.
  induction n as [| c n IH]; intros N; [reflexivity |].
  cbn [has_char] in N. apply orb_false_elim in N as [Nc Nn].
  unfold chars in *. cbn [list_ascii_of_string forallb].
  unfold Path.is_slash at 1. rewrite Nc. cbn [negb andb]. now apply IH.
Qed.

Lemma forallb_rev {A : Type} (f : A -> bool) (l : list A) :
  forallb f (List.rev l) = forallb f l.
Proof.
  induction l as [| x l IH]; [reflexivity |].
  cbn [List.rev forallb]. rewrite forallb_app, IH. cbn [forallb].
  rewrite andb_true_r. apply andb_comm.
Qed.

Lemma drop_while_all (f : ascii -> bool) (l rest : list ascii) :
  forallb f l = true -> Path.drop_while f (l ++ rest) = Path.drop_while f rest.
Proof.
  induction l as [| c l IH]; intros F; [reflexivity |].
  cbn [forallb] in F. apply andb_prop in F as [Fc Fl].
  cbn [app Path.drop_while]. rewrite Fc. now apply IH.
Qed.

Lemma drop_while_head (f : ascii -> bool) (l rest : list ascii) :
  forallb (fun c => negb (f c)) l = true -> l <> [] ->
  Path.drop_while f (l ++ rest) = (l ++ rest)%list.
Proof.
  destruct l as [| c l]; intros F N; [contradiction |].
  cbn [forallb] in F. apply andb_prop in F as [Fc _].
  cbn [app Path.drop_while]. apply negb_true_iff in Fc. now rewrite Fc.
Qed.

(** [path.dirname] of a name alone is [.]. *)
Lemma dirname_name (n : string) :
  n <> EmptyString -> has_char "/" n = false -> Path.dirname n = ".".
Proof.
  intros NE N. destruct n as [| c0 rest]; [contradiction |].
  cbn [has_char] in N. apply orb_false_elim in N as [Nc Nr].
  unfold Path.dirname.
  assert (B : forallb (fun c => negb (Path.is_slash c)) (List.rev (chars rest)) = true)
    by (rewrite forallb_rev; now apply no_slash_chars).
  assert (E : Path.drop_while Path.is_slash (List.rev (chars rest)) = List.rev (chars rest)).
  { destruct (List.rev (chars rest)) as [| x l] eqn:E; [reflexivity |].
    rewrite <- (app_nil_r (x :: l)). apply drop_while_head; [exact B | discriminate]. }
  rewrite E.
  rewrite <- (app_nil_r (List.rev (chars rest))), (drop_while_all _ _ [] B).
  cbn [Path.drop_while]. unfold Path.is_slash. now rewrite Nc.
Qed.

(** [path.dirname] of a directory path, a slash and a name is the
    directory path. *)
Lemma dirname_join (d n : string) :
  relative d = true -> n <> EmptyString -> has_char "/" n = false ->
  Path.dirname (d +:+ "/" +:+ n) = d.
Proof.
  intros R NE N. destruct d as [| c0 d']; [discriminate |].
  cbn [relative] in R. apply negb_true_iff in R.
  change (String c0 d' +:+ "/" +:+ n) with (String c0 (d' +:+ String "/" n)).
  unfold Path.dirname. rewrite R.
  rewrite chars_append.
  change (chars (String "/" n)) with ("/"%char :: chars n).
  rewrite rev_app_distr. cbn [List.rev]. rewrite <- app_assoc. cbn [app].
  assert (B : forallb (fun c => negb (Path.is_slash c)) (List.rev (chars n)) = true)
    by (rewrite forallb_rev; now apply no_slash_chars).
  assert (NB : List.rev (chars n) <> []).
  { intros E. apply NE, chars_nil.
    rewrite <- (rev_involutive (chars n)), E. reflexivity. }
  rewrite (drop_while_head Path.is_slash _ _ B NB).
  rewrite (drop_while_all _ _ _ B). cbn [Path.drop_while].
  change (Path.is_slash "/") with true. cbn [negb].
  destruct (List.rev (chars d')) as [| x l] eqn:E.
  - assert (d' = EmptyString) as ->.
    { apply chars_nil. rewrite <- (rev_involutive (chars d')), E. reflexivity. }
    reflexivity.
  - rewrite <- E, rev_involutive, of_chars_chars. reflexivity.
Qed.

End Paths.

Section Names.

Lemma plain_name_inv (n : string) :
  plain_name n = true ->
  n <> EmptyString /\ has_char "/" n = false /\ Fs.is_dot n = false
  /\ Fs.is_dotdot n = false /\ has_char (chr 0) n = false.
Proof.
  unfold plain_name, Fs.is_dot, Fs.is_dotdot. intros P.
  repeat (apply andb_prop in P as [P ?]).
  repeat match goal with
         | X : negb _ = true |- _ => apply negb_true_iff in X
         end.
  repeat split; auto.
  - intros ->. discriminate.
  - rewrite P. assumption.
Qed.

Lemma has_char_append (x : ascii) (a b : string) :
  has_char x (a +:+ b) = has_char x a || has_char x b.
Proof.
  induction a as [| c a IH]; [reflexivity |].
  change (String c a +:+ b) with (String c (a +:+ b)).
  cbn [has_char]. rewrite IH. apply orb_assoc.
Qed.

Lemma join_cons (sep n m : string) (r : list string) :
  join sep (n :: m :: r) = n +:+ sep +:+ join sep (m :: r).
Proof. reflexivity. Qed.

Lemma join_snoc (dirs : list string) (name : string) :
  dirs <> [] ->
  join "/" (dirs ++ [name]) = join "/" dirs +:+ "/" +:+ name.
Proof.
  induction dirs as [| d dirs IH]; intros N; [contradiction |].
  destruct dirs as [| d' dirs].
  - reflexivity.
  - change ((d :: d' :: dirs) ++ [name])%list with (d :: (d' :: dirs) ++ [name])%list.
    cbn [app]. rewrite !join_cons.
    change (d' :: (dirs ++ [name])%list) with ((d' :: dirs) ++ [name])%list.
    rewrite IH by discriminate.
    generalize (join "/" (d' :: dirs)). intros j.
    induction d as [| c d IHd]; [reflexivity |].
    change (String c d +:+ "/" +:+ j +:+ "/" +:+ name)
      with (String c (d +:+ "/" +:+ j +:+ "/" +:+ name)).
    change ((String c d +:+ "/" +:+ j) +:+ "/" +:+ name)
      with (String c ((d +:+ "/" +:+ j) +:+ "/" +:+ name)).
    now rewrite IHd.
Qed.

Lemma relative_append (a b : string) : relative a = true -> relative (a +:+ b) = true.
Proof. destruct a; [discriminate | intros R; exact R]. Qed.

Lemma plain_relative (n : string) : plain_name n = true -> relative n = true.
Proof.
  intros P. apply plain_name_inv in P as (NE & NS & _).
  destruct n as [| c n]; [contradiction |].
  cbn [has_char] in NS. apply orb_false_elim in NS as [Nc _].
  cbn [relative]. unfold Path.is_slash. now rewrite Nc.
Qed.

Lemma join_relative (names : list string) :
  names <> [] -> Forall (fun n => plain_name n = true) names ->
  relative (join "/" names) = true.
Proof.
  intros N F. destruct names as [| n [| m r]]; [contradiction | |].
  - apply plain_relative. now inversion F.
  - rewrite join_cons. apply relative_append, plain_relative. now inversion F.
Qed.

Lemma relative_not_root (p : string) : relative p = true -> is_char "/" p = false.
Proof.
  destruct p as [| c p]; [reflexivity |]. cbn [relative is_char].
  unfold Path.is_slash. rewrite Ascii.eqb_sym. now intros ->%negb_true_iff.
Qed.

Lemma relative_not_empty (p : string) : relative p = true -> String.eqb p EmptyString = false.
Proof. destruct p; [discriminate | reflexivity]. Qed.

(** Splitting the joined names gives the names back. *)
Lemma split_join (names : list string) :
  names <> [] -> Forall (fun n => plain_name n = true) names ->
  split_on "/" (join "/" names) = names.
Proof.
  induction names as [| n names IH]; intros N F; [contradiction |].
  inversion F as [| ? ? Pn Fr]; subst.
  apply plain_name_inv in Pn as (_ & NS & _).
  destruct names as [| m r].
  - now apply split_on_whole.
  - rewrite join_cons.
    change (n +:+ "/" +:+ join "/" (m :: r)) with (n +:+ String "/" (join "/" (m :: r))).
    rewrite (split_on_append _ _ _ NS). f_equal. apply IH; [discriminate | exact Fr].
Qed.

Lemma join_no_nul (names : list string) :
  Forall (fun n => plain_name n = true) names ->
  Fs.has_nul (join "/" names) = false.
Proof.
  unfold Fs.has_nul.
  induction names as [| n names IH]; intros F; [reflexivity |].
  inversion F as [| ? ? Pn Fr]; subst.
  apply plain_name_inv in Pn as (_ & _ & _ & _ & NN).
  destruct names as [| m r]; [exact NN |].
  rewrite join_cons, !has_char_append, NN, (IH Fr). reflexivity.
Qed.

Lemma strip_trailing_empty_plain (names : list string) :
  Forall (fun n => plain_name n = true) names ->
  Fs.strip_trailing_empty names = names.
Proof.
  induction names as [| n names IH]; intros F; [reflexivity |].
  inversion F as [| ? ? Pn Fr]; subst.
  cbn [Fs.strip_trailing_empty]. rewrite (IH Fr).
  destruct names; [| reflexivity].
  apply plain_name_inv in Pn as (NE & _).
  apply String.eqb_neq in NE. now rewrite NE.
Qed.

Lemma removelast_snoc {A : Type} (l : list A) (x : A) : List.removelast (l ++ [x]) = l.
Proof. apply removelast_last. Qed.

Lemma last_snoc {A : Type} (l : list A) (x d : A) : List.last (l ++ [x]) d = x.
Proof. apply last_last. Qed.

End Names.

Section Directories.

Implicit Types (m : gmap (list string) Fs.node) (base dirs p q : list string).

Lemma snoc_not_nil {A : Type} (l : list A) (x : A) : (l ++ [x])%list <> [].
Proof. destruct l; discriminate. Qed.

Lemma node_at_lookup m p : p <> [] -> Fs.node_at m p = m !! p.
Proof. destruct p; [contradiction | reflexivity]. Qed.

Lemma node_at_insert_eq m q (x : Fs.node) :
  q <> [] -> Fs.node_at (<[q := x]> m) q = Some x.
Proof. intros N. rewrite node_at_lookup by exact N. apply lookup_insert_eq. Qed.

Lemma node_at_insert_ne m p q (x : Fs.node) :
  p <> q -> Fs.node_at (<[q := x]> m) p = Fs.node_at m p.
Proof.
  intros N. destruct p as [| a p]; [reflexivity |].
  cbn [Fs.node_at]. apply lookup_insert_ne. congruence.
Qed.

(** Making a directory keeps the directories there are. *)
Lemma node_at_insert_dir m p q :
  q <> [] -> Fs.node_at m p = Some Fs.Dir -> Fs.node_at (<[q := Fs.Dir]> m) p = Some Fs.Dir.
Proof.
  intros N D. destruct (decide (p = q)) as [-> | Npq].
  - now apply node_at_insert_eq.
  - now rewrite node_at_insert_ne.
Qed.

Lemma ancestors_length base dirs p :
  In p (ancestors base dirs) ->
  (List.length p <= List.length base + List.length dirs)%nat.
Proof.
  revert base. induction dirs as [| d dirs IH]; intros base I; [contradiction |].
  destruct I as [<- | I].
  - rewrite length_app. simpl. lia.
  - apply IH in I. rewrite length_app in I. simpl in *. lia.
Qed.

Lemma made_cons m base (d : string) dirs :
  made m base (d :: dirs) = made (<[(base ++ [d])%list := Fs.Dir]> m) (base ++ [d])%list dirs.
Proof. reflexivity. Qed.

(** A path off the way is as it was. *)
Lemma made_other m base dirs p :
  ~ In p (ancestors base dirs) -> Fs.node_at (made m base dirs) p = Fs.node_at m p.
Proof.
  revert m base. induction dirs as [| d dirs IH]; intros m base N; [reflexivity |].
  rewrite made_cons, IH.
  - apply node_at_insert_ne. intros ->. apply N. now left.
  - intros I. apply N. now right.
Qed.

Lemma made_keeps_dir m base dirs p :
  Fs.node_at m p = Some Fs.Dir -> Fs.node_at (made m base dirs) p = Some Fs.Dir.
Proof.
  revert m base. induction dirs as [| d dirs IH]; intros m base D; [exact D |].
  rewrite made_cons. apply IH, node_at_insert_dir; [apply snoc_not_nil | exact D].
Qed.

(** Every directory of the way is there. *)
Lemma made_dirs m base dirs p :
  In p (ancestors base dirs) -> Fs.node_at (made m base dirs) p = Some Fs.Dir.
Proof.
  revert m base. induction dirs as [| d dirs IH]; intros m base I; [contradiction |].
  rewrite made_cons. destruct I as [<- | I].
  - apply made_keeps_dir, node_at_insert_eq, snoc_not_nil.
  - now apply IH.
Qed.

(** Where the directories all exist nothing is made. *)
Lemma made_existing m base dirs :
  forallb (fun p => is_dir (Fs.node_at m p)) (ancestors base dirs) = true ->
  made m base dirs = m.
Proof.
  revert m base. induction dirs as [| d dirs IH]; intros m base F; [reflexivity |].
  cbn [ancestors forallb] in F. apply andb_prop in F as [Fd Fr].
  rewrite made_cons.
  assert (E : <[(base ++ [d])%list := Fs.Dir]> m = m).
  { apply insert_id. rewrite <- node_at_lookup by apply snoc_not_nil.
    destruct (Fs.node_at m (base ++ [d])) as [[] |]; try discriminate. reflexivity. }
  rewrite E. now apply IH.
Qed.

Lemma walk_dirs m base dirs :
  Forall (fun n => plain_name n = true) dirs ->
  forallb (fun p => is_dir (Fs.node_at m p)) (ancestors base dirs) = true ->
  Fs.walk m base dirs = inr (base ++ dirs)%list.
Proof.
  revert base. induction dirs as [| d dirs IH]; intros base P F.
  - cbn [Fs.walk]. now rewrite app_nil_r.
  - inversion P as [| ? ? Pd Pr]; subst.
    apply plain_name_inv in Pd as (_ & _ & D1 & D2 & _).
    cbn [ancestors forallb] in F. apply andb_prop in F as [Fd Fr].
    cbn [Fs.walk]. rewrite D1, D2.
    destruct (Fs.node_at m (base ++ [d])) as [[] |]; try discriminate.
    rewrite (IH _ Pr Fr), <- app_assoc. reflexivity.
Qed.

Lemma walk_inv m base dirs (cur : list string) :
  Forall (fun n => plain_name n = true) dirs ->
  Fs.walk m base dirs = inr cur ->
  cur = (base ++ dirs)%list
  /\ forallb (fun p => is_dir (Fs.node_at m p)) (ancestors base dirs) = true.
Proof.
  revert base. induction dirs as [| d dirs IH]; intros base P W.
  - cbn [Fs.walk] in W. inversion W. now rewrite app_nil_r.
  - inversion P as [| ? ? Pd Pr]; subst.
    apply plain_name_inv in Pd as (_ & _ & D1 & D2 & _).
    cbn [Fs.walk] in W. rewrite D1, D2 in W.
    cbn [ancestors forallb].
    destruct (Fs.node_at m (base ++ [d])) as [[] |]; try discriminate.
    destruct (IH _ Pr W) as [-> F]. rewrite <- app_assoc. now split.
Qed.

(** [mkdir -p] makes the way when no file stands on it. *)
Lemma make_dirs_made m base dirs :
  Forall (fun n => plain_name n = true) dirs ->
  way_clear m base dirs = true ->
  Fs.make_dirs m base dirs = (made m base dirs, None).
Proof.
  revert m base. induction dirs as [| d dirs IH]; intros m base P C; [reflexivity |].
  inversion P as [| ? ? Pd Pr]; subst.
  apply plain_name_inv in Pd as (_ & _ & D1 & D2 & _).
  unfold way_clear in C. cbn [ancestors forallb] in C. apply andb_prop in C as [Cd Cr].
  cbn [Fs.make_dirs]. rewrite D1, D2, made_cons.
  destruct (Fs.node_at m (base ++ [d])) as [[] |] eqn:E; try discriminate.
  - assert (I : <[(base ++ [d])%list := Fs.Dir]> m = m).
    { apply insert_id. now rewrite <- node_at_lookup by apply snoc_not_nil. }
    rewrite I. now apply IH.
  - apply IH; [exact Pr |].
    unfold way_clear. apply forallb_forall. intros p I.
    rewrite forallb_forall in Cr. specialize (Cr p I).
    destruct (decide (p = (base ++ [d])%list)) as [-> | N].
    + now rewrite node_at_insert_eq by apply snoc_not_nil.
    + now rewrite node_at_insert_ne.
Qed.

Lemma made_all_dirs m base dirs :
  forallb (fun p => is_dir (Fs.node_at (made m base dirs) p)) (ancestors base dirs) = true.
Proof.
  apply forallb_forall. intros p I. now rewrite (made_dirs _ _ _ _ I).
Qed.

End Directories.

Section Writing.

Context `{Platform}.

Lemma bind_ok_inv {A B : Type} (m : eff A) (k : A -> eff B) (w w' : world) (b : B) :
  (x ← m; k x) w = (w', Ok b) ->
  exists a w1, m w = (w1, Ok a) /\ k a w1 = (w', Ok b).
Proof.
  unfold mbind, eff_bind. destruct (m w) as [w1 [a | e]]; intros E.
  - now exists a, w1.
  - discriminate.
Qed.

(** [writeFile] returns a string, whatever happens in it. *)
Lemma writeFile_returns (filePath fileContent : value) (w : world) :
  exists w' s, writeFile filePath fileContent w = (w', Ok (Str s)).
Proof.
  unfold writeFile, try_catch.
  match goal with |- context [match ?body w with _ => _ end] => destruct (body w) as [w' [v | e]] eqn:E end.
  - repeat (apply bind_ok_inv in E as (? & ? & _ & E)).
    inversion E; subst. eauto.
  - eauto.
Qed.

(** The tool's failures stay inside the Observation. *)
Lemma observation_write_returns (input : value) (w : world) :
  exists w' s, observation (Str "writeFile") input w = (w', Ok (Str s)).
Proof.
  unfold observation. cbn [is_str]. cbn [String.eqb Ascii.eqb Bool.eqb].
  unfold executing, try_catch, write_file.
  match goal with |- context [if ?c then _ else _] => destruct c end.
  - cbn. eauto.
  - destruct (writeFile_returns (field input "filePath") (field input "fileContent") w)
      as (w' & s & E).
    rewrite E. eauto.
Qed.

Lemma dirname_of_names (dirs : list string) (name : string) :
  Forall (fun n => plain_name n = true) (dirs ++ [name]) ->
  Path.dirname (join "/" (dirs ++ [name])) = dir_path dirs.
Proof.
  intros P. apply Forall_app in P as [Pd Pn].
  inversion Pn as [| ? ? Pname _]; subst.
  apply plain_name_inv in Pname as (NE & NS & _).
  destruct dirs as [| d dirs].
  - now apply dirname_name.
  - rewrite join_snoc by discriminate.
    apply dirname_join; auto. apply join_relative; [discriminate | exact Pd].
Qed.

Lemma ancestors_snoc (base dirs : list string) (d : string) :
  ancestors base (dirs ++ [d]) = (ancestors base dirs ++ [(base ++ dirs ++ [d])%list])%list.
Proof.
  revert base. induction dirs as [| x dirs IH]; intros base; [reflexivity |].
  cbn [app ancestors]. rewrite IH, <- app_assoc. reflexivity.
Qed.

(** Where the directory of the way exists and no file stands on the way,
    the whole way is made of directories. *)
Lemma existsSync_dirs (fs : Fs.filesystem) (dirs : list string) :
  dirs <> [] ->
  Forall (fun n => plain_name n = true) dirs ->
  way_clear (Fs.nodes fs) (Fs.cwd fs) dirs = true ->
  Fs.existsSync fs (join "/" dirs) = true ->
  forallb (fun p => is_dir (Fs.node_at (Fs.nodes fs) p)) (ancestors (Fs.cwd fs) dirs) = true.
Proof.
  intros N P C E.
  assert (R : relative (join "/" dirs) = true) by now apply join_relative.
  unfold Fs.existsSync, Fs.locate, Fs.start_dir in E.
  rewrite (join_no_nul _ P), (relative_not_empty _ R), (relative_not_root _ R) in E.
  rewrite (split_join _ N P), (strip_trailing_empty_plain _ P) in E.
  destruct (exists_last N) as (ds & l & ->).
  rewrite removelast_snoc, last_snoc in E.
  apply Forall_app in P as [Pds Pl]. inversion Pl as [| ? ? Plast _]; subst.
  apply plain_name_inv in Plast as (_ & _ & D1 & D2 & _).
  destruct (Fs.walk (Fs.nodes fs) (Fs.cwd fs) ds) as [e | cur] eqn:W; [discriminate |].
  apply (walk_inv _ _ _ _ Pds) in W as [-> A].
  rewrite D1, D2 in E.
  unfold way_clear in C. rewrite ancestors_snoc, forallb_app in *.
  apply andb_prop in C as [_ Cl]. cbn [forallb] in Cl.
  rewrite A. cbn [forallb andb].
  rewrite <- app_assoc in E.
  destruct (Fs.node_at (Fs.nodes fs) (Fs.cwd fs ++ ds ++ [l])) as [[] |];
    try discriminate; reflexivity.
Qed.

(** [if (!fs.existsSync(dirname)) fs.mkdirSync(dirname, { recursive: true })]
    leaves the way made. *)
Lemma directories_ensured (dirs : list string) (w : world) :
  Forall (fun n => plain_name n = true) dirs ->
  Fs.node_at (Fs.nodes (files w)) (Fs.cwd (files w)) = Some Fs.Dir ->
  way_clear (Fs.nodes (files w)) (Fs.cwd (files w)) dirs = true ->
  (if negb (Fs.existsSync (files w) (dir_path dirs))
   then on_files (fun fs => Fs.mkdirSync_recursive fs (dir_path dirs)) w
   else (w, Ok tt))
  = (stored {| Fs.cwd := Fs.cwd (files w);
               Fs.nodes := made (Fs.nodes (files w)) (Fs.cwd (files w)) dirs |} w, Ok tt).
Proof.
  intros P D C. destruct w as [h fs c r]. cbn [files] in *.
  destruct dirs as [| d dirs].
  - cbn [dir_path]. unfold Fs.existsSync, Fs.locate.
    cbn. rewrite D. cbn. destruct fs; reflexivity.
  - assert (N : d :: dirs <> []) by discriminate.
    assert (R : relative (join "/" (d :: dirs)) = true) by now apply join_relative.
    change (dir_path (d :: dirs)) with (join "/" (d :: dirs)).
    destruct (Fs.existsSync fs (join "/" (d :: dirs))) eqn:E; cbn [negb].
    + rewrite (made_existing _ _ _ (existsSync_dirs _ _ N P C E)).
      destruct fs; reflexivity.
    + unfold on_files, Fs.mkdirSync_recursive, Fs.start_dir. cbn [files].
      rewrite (join_no_nul _ P), (relative_not_empty _ R), (relative_not_root _ R).
      rewrite (split_join _ N P), (make_dirs_made _ _ _ P C).
      reflexivity.
Qed.

(** [fs.writeFileSync(path, content)] where the way is made of
    directories and the path itself is not one. *)
Lemma writeFileSync_names (fs : Fs.filesystem) (dirs : list string) (name content : string) :
  Forall (fun n => plain_name n = true) (dirs ++ [name]) ->
  forallb (fun p => is_dir (Fs.node_at (Fs.nodes fs) p)) (ancestors (Fs.cwd fs) dirs) = true ->
  is_dir (Fs.node_at (Fs.nodes fs) (Fs.cwd fs ++ dirs ++ [name])) = false ->
  Fs.writeFileSync fs (Str (join "/" (dirs ++ [name]))) (Str content)
  = ({| Fs.cwd := Fs.cwd fs;
        Fs.nodes := <[(Fs.cwd fs ++ dirs ++ [name])%list := Fs.File (Fs.utf8_encode content)]>
                      (Fs.nodes fs) |}, Ok tt).
Proof.
  intros P A T.
  assert (N : (dirs ++ [name])%list <> []) by apply snoc_not_nil.
  assert (R : relative (join "/" (dirs ++ [name])) = true) by now apply join_relative.
  unfold Fs.writeFileSync, Fs.locate, Fs.start_dir, Fs.trailing_slash.
  rewrite (join_no_nul _ P), (relative_not_empty _ R), (relative_not_root _ R).
  rewrite (split_join _ N P), (strip_trailing_empty_plain _ P).
  rewrite removelast_snoc, last_snoc, Nat.eqb_refl.
  apply Forall_app in P as [Pd Pn]. inversion Pn as [| ? ? Pname _]; subst.
  apply plain_name_inv in Pname as (_ & _ & D1 & D2 & _).
  rewrite (walk_dirs _ _ _ Pd A), D1, D2. cbn [negb orb].
  rewrite <- app_assoc.
  destruct (Fs.node_at (Fs.nodes fs) (Fs.cwd fs ++ dirs ++ [name])) as [[] |];
    try discriminate; reflexivity.
Qed.

Lemma utf8_ascii_length (content : string) :
  ascii_only content = true ->
  Z.of_nat (List.length (Fs.utf8_encode content)) = js_length content.
Proof.
  unfold js_length. induction content as [| c content IH]; intros A; [reflexivity |].
  cbn [ascii_only] in A. apply andb_prop in A as [Ac Ar].
  cbn [Fs.utf8_encode String.length]. unfold Fs.utf8_encode_char. rewrite Ac.
  cbn [app List.length]. rewrite !Nat2Z.inj_succ, (IH Ar). reflexivity.
Qed.

Lemma writeFile_names (dirs : list string) (name content : string) (w : world) :
  Forall (fun n => plain_name n = true) (dirs ++ [name]) ->
  Fs.node_at (Fs.nodes (files w)) (Fs.cwd (files w)) = Some Fs.Dir ->
  way_clear (Fs.nodes (files w)) (Fs.cwd (files w)) dirs = true ->
  is_dir (Fs.node_at (Fs.nodes (files w)) (Fs.cwd (files w) ++ dirs ++ [name])) = false ->
  writeFile (Str (join "/" (dirs ++ [name]))) (Str content) w
  = (stored (written (files w) dirs name content) w,
     Ok (wrote content (join "/" (dirs ++ [name])))).
Proof.
  intros P D C T.
  assert (Pd : Forall (fun n => plain_name n = true) dirs)
    by (apply Forall_app in P; tauto).
  unfold writeFile, try_catch.
  erewrite bind_ok by (unfold lift; rewrite (dirname_of_names _ _ P); reflexivity).
  erewrite bind_ok by (apply (directories_ensured _ _ Pd D C)).
  erewrite bind_ok.
  2:{ unfold on_files. cbn [files stored].
      rewrite (writeFileSync_names _ dirs name content P).
      - reflexivity.
      - apply made_all_dirs.
      - cbn [Fs.cwd Fs.nodes]. rewrite made_other; [exact T |].
        intros I. apply ancestors_length in I. rewrite !length_app in I. simpl in I. lia. }
  reflexivity.
Qed.

Lemma make_dirs_keeps (comps : list string) :
  forall (m m' : gmap (list string) Fs.node) (base : list string) (r : option fs_errno),
    Fs.make_dirs m base comps = (m', r) ->
    forall p x, Fs.node_at m p = Some x -> Fs.node_at m' p = Some x.
Proof.
  induction comps as [| c comps IH]; intros m m' base r E p x L.
  - inversion E; subst. exact L.
  - cbn [Fs.make_dirs] in E.
    destruct (Fs.is_dot c); [exact (IH _ _ _ _ E p x L) |].
    destruct (Fs.is_dotdot c); [exact (IH _ _ _ _ E p x L) |].
    destruct (Fs.node_at m (base ++ [c])) as [[] |] eqn:N.
    + inversion E; subst. exact L.
    + exact (IH _ _ _ _ E p x L).
    + apply (IH _ _ _ _ E). rewrite node_at_insert_ne; [exact L |].
      intros ->. congruence.
Qed.

Lemma kept_refl (fs : Fs.filesystem) (but : list (list string)) : kept fs fs but.
Proof. split; auto. Qed.

Lemma ensured_keeps (fs fs1 : Fs.filesystem) (path : string) (r : result unit) :
  ensured fs path = (fs1, r) -> kept fs fs1 [].
Proof.
  unfold ensured, Fs.mkdirSync_recursive. intros E.
  destruct (negb (Fs.existsSync fs (Path.dirname path)));
    [| inversion E; subst; apply kept_refl].
  destruct (Fs.has_nul (Path.dirname path)); [inversion E; subst; apply kept_refl |].
  destruct (String.eqb (Path.dirname path) EmptyString);
    [inversion E; subst; apply kept_refl |].
  destruct (Fs.make_dirs (Fs.nodes fs) (Fs.start_dir fs (Path.dirname path))
                         (split_on "/" (Path.dirname path))) as [m' [e |]] eqn:M;
    inversion E; subst; (split; [reflexivity |]);
    intros p x _ L; exact (make_dirs_keeps _ _ _ _ _ M p x L).
Qed.

(** A file put where no directory is leaves every walk as it was. *)
Lemma walk_insert_file (comps : list string) :
  forall (m : gmap (list string) Fs.node) (base cur t : list string) (d : Fs.bytes),
    Fs.walk m base comps = inr cur ->
    is_dir (Fs.node_at m t) = false ->
    Fs.walk (<[t := Fs.File d]> m) base comps = inr cur.
Proof.
  induction comps as [| c comps IH]; intros m base cur t d W T.
  - exact W.
  - cbn [Fs.walk] in *.
    destruct (Fs.is_dot c); [now apply IH |].
    destruct (Fs.is_dotdot c); [now apply IH |].
    destruct (Fs.node_at m (base ++ [c])) as [[] |] eqn:N; try discriminate.
    rewrite node_at_insert_ne, N; [now apply IH |].
    intros <-. rewrite N in T. discriminate.
Qed.

(** [fs.writeFileSync] of two strings, when it returns: the path led to a
    place that is not a directory, and the file is there. *)
Lemma writeFileSync_returns (fs fs' : Fs.filesystem) (path content : string) :
  Fs.writeFileSync fs (Str path) (Str content) = (fs', Ok tt) ->
  file_written fs fs' path content.
Proof.
  unfold Fs.writeFileSync. intros E.
  destruct (Fs.has_nul path); [discriminate |].
  destruct (Fs.locate fs path) as [e | target] eqn:L; [discriminate |].
  destruct (Fs.trailing_slash path) eqn:TS; [discriminate |].
  destruct (Fs.is_dot _) eqn:D1; [discriminate |].
  destruct (Fs.is_dotdot _) eqn:D2; [discriminate |].
  cbn [orb] in E.
  assert (T : is_dir (Fs.node_at (Fs.nodes fs) target) = false
              /\ fs' = {| Fs.cwd := Fs.cwd fs;
                          Fs.nodes := <[target := Fs.File (Fs.utf8_encode content)]>
                                        (Fs.nodes fs) |}).
  { destruct (Fs.node_at (Fs.nodes fs) target) as [[] |]; inversion E; subst; split; reflexivity. }
  destruct T as [T ->]. clear E.
  unfold Fs.locate in L.
  destruct (String.eqb path EmptyString) eqn:NE; [discriminate |].
  destruct (Fs.walk (Fs.nodes fs) (Fs.start_dir fs path)
              (List.removelast (Fs.strip_trailing_empty (split_on "/" path))))
    as [e | cur] eqn:W; [discriminate |].
  rewrite D1, D2 in L. inversion L; subst target. clear L.
  exists (cur ++ [List.last (Fs.strip_trailing_empty (split_on "/" path)) EmptyString])%list.
  split; [| split; [| split]].
  - unfold Fs.locate, Fs.start_dir in *. cbn [Fs.cwd Fs.nodes]. rewrite NE.
    rewrite (walk_insert_file _ _ _ _ _ _ W T), D1, D2. reflexivity.
  - cbn [Fs.nodes]. apply node_at_insert_eq, snoc_not_nil.
  - reflexivity.
  - cbn [Fs.nodes]. intros p x Np Lp. rewrite node_at_insert_ne; [exact Lp |].
    intros ->. apply Np. now left.
Qed.

Lemma kept_trans (fs fs1 fs2 : Fs.filesystem) (but : list (list string)) :
  kept fs fs1 [] -> kept fs1 fs2 but -> kept fs fs2 but.
Proof.
  intros [C1 K1] [C2 K2]. split; [congruence |].
  intros p x N L. apply K2; [exact N |]. apply K1; auto.
Qed.

(** [writeFile] of two strings, step by step. *)
Lemma writeFile_strings (path content : string) (w : world) :
  writeFile (Str path) (Str content) w =
    match ensured (files w) path with
    | (fs1, Ok _) =>
        match Fs.writeFileSync fs1 (Str path) (Str content) with
        | (fs2, Ok _) => (stored fs2 w, Ok (wrote content path))
        | (fs2, Throw e) => (stored fs2 w, Ok (Str ("Error writing file: " +:+ message e)))
        end
    | (fs1, Throw e) => (stored fs1 w, Ok (Str ("Error writing file: " +:+ message e)))
    end.
Proof.
  destruct w as [h fs c r].
  unfold writeFile, try_catch, ensured, on_files, lift, stored, mbind, eff_bind, mret, eff_ret.
  cbn [files chatHistory console requests].
  destruct (negb (Fs.existsSync fs (Path.dirname path))).
  - destruct (Fs.mkdirSync_recursive fs (Path.dirname path)) as [fs1 [[] | e]];
      cbn [files chatHistory console requests]; [| reflexivity].
    destruct (Fs.writeFileSync fs1 (Str path) (Str content)) as [fs2 [[] | e]]; reflexivity.
  - cbn [files chatHistory console requests].
    destruct (Fs.writeFileSync fs (Str path) (Str content)) as [fs2 [[] | e]]; reflexivity.
Qed.

Lemma writeFileSync_keeps (fs fs' : Fs.filesystem) (path content : string) (e : js_error) :
  Fs.writeFileSync fs (Str path) (Str content) = (fs', Throw e) -> fs' = fs.
Proof.
  unfold Fs.writeFileSync. intros E.
  repeat match type of E with
         | (if ?c then _ else _) = _ => destruct c
         | match ?c with _ => _ end = _ => destruct c
         end; inversion E; reflexivity.
Qed.

(** Where a path of plain names leads, when it leads somewhere: down the
    names from the working directory, every name but the last one being a
    directory. *)
Lemma locate_names (fs : Fs.filesystem) (dirs : list string) (name : string)
      (target : list string) :
  Forall (fun n => plain_name n = true) (dirs ++ [name]) ->
  Fs.locate fs (join "/" (dirs ++ [name])) = inr target ->
  target = (Fs.cwd fs ++ dirs ++ [name])%list
  /\ forallb (fun p => is_dir (Fs.node_at (Fs.nodes fs) p)) (ancestors (Fs.cwd fs) dirs) = true.
Proof.
  intros P L.
  assert (N : (dirs ++ [name])%list <> []) by apply snoc_not_nil.
  assert (R : relative (join "/" (dirs ++ [name])) = true) by now apply join_relative.
  unfold Fs.locate, Fs.start_dir in L.
  rewrite (relative_not_empty _ R), (relative_not_root _ R) in L.
  rewrite (split_join _ N P), (strip_trailing_empty_plain _ P) in L.
  rewrite removelast_snoc, last_snoc in L.
  apply Forall_app in P as [Pd Pn]. inversion Pn as [| ? ? Pname _]; subst.
  apply plain_name_inv in Pname as (_ & _ & D1 & D2 & _).
  destruct (Fs.walk (Fs.nodes fs) (Fs.cwd fs) dirs) as [e | cur] eqn:W; [discriminate |].
  rewrite D1, D2 in L. inversion L; subst target.
  destruct (walk_inv _ _ _ _ Pd W) as [-> A]. rewrite <- app_assoc. now split.
Qed.

(** The bytes of a string are at least as many as its code units, and
    more when one of them is not ASCII. *)
Lemma utf8_length_le (content : string) :
  js_length content <= Z.of_nat (List.length (Fs.utf8_encode content)).
Proof.
  unfold js_length. induction content as [| c content IH]; [reflexivity |].
  cbn [Fs.utf8_encode String.length]. rewrite length_app.
  unfold Fs.utf8_encode_char. destruct (code c <? 128); cbn [List.length]; lia.
Qed.

Lemma utf8_length_lt (content : string) :
  ascii_only content = false ->
  js_length content < Z.of_nat (List.length (Fs.utf8_encode content)).
Proof.
  induction content as [| c content IH]; intros A; [discriminate |].
  cbn [ascii_only] in A. pose proof (utf8_length_le content) as Le.
  unfold js_length in *. cbn [Fs.utf8_encode String.length]. rewrite length_app.
  unfold Fs.utf8_encode_char. destruct (code c <? 128); cbn [List.length].
  - cbn [andb] in A. specialize (IH A). lia.
  - lia.
Qed.

(** C2.  For an [action] Decision with the tool [writeFile], a string
    [fileContent] and a [filePath] that is a string and not the empty one,
    the tool throws nothing and the loop goes round again with its
    Observation.  When the write returns, the path leads through
    directories to the file, the file holds the UTF-8 bytes of the content
    in place of whatever it held, and everything else is kept; for a path
    of plain names every directory of the path is there.  When an
    operation on the file system throws, the Observation is
    ["Error writing file: <cause>"] and what the file system held is kept.
    The number in ["Successfully wrote N bytes to <filePath>"] is not the
    number of bytes written: it is the length of the content in UTF-16
    code units, which is the number of bytes for an ASCII content (2 for
    ["hi"]) and is smaller for every other content (1 for U+00E9, written
    as two bytes). *)
Theorem write_file_observation (response : value) (path content : string) (w : world) :
  field response "step" = Str "action" ->
  field response "tool" = Str "writeFile" ->
  field (field response "input") "filePath" = Str path ->
  field (field response "input") "fileContent" = Str content ->
  path <> EmptyString ->
  exists (fs' : Fs.filesystem) (result : value),
    observation (field response "tool") (field response "input") w = (stored fs' w, Ok result)
    /\ interpret response w
       = (observed result (shown result) (stored fs' (announced response "writeFile" w)),
          Ok Continue)
    /\ ((result = Str ("Successfully wrote " +:+ JsNumber.toString (of_Z (js_length content))
                       +:+ " bytes to " +:+ path)
         /\ file_written (files w) fs' path content
         /\ forall (dirs : list string) (name : string),
              path = join "/" (dirs ++ [name]) ->
              forallb plain_name (dirs ++ [name]) = true ->
              Fs.node_at (Fs.nodes fs') (Fs.cwd (files w) ++ dirs ++ [name])
              = Some (Fs.File (Fs.utf8_encode content))
              /\ forall p, In p (ancestors (Fs.cwd (files w)) dirs) ->
                           Fs.node_at (Fs.nodes fs') p = Some Fs.Dir)
        \/ (exists e, result = Str ("Error writing file: " +:+ message e)
                      /\ kept (files w) fs' []))
    /\ (ascii_only content = true ->
        js_length content = Z.of_nat (List.length (Fs.utf8_encode content)))
    /\ (ascii_only content = false ->
        js_length content < Z.of_nat (List.length (Fs.utf8_encode content)))
    /\ js_length "hi" = 2
    /\ js_length (str1 (chr 233)) = 1
    /\ Fs.utf8_encode (str1 (chr 233)) = [195; 169].
Proof.
  intros Hstep Htool Hpath Hcontent NE.
  assert (O : forall v, observation (field response "tool") (field response "input") v
                        = writeFile (Str path) (Str content) v).
  { intros v. rewrite Htool. unfold observation. cbn [is_str].
    cbn [String.eqb Ascii.eqb Bool.eqb].
    unfold executing, try_catch, write_file.
    rewrite Hpath, Hcontent.
    destruct (field response "input"); try discriminate.
    cbn [typeof truthy]. apply String.eqb_neq in NE. rewrite NE.
    cbn [String.eqb Ascii.eqb Bool.eqb negb orb].
    destruct (writeFile_returns (Str path) (Str content) v) as (v' & s & E).
    now rewrite E. }
  assert (S : exists fs' result,
             (forall v, files v = files w ->
                        writeFile (Str path) (Str content) v = (stored fs' v, Ok result))
             /\ ((result = wrote content path /\ file_written (files w) fs' path content)
                 \/ (exists e, result = Str ("Error writing file: " +:+ message e)
                               /\ kept (files w) fs' []))
             /\ exists s, result = Str s).
  { destruct (ensured (files w) path) as [fs1 [[] | e]] eqn:E1.
    - destruct (Fs.writeFileSync fs1 (Str path) (Str content)) as [fs2 [[] | e]] eqn:E2.
      + exists fs2, (wrote content path). split; [| split].
        * intros v Ev. now rewrite writeFile_strings, Ev, E1, E2.
        * left. split; [reflexivity |].
          destruct (writeFileSync_returns _ _ _ _ E2) as (target & L & F & K).
          exists target. split; [exact L | split; [exact F |]].
          apply (kept_trans _ fs1); [exact (ensured_keeps _ _ _ _ E1) | exact K].
        * unfold wrote. eauto.
      + exists fs2, (Str ("Error writing file: " +:+ message e)). split; [| split].
        * intros v Ev. now rewrite writeFile_strings, Ev, E1, E2.
        * right. exists e. split; [reflexivity |].
          rewrite (writeFileSync_keeps _ _ _ _ _ E2).
          exact (ensured_keeps _ _ _ _ E1).
        * eauto.
    - exists fs1, (Str ("Error writing file: " +:+ message e)). split; [| split].
      + intros v Ev. now rewrite writeFile_strings, Ev, E1.
      + right. exists e. split; [reflexivity | exact (ensured_keeps _ _ _ _ E1)].
      + eauto. }
  destruct S as (fs' & result & W & Cases & s & Es).
  exists fs', result.
  split; [rewrite O; now apply W |].
  split.
  { apply (interpret_action response result "writeFile" (shown result));
      [exact Hstep | rewrite Htool; reflexivity | rewrite O; now apply W
      | rewrite Es; reflexivity]. }
  split.
  { destruct Cases as [[R F] | Failed]; [left | right; exact Failed].
    split; [exact R | split; [exact F |]].
    intros dirs name -> Pb.
    assert (P : Forall (fun n => plain_name n = true) (dirs ++ [name])).
    { apply List.Forall_forall. apply List.forallb_forall. exact Pb. }
    destruct F as (target & L & T & [C _]).
    destruct (locate_names _ _ _ _ P L) as [-> A]. rewrite C in T, A.
    split; [exact T |].
    intros p I. rewrite List.forallb_forall in A. specialize (A p I).
    destruct (Fs.node_at (Fs.nodes fs') p) as [[] |]; try discriminate. reflexivity. }
  split; [intros A; symmetry; now apply utf8_ascii_length |].
  split; [apply utf8_length_lt |].
  repeat split.
Qed.

End Writing.

Section Witnesses.

Import Examples.
Existing Instance Reference.node.


Lemma write_file_observation_witness :
  "out/sub/file.txt" <> EmptyString
  /\ observation (field writing "tool") (field writing "input") (fresh home)
     = (stored (written home ["out"; "sub"] "file.txt" "hi") (fresh home),
        Ok (Str "Successfully wrote 2 bytes to out/sub/file.txt"))
  /\ Fs.node_at (Fs.nodes (written home ["out"; "sub"] "file.txt" "hi"))
                ["home"; "u"; "out"; "sub"] = Some Fs.Dir
  /\ Fs.node_at (Fs.nodes (written home ["out"; "sub"] "file.txt" "hi"))
                ["home"; "u"; "out"; "sub"; "file.txt"] = Some (Fs.File [104; 105]).
Proof.
  assert (NE : "out/sub/file.txt" <> EmptyString) by discriminate.
  assert (C : observation (field writing "tool") (field writing "input") (fresh home)
              = (stored (written home ["out"; "sub"] "file.txt" "hi") (fresh home),
                 Ok (Str "Successfully wrote 2 bytes to out/sub/file.txt")))
    by (vm_compute; reflexivity).
  destruct (write_file_observation writing "out/sub/file.txt" "hi" (fresh home)
              eq_refl eq_refl eq_refl eq_refl NE)
    as (fs' & result & O & _ & Cases & _).
  rewrite C in O. unfold stored in O. cbn [chatHistory console requests fresh] in O.
  injection O as Efs Eres. subst fs' result.
  split; [exact NE | split; [exact C |]].
  destruct Cases as [(_ & _ & D) | (e & Ee & _)]; [| discriminate Ee].
  destruct (D ["out"; "sub"] "file.txt" eq_refl eq_refl) as [T A].
  split; [| exact T].
  apply (A ["home"; "u"; "out"; "sub"]). right. left. reflexivity.
Defined.

(** On a file system where [out] is a file, the tool makes no directory
    and writes no file, and its Observation reports the failure. *)
Example write_under_a_file_fails :
  let input := Obj [("filePath", Str "out/sub/file.txt"); ("fileContent", Str "hi")] in
  let after_write := observation (Str "writeFile") input (fresh home_with_file) in
  after_write
  = (fresh home_with_file,
     Ok (Str "Error writing file: ENOTDIR: not a directory, mkdir 'out/sub'"))
  /\ Fs.node_at (Fs.nodes (files (fst after_write))) ["home"; "u"; "out"; "sub"] = None
  /\ Fs.node_at (Fs.nodes (files (fst after_write))) ["home"; "u"; "out"; "sub"; "file.txt"]
     = None.
Proof. repeat split; vm_compute; reflexivity. Qed.

(** Writing the same path again replaces the content. *)
Example second_write_replaces :
  let again := decision "action" "writeFile"
                 (Obj [("filePath", Str "out/sub/file.txt"); ("fileContent", Str "bye")])
                 EmptyString in
  Fs.node_at
    (Fs.nodes (files (after [answer writing; answer again] (fresh home))))
    ["home"; "u"; "out"; "sub"; "file.txt"]
  = Some (Fs.File [98; 121; 101]).
Proof. vm_compute. reflexivity. Qed.

(** The number in the Observation is the length of the content in code
    units: for U+00E9 it is 1, and two bytes are written. *)
Example length_counts_code_units :
  let e_acute := str1 (chr 233) in
  let note := decision "action" "writeFile"
                (Obj [("filePath", Str "note.txt"); ("fileContent", Str e_acute)])
                EmptyString in
  observation (field note "tool") (field note "input") (fresh home)
  = (stored (written home [] "note.txt" e_acute) (fresh home),
     Ok (Str "Successfully wrote 1 bytes to note.txt"))
  /\ Fs.node_at (Fs.nodes (written home [] "note.txt" e_acute)) ["home"; "u"; "note.txt"]
     = Some (Fs.File [195; 169]).
Proof. split; vm_compute; reflexivity. Qed.

(** A [fileContent] that is defined but not a string passes the check of
    the branch and fails in [fs.writeFileSync], after the directories were
    made. *)
Example number_content_is_refused :
  let odd := Obj [("filePath", Str "out/sub/file.txt"); ("fileContent", Num (of_Z 42))] in
  let after_write := observation (Str "writeFile") odd (fresh home) in
  snd after_write
  = Ok (Str ("Error writing file: The " +:+ quoted "data"
             +:+ " argument must be of type string or an instance of Buffer, TypedArray, or DataView. Received type number (42)"))
  /\ Fs.node_at (Fs.nodes (files (fst after_write))) ["home"; "u"; "out"; "sub"] = Some Fs.Dir
  /\ Fs.node_at (Fs.nodes (files (fst after_write))) ["home"; "u"; "out"; "sub"; "file.txt"]
     = None.
Proof. repeat split; vm_compute; reflexivity. Qed.

(** The sum is the sum of the Numbers, rounded as a Number is. *)
Example sum_of_tenths :
  shown (Num (add (StringToNumber "0.1") (StringToNumber "0.2"))) = "0.30000000000000004"
  /\ observation (Str "addTwoNumbers") (Str " 7 ,0x10") (fresh home)
     = (fresh home, Ok (Num (of_Z 23)))
  /\ observation (Str "addTwoNumbers") (Str "10") (fresh home)
     = (fresh home, Ok invalid_number)
  /\ observation (Str "addTwoNumbers") (Arr [Num (of_Z 10); Num (of_Z 20)]) (fresh home)
     = (fresh home, Ok (Num (of_Z 30))).
Proof. repeat split; vm_compute; reflexivity. Qed.

(** On the decimal numerals of the integers below 60 the sum is the sum
    of the integers. *)
Example sums_of_small_integers :
  forallb (fun m =>
    forallb (fun n =>
      match addTwoNumbers (Num (StringToNumber (decimal (Z.of_nat m))))
                          (Num (StringToNumber (decimal (Z.of_nat n)))) with
      | Ok (Num x) => SFeqb x (of_Z (Z.of_nat (m + n)))
      | _ => false
      end) (List.seq 0 60)) (List.seq 0 60) = true.
Proof. vm_compute. reflexivity. Qed.

(** A content that cannot be printed (an object with a property
    [toString]) makes [printStep] throw out of the loop. *)
Example unprintable_thought_throws :
  let odd := Obj [("step", Str "think"); ("content", Obj [("toString", Null)])] in
  snd (loop [answer odd] (fresh home)) = Uncaught (PlatformError CannotConvertToPrimitive).
Proof. vm_compute. reflexivity. Qed.


Lemma oracle_failure_ends_query_witness :
  decode unavailable
  = Throw (SourceError "API Error: 503 Service Unavailable - overloaded")
  /\ snd (loop [unavailable; answer answering] (fresh home)) = LoopLeft
  /\ snd (fst (loop [unavailable; answer answering] (fresh home))) = [answer answering].
Proof.
  split; [reflexivity |].
  pose proof (proj1 (oracle_failure_ends_query unavailable
                       (SourceError "API Error: 503 Service Unavailable - overloaded")
                       [answer answering] (fresh home) eq_refl)) as L.
  rewrite L. split; reflexivity.
Defined.

Lemma output_ends_loop_once_witness :
  rounds [answer thinking; answer adding] (fresh home)
         (after [answer thinking; answer adding] (fresh home))
  /\ snd (loop [answer thinking; answer adding; answer answering; answer thinking]
            (fresh home)) = LoopLeft
  /\ snd (fst (loop [answer thinking; answer adding; answer answering; answer thinking]
                 (fresh home))) = [answer thinking].
Proof.
  assert (R : rounds [answer thinking; answer adding] (fresh home)
                     (after [answer thinking; answer adding] (fresh home))).
  { apply rounds_cons with (w1 := after [answer thinking] (fresh home));
      [vm_compute; reflexivity |].
    apply rounds_cons with (w1 := after [answer thinking; answer adding] (fresh home));
      [vm_compute; reflexivity |].
    apply rounds_nil. }
  split; [exact R |].
  pose proof (proj1 (output_ends_loop_once
                       [answer thinking; answer adding] (answer answering)
                       [answer thinking] answering "The sum is 30."
                       (fresh home) _ R eq_refl eq_refl eq_refl)) as L.
  change ([answer thinking; answer adding; answer answering; answer thinking])
    with ([answer thinking; answer adding] ++ answer answering :: [answer thinking])%list.
  rewrite L. split; reflexivity.
Defined.

Lemma fence_stripped_before_parse_witness :
  object_shaped object_text
  /\ cleanedText (Str (fenced object_text)) = Ok object_text.
Proof.
  assert (S : object_shaped object_text).
  { exists EmptyString, object_body, EmptyString. repeat split; reflexivity. }
  split; [exact S |].
  exact (proj1 (fence_stripped_before_parse object_text S)).
Defined.

Lemma think_only_appends_decision_witness :
  field thinking "step" = Str "think"
  /\ interpret thinking (fresh home)
     = (logged [step_line "think" "First the sum."]
          (remembered [model_turn thinking] (fresh home)), Ok Continue).
Proof.
  split; [reflexivity |].
  refine (proj1 (think_only_appends_decision thinking "First the sum." (fresh home) _ _));
    reflexivity.
Defined.

Lemma unrecognized_step_is_skipped_witness :
  field planning "step" <> Str "think"
  /\ interpret planning (fresh home)
     = (remembered [model_turn planning] (fresh home), Ok Continue).
Proof.
  split; [discriminate |].
  refine (proj1 (unrecognized_step_is_skipped planning (fresh home) _ _ _ _));
    solve [reflexivity | discriminate].
Defined.

Lemma empty_operand_is_zero_witness :
  has_char "," "5" = false
  /\ observation (Str "addTwoNumbers") (Str "5,") (fresh home)
     = observation (Str "addTwoNumbers") (Str "5,0") (fresh home).
Proof.
  split; [reflexivity |].
  refine (proj1 (proj2 (empty_operand_is_zero "5" "5" "7" (fresh home) _ _)));
    reflexivity.
Defined.

End Witnesses.

(** * Further properties *)

(** ** What the loop keeps *)

Section Invariants.

Context `{Platform}.

Lemma persists_refl (fs : Fs.filesystem) : persists fs fs.
Proof. split; [reflexivity |]. intros p x L. now exists x. Qed.

Lemma persists_trans (fs1 fs2 fs3 : Fs.filesystem) :
  persists fs1 fs2 -> persists fs2 fs3 -> persists fs1 fs3.
Proof.
  intros [C1 K1] [C2 K2]. split; [congruence |].
  intros p x L. destruct (K1 p x L) as (y & Ly & Ey).
  destruct (K2 p y Ly) as (z & Lz & Ez). exists z. split; [exact Lz | congruence].
Qed.

Lemma kept_persists (fs fs' : Fs.filesystem) : kept fs fs' [] -> persists fs fs'.
Proof.
  intros [C K]. split; [exact C |]. intros p x L. exists x. split; [| reflexivity].
  apply K; [intros [] | exact L].
Qed.

Lemma quiet_refl (w : world) : quiet w w.
Proof. repeat split; try reflexivity. intros p x L. now exists x. Qed.

Lemma quiet_trans (w1 w2 w3 : world) : quiet w1 w2 -> quiet w2 w3 -> quiet w1 w3.
Proof.
  intros [(H1 & C1 & F1) R1] [(H2 & C2 & F2) R2]. repeat split.
  - now transitivity (chatHistory w2).
  - now transitivity (console w2).
  - apply (persists_trans _ _ _ F1 F2).
  - apply (persists_trans _ _ _ F1 F2).
  - congruence.
Qed.

Section Respect.

Variable R : world -> world -> Prop.
Hypothesis R_refl : forall w, R w w.
Hypothesis R_trans : forall w1 w2 w3, R w1 w2 -> R w2 w3 -> R w1 w3.

Lemma respects_ret {A : Type} (a : A) : respects R (mret a).
Proof. intros w w' r E. inversion E; subst. apply R_refl. Qed.

Lemma respects_lift {A : Type} (x : result A) : respects R (lift x).
Proof. intros w w' r E. inversion E; subst. apply R_refl. Qed.

Lemma respects_bind {A B : Type} (m : eff A) (k : A -> eff B) :
  respects R m -> (forall a, respects R (k a)) -> respects R (x ← m; k x).
Proof.
  intros Sm Sk w w' r E. unfold mbind, eff_bind in E.
  destruct (m w) as [w1 [a | e]] eqn:M.
  - apply (R_trans _ w1); [exact (Sm _ _ _ M) | exact (Sk a _ _ _ E)].
  - inversion E; subst. exact (Sm _ _ _ M).
Qed.

Lemma respects_try_catch {A : Type} (body : eff A) (handler : js_error -> eff A) :
  respects R body -> (forall e, respects R (handler e)) -> respects R (try_catch body handler).
Proof.
  intros Sb Sh w w' r E. unfold try_catch in E.
  destruct (body w) as [w1 [a | e]] eqn:M.
  - inversion E; subst. exact (Sb _ _ _ M).
  - apply (R_trans _ w1); [exact (Sb _ _ _ M) | exact (Sh e _ _ _ E)].
Qed.

End Respect.

Lemma steady_ret {A : Type} (a : A) : steady (mret a).
Proof. apply respects_ret, quiet_refl. Qed.

Lemma steady_lift {A : Type} (x : result A) : steady (lift x).
Proof. apply respects_lift, quiet_refl. Qed.

Lemma steady_bind {A B : Type} (m : eff A) (k : A -> eff B) :
  steady m -> (forall a, steady (k a)) -> steady (x ← m; k x).
Proof. apply respects_bind, quiet_trans. Qed.

Lemma steady_try_catch {A : Type} (body : eff A) (handler : js_error -> eff A) :
  steady body -> (forall e, steady (handler e)) -> steady (try_catch body handler).
Proof. apply respects_try_catch, quiet_trans. Qed.

Lemma steady_write_console (o : output) : steady (write_console o).
Proof.
  intros w w' r E. inversion E; subst. repeat split; cbn; try reflexivity.
  - now apply prefix_app_r.
  - intros p x L. now exists x.
Qed.

Lemma steady_push_history (t : value) : steady (push_history t).
Proof.
  intros w w' r E. inversion E; subst. repeat split; cbn; try reflexivity.
  - now apply prefix_app_r.
  - intros p x L. now exists x.
Qed.

Lemma steady_on_files {A : Type} (op : Fs.filesystem -> Fs.filesystem * result A) :
  (forall fs fs' r, op fs = (fs', r) -> persists fs fs') -> steady (on_files op).
Proof.
  intros P w w' r E. unfold on_files in E.
  destruct (op (files w)) as [fs' x] eqn:O. inversion E; subst.
  repeat split; cbn; try reflexivity; apply (P _ _ _ O).
Qed.

Lemma steady_printStep (type : string) (text : value) : steady (printStep type text).
Proof.
  unfold printStep. apply steady_bind; [apply steady_lift |].
  intros t. apply steady_write_console.
Qed.

Lemma mkdirSync_persists (fs fs' : Fs.filesystem) (p : string) (r : result unit) :
  Fs.mkdirSync_recursive fs p = (fs', r) -> persists fs fs'.
Proof.
  unfold Fs.mkdirSync_recursive. intros E.
  destruct (Fs.has_nul p); [inversion E; subst; apply persists_refl |].
  destruct (String.eqb p EmptyString); [inversion E; subst; apply persists_refl |].
  destruct (Fs.make_dirs (Fs.nodes fs) (Fs.start_dir fs p) (split_on "/" p))
    as [m' [e |]] eqn:M;
    inversion E; subst; (split; [reflexivity |]);
    intros q x L; exists x; (split; [| reflexivity]);
    exact (make_dirs_keeps _ _ _ _ _ M q x L).
Qed.

(** [fs.writeFileSync] changes nothing but the content of one file, or adds
    one file. *)
Lemma writeFileSync_persists (fs fs' : Fs.filesystem) (p data : value) (r : result unit) :
  Fs.writeFileSync fs p data = (fs', r) -> persists fs fs'.
Proof.
  unfold Fs.writeFileSync. intros E.
  destruct data; try (inversion E; subst; apply persists_refl).
  destruct p; try (inversion E; subst; apply persists_refl).
  destruct (Fs.has_nul _); [inversion E; subst; apply persists_refl |].
  destruct (Fs.locate fs _) as [e | target]; [inversion E; subst; apply persists_refl |].
  destruct (_ || _); [inversion E; subst; apply persists_refl |].
  destruct (Fs.node_at (Fs.nodes fs) target) as [[d |] |] eqn:T;
    inversion E; subst; try apply persists_refl;
    (split; [reflexivity |]); cbn [Fs.nodes]; intros q x L;
    (destruct (decide (q = target)) as [-> | N];
     [| exists x; split; [now rewrite node_at_insert_ne | reflexivity]]).
  - destruct target as [| a t]; [cbn in T; discriminate |].
    rewrite L in T. inversion T; subst.
    eexists. split; [apply node_at_insert_eq; discriminate | reflexivity].
  - rewrite L in T. discriminate.
Qed.

Lemma steady_writeFile (filePath fileContent : value) : steady (writeFile filePath fileContent).
Proof.
  unfold writeFile. apply steady_try_catch; [| intros e; apply steady_ret].
  apply steady_bind; [apply steady_lift |]. intros dirname.
  apply steady_bind.
  { intros w w' r E.
    destruct (negb (Fs.existsSync (files w) dirname)).
    - revert E. apply steady_on_files. intros fs fs' x. apply mkdirSync_persists.
    - inversion E; subst. apply quiet_refl. }
  intros _. apply steady_bind.
  { apply steady_on_files. intros fs fs' x. apply writeFileSync_persists. }
  intros _. repeat (apply steady_bind; [apply steady_lift | intros ?]).
  apply steady_ret.
Qed.

Lemma steady_observation (tool input : value) : steady (observation tool input).
Proof.
  unfold observation, executing, write_file.
  destruct (is_str "addTwoNumbers" tool).
  { apply steady_try_catch; [apply steady_lift | intros e; apply steady_ret]. }
  destruct (is_str "writeFile" tool).
  { apply steady_try_catch; [| intros e; apply steady_ret].
    destruct (_ || _); [apply steady_lift | apply steady_writeFile]. }
  apply steady_bind; [apply steady_lift | intros n; apply steady_ret].
Qed.

Lemma steady_interpret (response : value) : steady (interpret response).
Proof.
  unfold interpret.
  destruct (negb (truthy response)); [apply steady_ret |].
  apply steady_bind; [apply steady_push_history | intros _].
  destruct (is_str "think" _).
  { apply steady_bind; [apply steady_printStep | intros _; apply steady_ret]. }
  destruct (is_str "action" _).
  { apply steady_bind; [apply steady_lift | intros t].
    apply steady_bind; [apply steady_lift | intros i].
    apply steady_bind; [apply steady_printStep | intros _].
    apply steady_bind; [apply steady_observation | intros result].
    apply steady_bind; [apply steady_lift | intros r].
    apply steady_bind; [apply steady_printStep | intros _].
    apply steady_bind; [apply steady_push_history | intros _; apply steady_ret]. }
  destruct (is_str "output" _).
  { apply steady_bind; [apply steady_printStep | intros _; apply steady_ret]. }
  apply steady_ret.
Qed.

Lemma stored_self (w : world) : stored (files w) w = w.
Proof. now destruct w. Qed.

Lemma only_files_refl (w : world) : only_files w w.
Proof. exists (files w). symmetry. apply stored_self. Qed.

Lemma only_files_trans (w1 w2 w3 : world) :
  only_files w1 w2 -> only_files w2 w3 -> only_files w1 w3.
Proof. intros [fs1 ->] [fs2 ->]. now exists fs2. Qed.

Lemma only_files_on_files {A : Type} (op : Fs.filesystem -> Fs.filesystem * result A) :
  respects only_files (on_files op).
Proof.
  intros w w' r E. unfold on_files in E.
  destruct (op (files w)) as [fs' x]. inversion E; subst. now exists fs'.
Qed.

Lemma only_files_writeFile (filePath fileContent : value) :
  respects only_files (writeFile filePath fileContent).
Proof.
  pose proof only_files_refl as Rr. pose proof only_files_trans as Rt.
  unfold writeFile. apply respects_try_catch; auto; [| intros e; now apply respects_ret].
  apply respects_bind; auto; [now apply respects_lift |]. intros dirname.
  apply respects_bind; auto.
  { intros w w' r E.
    destruct (negb (Fs.existsSync (files w) dirname)).
    - revert E. apply only_files_on_files.
    - inversion E; subst. apply Rr. }
  intros _. apply respects_bind; auto; [apply only_files_on_files |].
  intros _. repeat (apply respects_bind; auto; [now apply respects_lift | intros ?]).
  now apply respects_ret.
Qed.

Lemma only_files_observation (tool input : value) :
  respects only_files (observation tool input).
Proof.
  pose proof only_files_refl as Rr. pose proof only_files_trans as Rt.
  unfold observation, executing, write_file.
  destruct (is_str "addTwoNumbers" tool).
  { apply respects_try_catch; auto; [now apply respects_lift | intros e; now apply respects_ret]. }
  destruct (is_str "writeFile" tool).
  { apply respects_try_catch; auto; [| intros e; now apply respects_ret].
    destruct (_ || _); [now apply respects_lift | apply only_files_writeFile]. }
  apply respects_bind; auto; [now apply respects_lift | intros n; now apply respects_ret].
Qed.

End Invariants.

(** ** Runs of the loop and of the session *)

Section Runs.

Context `{Platform}.

Lemma extends_refl (w : world) : extends w w.
Proof. apply (proj1 (quiet_refl w)). Qed.

Lemma extends_trans (w1 w2 w3 : world) : extends w1 w2 -> extends w2 w3 -> extends w1 w3.
Proof.
  intros (H1 & C1 & F1) (H2 & C2 & F2). repeat split.
  - now transitivity (chatHistory w2).
  - now transitivity (console w2).
  - apply (persists_trans _ _ _ F1 F2).
  - apply (persists_trans _ _ _ F1 F2).
Qed.

Lemma extends_requested (w : world) : extends w (requested w).
Proof. apply (extends_refl w). Qed.

Lemma extends_logged (lines : list output) (w : world) : extends w (logged lines w).
Proof.
  repeat split; cbn; try reflexivity.
  - now apply prefix_app_r.
  - intros p x L. now exists x.
Qed.

(** X1.  [callGemini] never throws, whatever [fetch] answers: it sends one
    request that carries the chat history, leaves the history and the file
    system as they are, and either returns the Decision and prints
    nothing, or prints one [error] line and returns [null]. *)
Theorem callGemini_never_throws (reply : fetch_outcome) (w : world) :
  exists v,
    snd (callGemini reply w) = Ok v
    /\ chatHistory (fst (callGemini reply w)) = chatHistory w
    /\ files (fst (callGemini reply w)) = files w
    /\ requests (fst (callGemini reply w))
       = (requests w ++ [JSON_stringify (payload (chatHistory w))])%list
    /\ ((decode reply = Ok v /\ console (fst (callGemini reply w)) = console w)
        \/ (v = Null
            /\ exists e, decode reply = Throw e
                 /\ console (fst (callGemini reply w))
                    = (console w
                       ++ [step_line "error"
                             ("Error calling Gemini API or parsing response: "
                              +:+ message e)])%list)).
Proof.
  destruct (decode reply) as [v | e] eqn:D.
  - exists v. rewrite (callGemini_ok _ _ _ D). repeat split. now left.
  - exists Null. rewrite (callGemini_failure _ _ _ D). repeat split.
    right. split; [reflexivity |]. now exists e.
Qed.

Lemma iteration_extends (reply : fetch_outcome) (w w' : world) (r : result flow) :
  iteration reply w = (w', r) ->
  extends w w'
  /\ requests w' = (requests w ++ [JSON_stringify (payload (chatHistory w))])%list.
Proof.
  unfold iteration, mbind, eff_bind. intros E.
  destruct (decode reply) as [v | e] eqn:D.
  - rewrite (callGemini_ok _ _ _ D) in E.
    destruct (steady_interpret v _ _ _ E) as [X R]. split.
    + apply (extends_trans _ (requested w)); [apply extends_requested | exact X].
    + rewrite R. reflexivity.
  - rewrite (callGemini_failure _ _ _ D) in E.
    destruct (steady_interpret Null _ _ _ E) as [X R]. split.
    + apply (extends_trans _ (requested w)); [apply extends_requested |].
      eapply extends_trans; [apply extends_logged | exact X].
    + rewrite R. reflexivity.
Qed.

Lemma loop_extends (oracle : list fetch_outcome) (w : world) :
  extends w (fst (fst (loop oracle w)))
  /\ exists taken, oracle = (taken ++ snd (fst (loop oracle w)))%list.
Proof.
  revert w. induction oracle as [| reply oracle IH]; intros w.
  - cbn [loop]. rewrite post_spec. split; [apply extends_requested | now exists []].
  - rewrite loop_cons.
    destruct (iteration reply w) as [w1 r] eqn:E.
    destruct (iteration_extends _ _ _ _ E) as [X _].
    destruct r as [[] | e]; cbn [fst snd].
    + destruct (IH w1) as (X' & taken & E'). split; [exact (extends_trans _ _ _ X X') |].
      exists (reply :: taken). cbn [app]. now rewrite <- E'.
    + split; [exact X | now exists [reply]].
    + split; [exact X | now exists [reply]].
Qed.

(** X2.  However the loop ends, it has only added: the chat history and
    the terminal it started with are prefixes of the ones it ends with,
    no file or directory is gone or has changed its kind, the replies left
    are a suffix of the replies given, and one request was sent for each
    reply taken (and one more when the loop waits for the oracle). *)
Theorem loop_only_adds (oracle : list fetch_outcome) (w : world) :
  let '(w', rest, outcome) := loop oracle w in
  extends w w'
  /\ exists taken,
       oracle = (taken ++ rest)%list
       /\ List.length (requests w')
          = (List.length (requests w) + List.length taken
             + match outcome with OracleAwaited => 1 | _ => 0 end)%nat.
Proof.
  revert w. induction oracle as [| reply oracle IH]; intros w.
  - cbn [loop]. rewrite post_spec. split; [apply extends_requested |].
    exists []. split; [reflexivity |]. cbn. rewrite length_app. cbn. lia.
  - rewrite loop_cons.
    destruct (iteration reply w) as [w1 r] eqn:E.
    destruct (iteration_extends _ _ _ _ E) as [X R].
    assert (L : List.length (requests w1) = S (List.length (requests w)))
      by (rewrite R, length_app; cbn; lia).
    destruct r as [[] | e].
    + specialize (IH w1). destruct (loop oracle w1) as [[w' rest] outcome].
      destruct IH as (X' & taken & -> & N). split; [exact (extends_trans _ _ _ X X') |].
      exists (reply :: taken). split; [reflexivity |]. cbn [List.length]. lia.
    + split; [exact X |]. exists [reply]. split; [reflexivity |]. cbn. lia.
    + split; [exact X |]. exists [reply]. split; [reflexivity |]. cbn. lia.
Qed.

(** X3.  A whole session only adds to the terminal and to the file
    system: what was printed stays, no file or directory is gone or has
    changed its kind, and the replies left are a suffix of the replies
    given.  (The chat history is not kept: each query starts it anew.) *)
Theorem session_only_adds (stdin : list string) (oracle : list fetch_outcome) (w : world) :
  let '(w', rest, _) := start stdin oracle w in
  console w `prefix_of` console w'
  /\ persists (files w) (files w')
  /\ exists taken, oracle = (taken ++ rest)%list.
Proof.
  revert oracle w. induction stdin as [| userQuery more IH]; intros oracle w.
  - cbn. repeat split; [now apply prefix_app_r | | now exists []].
    intros p x L. now exists x.
  - cbn [start write_console set_history].
    destruct (String.eqb (toLowerCase userQuery) "exit").
    { repeat split; cbn; [now apply prefix_app_r | | now exists []].
      intros p x L. now exists x. }
    unfold conversation. cbn [write_console].
    match goal with |- context [loop oracle ?v] =>
      pose proof (loop_extends oracle v) as L; destruct (loop oracle v) as [[w1 rest1] outcome]
    end.
    cbn [fst snd] in L. destruct L as ((_ & C & F) & taken & ->).
    cbn [console files] in C, F.
    assert (C' : console w `prefix_of` console w1).
    { etransitivity; [| exact C]. rewrite <- app_assoc. now apply prefix_app_r. }
    destruct outcome as [| | e].
    + specialize (IH rest1 w1). destruct (start more rest1 w1) as [[w' rest] fin].
      destruct IH as (C2 & F2 & taken2 & ->). repeat split.
      * now transitivity (console w1).
      * apply (persists_trans _ _ _ F F2).
      * apply (persists_trans _ _ _ F F2).
      * exists (taken ++ taken2)%list. now rewrite <- app_assoc.
    + repeat split; [exact C' | apply F | apply F | now exists taken].
    + repeat split; [exact C' | apply F | apply F | now exists taken].
Qed.

End Runs.

(** ** The action branch *)

Section Tools.

Context `{Platform}.

Lemma add_numbers_result (input : value) :
  add_numbers input =
    match ToString input with
    | Ok s => pair_sum (split_on "," s)
    | Throw e => Throw e
    end.
Proof.
  destruct (ToString input) as [s | e] eqn:T.
  - rewrite <- add_numbers_pieces. unfold add_numbers. rewrite T. reflexivity.
  - unfold add_numbers. rewrite T. reflexivity.
Qed.

Lemma pair_sum_result (pieces : list string) (v : value) :
  pair_sum pieces = Ok v -> exists x, v = Num x.
Proof.
  unfold pair_sum. destruct pieces as [| a [| b rest]]; try discriminate.
  destruct (_ || _); [discriminate |]. intros E. inversion E. eauto.
Qed.

(** What a tool leaves as its result can be printed: it is a Number or a
    string. *)
Lemma observation_prints (name : string) (input result : value) (w w' : world) :
  observation (Str name) input w = (w', Ok result) ->
  exists r, ToString result = Ok r.
Proof.
  destruct (String.eqb name "addTwoNumbers") eqn:A.
  { apply String.eqb_eq in A. subst name. rewrite observation_add. intros E.
    inversion E; subst. rewrite add_numbers_result.
    destruct (ToString input) as [s | e]; [| cbn; eauto].
    destruct (pair_sum (split_on "," s)) as [v | e] eqn:P; [| cbn; eauto].
    destruct (pair_sum_result _ _ P) as [x ->]. cbn. eauto. }
  destruct (String.eqb name "writeFile") eqn:W.
  { apply String.eqb_eq in W. subst name. intros E.
    destruct (observation_write_returns input w) as (v' & s & O).
    rewrite O in E. inversion E; subst. cbn. eauto. }
  unfold observation. cbn [is_str]. rewrite A, W. intros E. inversion E. cbn. eauto.
Qed.

Lemma observation_returns (name : string) (input : value) (w : world) :
  exists w' result, observation (Str name) input w = (w', Ok result).
Proof.
  destruct (String.eqb name "addTwoNumbers") eqn:A.
  { apply String.eqb_eq in A. subst name. rewrite observation_add. eauto. }
  destruct (String.eqb name "writeFile") eqn:W.
  { apply String.eqb_eq in W. subst name.
    destruct (observation_write_returns input w) as (v' & s & O). eauto. }
  unfold observation. cbn [is_str]. rewrite A, W. cbn. eauto.
Qed.

(** X4.  An [action] Decision whose tool is a string never ends the loop
    and never throws, whatever the tool and its input are: the round
    announces the tool, prints the tool's result, pushes the Decision and
    the Observation (two turns, in this order) and goes round again; of
    the world only the file system may have changed besides, and nothing
    of it is gone. *)
Theorem action_round_goes_on (response : value) (name : string) (w : world) :
  field response "step" = Str "action" ->
  field response "tool" = Str name ->
  exists (fs' : Fs.filesystem) (result : value) (r : string),
    ToString result = Ok r
    /\ interpret response w
       = (observed result r (stored fs' (announced response name w)), Ok Continue)
    /\ chatHistory (observed result r (stored fs' (announced response name w)))
       = (chatHistory w ++ [model_turn response; observe_turn result])%list
    /\ persists (files w) fs'.
Proof.
  intros Hstep Htool.
  destruct (observation_returns name (field response "input") (announced response name w))
    as (w2 & result & O).
  destruct (observation_prints _ _ _ _ _ O) as [r Hr].
  destruct (only_files_observation _ _ _ _ _ O) as [fs' ->].
  exists fs', result, r. split; [exact Hr |]. split; [| split].
  - apply (interpret_action response result name r); auto.
    + rewrite Htool. reflexivity.
    + rewrite Htool. exact O.
  - cbn. now rewrite <- app_assoc.
  - destruct (steady_observation _ _ _ _ _ O) as [(_ & _ & F) _]. exact F.
Qed.

(** X5.  The [writeFile] branch refuses an input that is not an object
    with a truthy [filePath] and a [fileContent] that is not [undefined]
    (a string, a number, [null], an array, an object without one of the
    two keys, an empty [filePath]): the Observation is the invalid-input
    message and nothing is written. *)
Theorem write_file_input_refused (input : value) (w : world) :
  truthy (field input "filePath") = false \/ field input "fileContent" = Undefined ->
  observation (Str "writeFile") input w
  = (w, Ok (Str "Error executing tool: Invalid input for writeFile. Expected an object with 'filePath' and 'fileContent'.")).
Proof.
  intros G. unfold observation. cbn [is_str]. cbn [String.eqb Ascii.eqb Bool.eqb].
  unfold executing, try_catch, write_file.
  assert (C : negb (String.eqb (typeof input) "object")
              || match input with Null => true | _ => false end
              || negb (truthy (field input "filePath"))
              || String.eqb (typeof (field input "fileContent")) "undefined" = true).
  { destruct G as [F | U].
    - rewrite F. cbn [negb]. now rewrite orb_true_r.
    - rewrite U. cbn. now rewrite orb_true_r. }
  rewrite C. reflexivity.
Qed.

(** And an input that passes reaches [writeFile]. *)
Lemma write_file_input_accepted (input : value) (w : world) :
  truthy (field input "filePath") = true ->
  field input "fileContent" <> Undefined ->
  observation (Str "writeFile") input w
  = writeFile (field input "filePath") (field input "fileContent") w.
Proof.
  intros F U. unfold observation. cbn [is_str]. cbn [String.eqb Ascii.eqb Bool.eqb].
  unfold executing, try_catch, write_file.
  assert (O : exists fields, input = Obj fields).
  { destruct input; cbn in F; try discriminate. eauto. }
  destruct O as [fields ->]. rewrite F.
  assert (T : String.eqb (typeof (field (Obj fields) "fileContent")) "undefined" = false)
    by (destruct (field (Obj fields) "fileContent"); try reflexivity; contradiction).
  rewrite T. cbn [typeof String.eqb Ascii.eqb Bool.eqb negb orb].
  destruct (writeFile_returns (field (Obj fields) "filePath")
                              (field (Obj fields) "fileContent") w) as (w' & s & E).
  now rewrite E.
Qed.

End Tools.

(** ** Tools that are not named, paths that are not strings *)

Section Dispatch.

Context `{Platform}.

(** X6.  The tool is compared with [===]: a [tool] that is not a string
    (missing, [null], a number, an array that prints as the name of a
    tool) is an unknown tool, named in the Observation as a template
    literal prints it; the round goes on and the world is untouched by
    the tool. *)
Theorem nameless_tool_is_unknown (response : value) (t : string) (w : world) :
  field response "step" = Str "action" ->
  (forall name, field response "tool" <> Str name) ->
  ToString (field response "tool") = Ok t ->
  let unknown := "Unknown tool: " +:+ t in
  observation (field response "tool") (field response "input") w = (w, Ok (Str unknown))
  /\ interpret response w
     = (observed (Str unknown) unknown (announced response t w), Ok Continue).
Proof.
  intros Hstep Hname Htool unknown.
  assert (O : forall v, observation (field response "tool") (field response "input") v
                        = (v, Ok (Str unknown))).
  { intros v. unfold observation.
    destruct (field response "tool") as [| | b | x | s | l | fields] eqn:T;
      try (now destruct (Hname s));
      cbn [is_str]; unfold lift; erewrite bind_ok by (rewrite Htool; reflexivity);
      reflexivity. }
  split; [apply O |].
  apply (interpret_action response (Str unknown) t unknown); auto.
Qed.

(** X7.  A [filePath] that is truthy but not a string passes the check of
    the branch and is refused by [path.dirname]: [writeFile] catches the
    error, reports it, and neither makes a directory nor writes. *)
Theorem path_must_be_a_string (filePath fileContent : value) (w : world) :
  (forall p, filePath <> Str p) ->
  writeFile filePath fileContent w
  = (w, Ok (Str ("Error writing file: "
                 +:+ node_message (InvalidArgType "path" filePath)))).
Proof.
  intros N. unfold writeFile, try_catch, mbind, eff_bind, lift.
  destruct filePath as [| | b | x | s | l | fields]; try reflexivity.
  now destruct (N s).
Qed.

End Dispatch.

(** ** Writing the same path again *)

Section Rewriting.

Context `{Platform}.

Lemma target_not_ancestor (base dirs : list string) (name : string) :
  ~ In (base ++ dirs ++ [name])%list (ancestors base dirs).
Proof.
  intros I. apply ancestors_length in I. rewrite !length_app in I. simpl in I. lia.
Qed.

(** [fs.writeFileSync] of two strings returns only after it has put the
    file where the path leads, a place that was not a directory. *)
Lemma writeFileSync_done (fs fs' : Fs.filesystem) (path content : string) :
  Fs.writeFileSync fs (Str path) (Str content) = (fs', Ok tt) ->
  exists target,
    Fs.locate fs path = inr target
    /\ is_dir (Fs.node_at (Fs.nodes fs) target) = false
    /\ fs' = {| Fs.cwd := Fs.cwd fs;
                Fs.nodes := <[target := Fs.File (Fs.utf8_encode content)]> (Fs.nodes fs) |}.
Proof.
  unfold Fs.writeFileSync. intros E.
  destruct (Fs.has_nul path); [discriminate |].
  destruct (Fs.locate fs path) as [e | target]; [discriminate |].
  destruct (_ || _); [discriminate |].
  exists target. split; [reflexivity |].
  destruct (Fs.node_at (Fs.nodes fs) target) as [[] |]; inversion E; subst; now split.
Qed.

(** A write that answers with the success message has made the directory
    of the path where it was missing and has written the file. *)
Lemma writeFile_done (path content : string) (w w' : world) :
  writeFile (Str path) (Str content) w = (w', Ok (wrote content path)) ->
  exists fs1,
    ensured (files w) path = (fs1, Ok tt)
    /\ Fs.writeFileSync fs1 (Str path) (Str content) = (files w', Ok tt)
    /\ w' = stored (files w') w.
Proof.
  rewrite writeFile_strings. unfold wrote. intros E.
  destruct (ensured (files w) path) as [fs1 [[] | e]]; [| discriminate E].
  destruct (Fs.writeFileSync fs1 (Str path) (Str content)) as [fs2 [[] | e]] eqn:E2;
    [| discriminate E].
  inversion E; subst. exists fs1. split; [reflexivity | split; [exact E2 | reflexivity]].
Qed.

(** Where every directory of the path is in place, nothing is left to
    make. *)
Lemma ensured_settled (fs : Fs.filesystem) (dirs : list string) (name : string) :
  Forall (fun n => plain_name n = true) (dirs ++ [name]) ->
  forallb (fun p => is_dir (Fs.node_at (Fs.nodes fs) p)) (ancestors (Fs.cwd fs) dirs) = true ->
  ensured fs (join "/" (dirs ++ [name])) = (fs, Ok tt).
Proof.
  intros P A. unfold ensured. rewrite (dirname_of_names _ _ P).
  destruct (Fs.existsSync fs (dir_path dirs)); [reflexivity |]. cbn [negb].
  apply Forall_app in P as [Pd _].
  destruct dirs as [| d dirs].
  - destruct fs. reflexivity.
  - assert (N : d :: dirs <> []) by discriminate.
    assert (R : relative (join "/" (d :: dirs)) = true) by now apply join_relative.
    change (dir_path (d :: dirs)) with (join "/" (d :: dirs)).
    unfold Fs.mkdirSync_recursive, Fs.start_dir.
    rewrite (join_no_nul _ Pd), (relative_not_empty _ R), (relative_not_root _ R).
    rewrite (split_join _ N Pd), make_dirs_made, (made_existing _ _ _ A);
      [destruct fs; reflexivity | exact Pd |].
    unfold way_clear. apply forallb_forall. intros p I.
    rewrite List.forallb_forall in A. specialize (A p I).
    destruct (Fs.node_at (Fs.nodes fs) p) as [[] |]; try discriminate; reflexivity.
Qed.

(** X8.  For a relative path of plain names (no empty name, [.], [..],
    slash or NUL in a name): when a write of one content has answered
    with the success message and a second write to the same path has too,
    the second write has changed nothing but the content of that file,
    which now holds the bytes of the second content and nothing of the
    first; and a write of the second content alone that answers with the
    success message leaves the same world.  That a write succeeds is
    assumed, not concluded. *)
Theorem second_write_wins (dirs : list string) (name first second : string)
        (w w1 w2 : world) :
  Forall (fun n => plain_name n = true) (dirs ++ [name]) ->
  let path := join "/" (dirs ++ [name]) in
  let target := (Fs.cwd (files w) ++ dirs ++ [name])%list in
  writeFile (Str path) (Str first) w = (w1, Ok (wrote first path)) ->
  writeFile (Str path) (Str second) w1 = (w2, Ok (wrote second path)) ->
  Fs.node_at (Fs.nodes (files w1)) target = Some (Fs.File (Fs.utf8_encode first))
  /\ files w2 = {| Fs.cwd := Fs.cwd (files w1);
                   Fs.nodes := <[target := Fs.File (Fs.utf8_encode second)]>
                                 (Fs.nodes (files w1)) |}
  /\ Fs.node_at (Fs.nodes (files w2)) target = Some (Fs.File (Fs.utf8_encode second))
  /\ w2 = stored (files w2) w
  /\ forall w3, writeFile (Str path) (Str second) w = (w3, Ok (wrote second path)) -> w3 = w2.
Proof.
  intros P path target A B.
  assert (T' : target <> []).
  { unfold target. rewrite app_assoc. apply snoc_not_nil. }
  destruct (writeFile_done _ _ _ _ A) as (fs1 & E1 & W1 & S1).
  destruct (writeFileSync_done _ _ _ _ W1) as (t & L1 & N1 & F1).
  destruct (locate_names _ _ _ _ P L1) as [-> A1].
  assert (C1 : Fs.cwd fs1 = Fs.cwd (files w)) by apply (ensured_keeps _ _ _ _ E1).
  rewrite C1 in *. fold target in N1, F1.
  assert (A1' : forallb (fun p => is_dir (Fs.node_at (Fs.nodes (files w1)) p))
                        (ancestors (Fs.cwd (files w1)) dirs) = true).
  { rewrite F1. cbn [Fs.cwd Fs.nodes]. apply forallb_forall. intros p I.
    rewrite node_at_insert_ne.
    - rewrite List.forallb_forall in A1. now apply A1.
    - intros ->. exact (target_not_ancestor _ _ _ I). }
  assert (T1 : Fs.node_at (Fs.nodes (files w1)) target = Some (Fs.File (Fs.utf8_encode first))).
  { rewrite F1. cbn [Fs.nodes]. now apply node_at_insert_eq. }
  assert (Cw1 : Fs.cwd (files w1) = Fs.cwd (files w)) by (rewrite F1; reflexivity).
  destruct (writeFile_done _ _ _ _ B) as (fs2 & E2 & W2 & S2).
  unfold path in E2. rewrite (ensured_settled _ _ _ P A1') in E2. inversion E2; subst fs2.
  unfold path in W2. rewrite (writeFileSync_names _ _ _ _ P A1') in W2.
  2:{ rewrite Cw1. fold target. now rewrite T1. }
  rewrite Cw1 in W2. fold target in W2. injection W2 as F2. symmetry in F2.
  assert (S2' : w2 = stored (files w2) w).
  { rewrite S2, S1. reflexivity. }
  split; [exact T1 |]. split; [rewrite Cw1; exact F2 |].
  split; [rewrite F2; cbn [Fs.nodes]; now apply node_at_insert_eq |].
  split; [exact S2' |].
  intros w3 C.
  destruct (writeFile_done _ _ _ _ C) as (fs3 & E3 & W3 & S3).
  rewrite E1 in E3. injection E3 as <-.
  unfold path in W3. rewrite (writeFileSync_names _ _ _ _ P) in W3.
  - rewrite C1 in W3. fold target in W3. injection W3 as F3.
    rewrite S3, S2', <- F3, F2. f_equal.
    rewrite F1. cbn [Fs.cwd Fs.nodes]. f_equal. symmetry. apply insert_insert_eq.
  - now rewrite C1.
  - rewrite C1. exact N1.
Qed.

End Rewriting.

(** ** More of the sum *)

Section Sums.

Context `{Platform}.

Lemma add_comm (x y : number) : add x y = add y x.
Proof.
  unfold add, SFadd.
  destruct x as [sx | sx | | sx mx ex], y as [sy | sy | | sy my ey];
    try reflexivity; try (destruct sx, sy; reflexivity).
  now rewrite Z.min_comm, Z.add_comm.
Qed.

Lemma pair_sum_comm (a b : string) : pair_sum [a; b] = pair_sum [b; a].
Proof. unfold pair_sum. now rewrite orb_comm, add_comm. Qed.

(** X9.  The tool does not tell its operands apart: [a,b] and [b,a] get
    the same Observation, the sum of two Numbers being commutative and the
    invalid-number message the same for either operand. *)
Theorem operands_commute (a b : string) (w : world) :
  has_char "," a = false ->
  has_char "," b = false ->
  observation (Str "addTwoNumbers") (Str (a +:+ "," +:+ b)) w
  = observation (Str "addTwoNumbers") (Str (b +:+ "," +:+ a)) w.
Proof.
  intros Na Nb. rewrite !observation_add, !add_numbers_pieces.
  rewrite (split_comma_pair _ _ Na Nb), (split_comma_pair _ _ Nb Na).
  now rewrite pair_sum_comm.
Qed.

(** X10.  An input that prints without a comma (one number, [null], an
    object, an array of one element, a missing input) is invalid: the
    second operand is [undefined], which is not a number. *)
Theorem lone_operand_is_invalid (input : value) (s : string) (w : world) :
  ToString input = Ok s ->
  has_char "," s = false ->
  observation (Str "addTwoNumbers") input w = (w, Ok invalid_number).
Proof.
  intros T N. rewrite observation_add, add_numbers_result, T.
  now rewrite (split_on_whole _ _ N).
Qed.

Lemma ws_is_no_comma (c : ascii) : is_ws c = true -> Ascii.eqb c "," = false.
Proof.
  destruct c as [[] [] [] [] [] [] [] []]; intros W; try reflexivity;
    vm_compute in W; discriminate W.
Qed.

Lemma trim_left_pad (pad s : string) :
  forallb is_ws (chars pad) = true -> trim_left (pad +:+ s) = trim_left s.
Proof.
  induction pad as [| c pad IH]; intros W; [reflexivity |].
  cbn [chars list_ascii_of_string forallb] in W. apply andb_prop in W as [Wc Wr].
  rewrite append_cons. cbn [trim_left]. rewrite Wc. now apply IH.
Qed.

Lemma pad_no_comma (pad : string) :
  forallb is_ws (chars pad) = true -> has_char "," pad = false.
Proof.
  induction pad as [| c pad IH]; intros W; [reflexivity |].
  cbn [chars list_ascii_of_string forallb] in W. apply andb_prop in W as [Wc Wr].
  cbn [has_char]. rewrite (ws_is_no_comma _ Wc). now apply IH.
Qed.

Lemma StringToNumber_pad (pad s : string) :
  forallb is_ws (chars pad) = true -> StringToNumber (pad +:+ s) = StringToNumber s.
Proof. intros W. unfold StringToNumber, trim. now rewrite (trim_left_pad _ _ W). Qed.

(** X11.  White space before an operand is not part of it: [a, b] (with
    blanks, tabs or line feeds after the comma or before [a]) is answered
    as [a,b]. *)
Theorem padding_is_ignored (pad1 pad2 a b : string) (w : world) :
  forallb is_ws (chars pad1) = true ->
  forallb is_ws (chars pad2) = true ->
  has_char "," a = false ->
  has_char "," b = false ->
  observation (Str "addTwoNumbers") (Str ((pad1 +:+ a) +:+ "," +:+ (pad2 +:+ b))) w
  = observation (Str "addTwoNumbers") (Str (a +:+ "," +:+ b)) w.
Proof.
  intros W1 W2 Na Nb. rewrite !observation_add, !add_numbers_pieces.
  rewrite (split_comma_pair a b Na Nb), split_comma_pair.
  - unfold pair_sum. now rewrite !StringToNumber_pad.
  - now rewrite has_char_append, (pad_no_comma _ W1), Na.
  - now rewrite has_char_append, (pad_no_comma _ W2), Nb.
Qed.

(** X12.  A sum that is not finite ([Infinity,1], or [Infinity,-Infinity]
    whose sum is NaN) is printed on the terminal as it is and told to the
    oracle as [null]: [JSON.stringify] has no text for it. *)
Theorem infinite_sum_is_told_as_null (response : value) (a b : string) (w : world) :
  field response "step" = Str "action" ->
  field response "tool" = Str "addTwoNumbers" ->
  field response "input" = Str (a +:+ "," +:+ b) ->
  has_char "," a = false ->
  has_char "," b = false ->
  is_nan (StringToNumber a) = false ->
  is_nan (StringToNumber b) = false ->
  let sum := add (StringToNumber a) (StringToNumber b) in
  is_finite sum = false ->
  interpret response w
  = (remembered [turn "user" (Str ("{" +:+ quoted "step" +:+ ":" +:+ quoted "observe" +:+ ","
                                   +:+ quoted "output" +:+ ":null}"))]
       (logged [step_line "observe" ("Result: " +:+ JsNumber.toString sum)]
          (announced response "addTwoNumbers" w)),
     Ok Continue).
Proof.
  intros Hstep Htool Hinput Na Nb Xa Xb sum F.
  rewrite (interpret_action response (Num sum) "addTwoNumbers" (JsNumber.toString sum) w
             (announced response "addTwoNumbers" w)); auto.
  - unfold observed, observe_turn, JSON_stringify.
    cbn [stringify]. rewrite F. reflexivity.
  - now rewrite Htool.
  - rewrite Htool, Hinput, observation_add, add_numbers_pieces.
    rewrite (split_comma_pair _ _ Na Nb). unfold pair_sum. now rewrite Xa, Xb.
Qed.

End Sums.

(** ** The session driver *)

Section Session.

Context `{Platform}.

Lemma lower_char_e (c : ascii) :
  Ascii.eqb (lower_char c) "e" = Ascii.eqb c "e" || Ascii.eqb c "E".
Proof. destruct c as [[] [] [] [] [] [] [] []]; reflexivity. Qed.

Lemma lower_char_x (c : ascii) :
  Ascii.eqb (lower_char c) "x" = Ascii.eqb c "x" || Ascii.eqb c "X".
Proof. destruct c as [[] [] [] [] [] [] [] []]; reflexivity. Qed.

Lemma lower_char_i (c : ascii) :
  Ascii.eqb (lower_char c) "i" = Ascii.eqb c "i" || Ascii.eqb c "I".
Proof. destruct c as [[] [] [] [] [] [] [] []]; reflexivity. Qed.

Lemma lower_char_t (c : ascii) :
  Ascii.eqb (lower_char c) "t" = Ascii.eqb c "t" || Ascii.eqb c "T".
Proof. destruct c as [[] [] [] [] [] [] [] []]; reflexivity. Qed.

Lemma eqb_cons (a b : ascii) (s t : string) :
  String.eqb (String a s) (String b t) = Ascii.eqb a b && String.eqb s t.
Proof. cbn [String.eqb]. now destruct (Ascii.eqb a b). Qed.

Lemma exit_spelling (q : string) : String.eqb (toLowerCase q) "exit" = spelled_exit q.
Proof.
  destruct q as [| e [| x [| i [| t [| c r]]]]]; try reflexivity;
    cbn [toLowerCase spelled_exit]; rewrite !eqb_cons;
    rewrite ?lower_char_e, ?lower_char_x, ?lower_char_i, ?lower_char_t.
  all: cbn [String.eqb]; rewrite ?andb_true_r, ?andb_false_r, ?andb_assoc; reflexivity.
Qed.

(** X13.  A line closes the session exactly when it is [exit] in some
    mix of upper and lower case, with no white space around it: then
    nothing is sent, the chat history stays, and the lines after it are
    not read.  Every other line (also ["exit "] and the empty line) is a
    query: the chat history is reseeded with it and the loop runs. *)
Theorem exit_is_exact (q : string) (more : list string)
        (oracle : list fetch_outcome) (w : world) :
  start (q :: more) oracle w
  = if spelled_exit q then (logged [Ask question] w, oracle, Closed)
    else runConversation more oracle (reseeded (seed q) (logged [Ask question] w)).
Proof.
  cbn [start write_console set_history]. rewrite exit_spelling.
  destruct (spelled_exit q); reflexivity.
Qed.

(** X14.  A query starts from the seed alone: whatever the chat history
    was (the turns of the query before), the session goes on as if it
    had been empty. *)
Theorem query_forgets_history (q : string) (more : list string)
        (oracle : list fetch_outcome) (h : list value) (w : world) :
  toLowerCase q <> "exit" ->
  start (q :: more) oracle (reseeded h w) = start (q :: more) oracle w.
Proof.
  intros N. apply String.eqb_neq in N.
  cbn [start write_console set_history]. rewrite N. reflexivity.
Qed.

Lemma loop_requests (oracle : list fetch_outcome) (w : world) :
  requests w `prefix_of` requests (fst (fst (loop oracle w))).
Proof.
  revert w. induction oracle as [| reply oracle IH]; intros w.
  - cbn. now apply prefix_app_r.
  - rewrite loop_cons. destruct (iteration reply w) as [w1 r] eqn:E.
    destruct (iteration_extends _ _ _ _ E) as [_ R].
    assert (P : requests w `prefix_of` requests w1) by (rewrite R; now apply prefix_app_r).
    destruct r as [[] | e]; cbn [fst]; auto.
    etransitivity; [exact P | apply IH].
Qed.

Lemma loop_first_request (oracle : list fetch_outcome) (w : world) :
  (requests w ++ [JSON_stringify (payload (chatHistory w))])%list
    `prefix_of` requests (fst (fst (loop oracle w))).
Proof.
  destruct oracle as [| reply oracle]; [reflexivity |].
  rewrite loop_cons. destruct (iteration reply w) as [w1 r] eqn:E.
  destruct (iteration_extends _ _ _ _ E) as [_ R]. rewrite <- R.
  destruct r as [[] | e]; cbn [fst]; try reflexivity. apply loop_requests.
Qed.

Lemma start_requests (stdin : list string) (oracle : list fetch_outcome) (w : world) :
  requests w `prefix_of` requests (fst (fst (start stdin oracle w))).
Proof.
  revert oracle w. induction stdin as [| q more IH]; intros oracle w; [reflexivity |].
  cbn [start write_console set_history].
  destruct (String.eqb (toLowerCase q) "exit"); [reflexivity |].
  unfold conversation. cbn [write_console].
  match goal with |- context [loop oracle ?v] =>
    pose proof (loop_requests oracle v) as L; destruct (loop oracle v) as [[w1 rest1] outcome]
  end.
  cbn [fst requests] in L.
  destruct outcome as [| | e]; cbn [fst]; auto.
  etransitivity; [exact L | apply IH].
Qed.

(** X15.  The first request of a query carries the seed and nothing
    else: the system prompt, the canned acknowledgment and the query, in
    this order, whatever was said before and whatever the oracle answers
    (or does not answer). *)
Theorem query_starts_from_seed (q : string) (more : list string)
        (oracle : list fetch_outcome) (w : world) :
  toLowerCase q <> "exit" ->
  (requests w ++ [JSON_stringify (payload (seed q))])%list
    `prefix_of` requests (fst (fst (start (q :: more) oracle w))).
Proof.
  intros N. apply String.eqb_neq in N.
  cbn [start write_console set_history]. rewrite N.
  unfold conversation. cbn [write_console].
  match goal with |- context [loop oracle ?v] =>
    pose proof (loop_first_request oracle v) as L;
    destruct (loop oracle v) as [[w1 rest1] outcome]
  end.
  cbn [fst requests chatHistory] in L.
  destruct outcome as [| | e]; cbn [fst]; auto.
  etransitivity; [exact L | apply start_requests].
Qed.

(** X16.  A Decision that is falsy ([null], [false], [0], the empty
    string) is taken for the [null] of a failed call: the loop is left
    without a line on the terminal and without a turn in the chat
    history, and the next query is asked for. *)
Theorem falsy_decision_ends_quietly
        (reply : fetch_outcome) (response : value) (rest : list fetch_outcome)
        (stdin : list string) (w : world) :
  decode reply = Ok response ->
  truthy response = false ->
  loop (reply :: rest) w = (requested w, rest, LoopLeft)
  /\ runConversation stdin (reply :: rest) w
     = start stdin rest (requested (logged [Log "Agent is processing..."] w)).
Proof.
  intros D F.
  assert (L : forall v, loop (reply :: rest) v = (requested v, rest, LoopLeft)).
  { intros v. rewrite loop_cons, (iteration_ok _ _ _ D).
    unfold interpret. now rewrite F. }
  split; [apply L |].
  unfold runConversation, conversation. cbn [write_console]. now rewrite L.
Qed.

(** X17.  A [think] or [output] Decision whose content cannot be printed
    (an object with a property [toString]) is pushed to the chat history
    and then throws out of the loop, past every [catch] of the source:
    no step line is printed, [start] is not called again and the lines
    that are left are not read. *)
Theorem unprintable_content_ends_session
        (reply : fetch_outcome) (response : value) (e : js_error)
        (rest : list fetch_outcome) (stdin : list string) (w : world) :
  decode reply = Ok response ->
  field response "step" = Str "think" \/ field response "step" = Str "output" ->
  ToString (field response "content") = Throw e ->
  loop (reply :: rest) w
  = (remembered [model_turn response] (requested w), rest, Uncaught e)
  /\ runConversation stdin (reply :: rest) w
     = (remembered [model_turn response]
          (requested (logged [Log "Agent is processing..."] w)),
        rest, Crashed e).
Proof.
  intros D S T.
  assert (Tr : truthy response = true).
  { destruct S as [S | S]; apply (field_truthy _ _ _ S); discriminate. }
  assert (I : forall v, interpret response v = (remembered [model_turn response] v, Throw e)).
  { intros v. unfold interpret. rewrite Tr. cbn [negb].
    erewrite bind_ok by apply push_history_spec.
    destruct S as [S | S]; rewrite S; cbn [is_str]; cbn [String.eqb Ascii.eqb Bool.eqb];
      unfold printStep, mbind, eff_bind, lift; rewrite T; reflexivity. }
  assert (L : forall v, loop (reply :: rest) v
                        = (remembered [model_turn response] (requested v), rest, Uncaught e)).
  { intros v. now rewrite loop_cons, (iteration_ok _ _ _ D), I. }
  split; [apply L |].
  unfold runConversation, conversation. cbn [write_console]. now rewrite L.
Qed.

End Session.

(** ** More of the oracle client *)

Section Client.

Context `{Platform}.

Lemma strip_open_other (c : ascii) (r : string) :
  Ascii.eqb "`" c = false -> strip_open (String c r) = String c r.
Proof. intros N. unfold strip_open. cbn [strip_prefix]. now rewrite N. Qed.

Lemma object_shaped_head (d : string) :
  object_shaped d -> exists c r, d = String c r /\ Ascii.eqb "`" c = false.
Proof.
  intros (pre & body & post & -> & B & _).
  destruct pre as [| c pre].
  - exists "{"%char, (body +:+ "}" +:+ post). split; reflexivity.
  - cbn [blank] in B. apply andb_prop in B as [Bc _].
    exists c, (pre +:+ "{" +:+ body +:+ "}" +:+ post). split; [reflexivity |].
    destruct (Ascii.eqb "`" c) eqn:E; [| reflexivity].
    apply Ascii.eqb_eq in E. subst c. discriminate.
Qed.

(** X18.  The two fences are stripped one without the other: an opening
    fence with no closing one goes, and so does a closing fence with no
    opening one.  But the opening fence goes only with its label [json],
    and the closing one only at the very end of the text: after an
    unlabelled fence the opening backticks stay, and a line feed after
    the closing fence keeps it in place. *)
Theorem fences_go_one_by_one (d : string) :
  object_shaped d ->
  cleanedText (Str ("```json" +:+ lf +:+ d)) = Ok d
  /\ cleanedText (Str (d +:+ lf +:+ "```")) = Ok d
  /\ cleanedText (Str ("```" +:+ lf +:+ d +:+ lf +:+ "```")) = Ok ("```" +:+ lf +:+ d)
  /\ cleanedText (Str (fenced d +:+ lf)) = Ok ((d +:+ lf +:+ "```") +:+ lf).
Proof.
  intros S. unfold cleanedText, clean. repeat split; f_equal.
  - rewrite strip_open_fence. apply strip_close_no_tick. now apply object_shaped_no_tick.
  - destruct (object_shaped_head _ S) as (c & r & -> & N).
    rewrite append_cons, (strip_open_other _ _ N), <- append_cons.
    apply strip_close_fence.
  - change (strip_open ("```" +:+ lf +:+ d +:+ lf +:+ "```"))
      with (("```" +:+ lf +:+ d) +:+ lf +:+ "```").
    apply strip_close_fence.
  - change (strip_open (fenced d +:+ lf)) with ((d +:+ lf +:+ "```") +:+ lf).
    apply strip_close_no_tick. now rewrite ends_with_append by discriminate.
Qed.

(** X19.  An answer with a status outside 200-299 is not parsed: the
    error line carries the status, the status text and the body as it
    came (or, when the body cannot be read, the error of the read), and
    [callGemini] returns [null]. *)
Theorem bad_status_is_reported (r : response) (w : world) :
  ok r = false ->
  let cause := match body r with
               | BodyText t => "API Error: " +:+ JsNumber.toString (of_Z (status r))
                               +:+ " " +:+ statusText r +:+ " - " +:+ t
               | BodyFails m => m
               end in
  callGemini (FetchResolves r) w
  = (logged [step_line "error" ("Error calling Gemini API or parsing response: " +:+ cause)]
            (requested w), Ok Null).
Proof.
  intros K cause.
  assert (D : exists e, decode (FetchResolves r) = Throw e /\ message e = cause).
  { unfold decode, response_text, cause. rewrite K. cbn [negb].
    destruct (body r) as [t | m]; eexists; split; reflexivity. }
  destruct D as (e & D & <-). now apply callGemini_failure.
Qed.

Lemma get_truthy (v : value) (k : string) : truthy v = true -> get v k = Ok (field v k).
Proof. destruct v; try discriminate; reflexivity. Qed.

(** X20.  A successful answer whose object has no candidate (the
    property is missing, [null] or an empty array) is a failure and is
    never parsed as a Decision: with a truthy [promptFeedback] the cause
    is the blocked prompt with its reason, without it the cause is the
    invalid structure. *)
Theorem answer_without_candidate (r : response) (fields : list (string * value)) :
  ok r = true ->
  response_json r = Ok (Obj fields) ->
  truthy (field (Obj fields) "candidates") = false
  \/ field (Obj fields) "candidates" = Arr [] ->
  let feedback := field (Obj fields) "promptFeedback" in
  decode (FetchResolves r)
  = if truthy feedback
    then match ToString (field feedback "blockReason") with
         | Ok reason => Throw (SourceError ("API blocked the prompt. Reason: " +:+ reason))
         | Throw e => Throw e
         end
    else Throw (SourceError "Invalid response structure from API.").
Proof.
  intros K J C feedback.
  unfold decode. rewrite K, J. cbn [negb mbind result_bind get].
  change (match lookup_field "candidates" fields with Some x => x | None => Undefined end)
    with (field (Obj fields) "candidates").
  change (match lookup_field "promptFeedback" fields with Some x => x | None => Undefined end)
    with feedback.
  assert (E : (if truthy (field (Obj fields) "candidates")
               then len ← get_length (field (Obj fields) "candidates"); gt_zero len
               else Ok false) = Ok false).
  { destruct C as [C | C]; rewrite C; [reflexivity |]. vm_compute. reflexivity. }
  rewrite E. cbn [mbind result_bind].
  destruct (truthy feedback) eqn:F; [| reflexivity].
  rewrite (get_truthy _ _ F). cbn [mbind result_bind].
  destruct (ToString (field feedback "blockReason")); reflexivity.
Qed.

End Client.

(** ** What the tools never do *)

Section Never.

Context `{Platform}.

(** X21.  [writeFile] never throws, whatever its arguments are: it
    returns a string, and of the world it changes the file system only,
    where no file or directory is gone or has changed its kind. *)
Theorem writeFile_never_throws (filePath fileContent : value) (w : world) :
  exists (fs' : Fs.filesystem) (s : string),
    writeFile filePath fileContent w = (stored fs' w, Ok (Str s))
    /\ persists (files w) fs'.
Proof.
  destruct (writeFile_returns filePath fileContent w) as (w' & s & E).
  destruct (only_files_writeFile _ _ _ _ _ E) as [fs' ->].
  exists fs', s. split; [exact E |].
  destruct (steady_writeFile _ _ _ _ _ E) as [(_ & _ & F) _]. exact F.
Qed.

(** X22.  The [addTwoNumbers] branch never throws and leaves the world as
    it is; its Observation is a Number, the invalid-number message, or
    (for an input that cannot be made a string) the message of that
    error.  It is never a concatenation of strings, though the tool is
    [x + y]: both operands have gone through [Number]. *)
Theorem sum_is_a_number_or_a_message (input : value) (w : world) :
  exists result,
    observation (Str "addTwoNumbers") input w = (w, Ok result)
    /\ ((exists x, result = Num x)
        \/ result = invalid_number
        \/ (exists e, ToString input = Throw e
                      /\ result = Str ("Error executing tool: " +:+ message e))).
Proof.
  rewrite observation_add, add_numbers_result. eexists. split; [reflexivity |].
  destruct (ToString input) as [s | e]; [| right; right; now exists e].
  unfold pair_sum. destruct (split_on "," s) as [| a [| b rest]];
    try (right; left; reflexivity).
  destruct (_ || _); [right; left; reflexivity | left; eauto].
Qed.

End Never.

(** ** The properties above on the reference platform *)

Section Instances.

Import Examples.
Import Cases.
Existing Instance Reference.node.

Lemma action_round_goes_on_witness :
  field writing "tool" = Str "writeFile"
  /\ exists (fs' : Fs.filesystem) (result : value) (r : string),
       ToString result = Ok r
       /\ interpret writing (fresh home)
          = (observed result r (stored fs' (announced writing "writeFile" (fresh home))),
             Ok Continue)
       /\ chatHistory (observed result r (stored fs' (announced writing "writeFile" (fresh home))))
          = (chatHistory (fresh home) ++ [model_turn writing; observe_turn result])%list
       /\ persists (files (fresh home)) fs'.
Proof.
  split; [reflexivity |].
  exact (action_round_goes_on writing "writeFile" (fresh home) eq_refl eq_refl).
Defined.

Lemma write_file_input_refused_witness :
  truthy (field (Str "notes.txt") "filePath") = false
  /\ observation (Str "writeFile") (Str "notes.txt") (fresh home)
     = (fresh home,
        Ok (Str "Error executing tool: Invalid input for writeFile. Expected an object with 'filePath' and 'fileContent'.")).
Proof.
  split; [reflexivity |].
  exact (write_file_input_refused (Str "notes.txt") (fresh home) (or_introl eq_refl)).
Defined.

Lemma nameless_tool_is_unknown_witness :
  ToString (field toolless "tool") = Ok "undefined"
  /\ observation (field toolless "tool") (field toolless "input") (fresh home)
     = (fresh home, Ok (Str "Unknown tool: undefined")).
Proof.
  split; [reflexivity |].
  refine (proj1 (nameless_tool_is_unknown toolless "undefined" (fresh home) eq_refl _ eq_refl)).
  intros name. discriminate.
Defined.

Lemma path_must_be_a_string_witness :
  writeFile (Num (of_Z 5)) (Str "hi") (fresh home)
  = (fresh home,
     Ok (Str ("Error writing file: The " +:+ quoted "path"
              +:+ " argument must be of type string. Received type number (5)"))).
Proof.
  rewrite (path_must_be_a_string (Num (of_Z 5)) (Str "hi") (fresh home));
    [vm_compute; reflexivity | intros p; discriminate].
Defined.

Lemma second_write_wins_witness :
  forallb plain_name ["out"; "sub"; "file.txt"] = true
  /\ Fs.node_at
       (Fs.nodes (files (after [answer writing; answer rewriting] (fresh home))))
       ["home"; "u"; "out"; "sub"; "file.txt"]
     = Some (Fs.File [98; 121; 101]).
Proof.
  split; [reflexivity |].
  assert (P : Forall (fun n => plain_name n = true) (["out"; "sub"] ++ ["file.txt"]))
    by (repeat constructor).
  assert (A : writeFile (Str "out/sub/file.txt") (Str "hi") (fresh home)
              = (stored (written home ["out"; "sub"] "file.txt" "hi") (fresh home),
                 Ok (wrote "hi" "out/sub/file.txt"))) by (vm_compute; reflexivity).
  assert (B : writeFile (Str "out/sub/file.txt") (Str "bye")
                (stored (written home ["out"; "sub"] "file.txt" "hi") (fresh home))
              = (stored (written home ["out"; "sub"] "file.txt" "bye") (fresh home),
                 Ok (wrote "bye" "out/sub/file.txt"))) by (vm_compute; reflexivity).
  destruct (second_write_wins ["out"; "sub"] "file.txt" "hi" "bye" (fresh home) _ _ P A B)
    as (_ & _ & T & _).
  vm_compute. vm_compute in T. exact T.
Defined.

Lemma operands_commute_witness :
  has_char "," "10" = false
  /\ observation (Str "addTwoNumbers") (Str "10,20") (fresh home)
     = observation (Str "addTwoNumbers") (Str "20,10") (fresh home).
Proof.
  split; [reflexivity |].
  exact (operands_commute "10" "20" (fresh home) eq_refl eq_refl).
Defined.

Lemma lone_operand_is_invalid_witness :
  ToString Null = Ok "null"
  /\ observation (Str "addTwoNumbers") Null (fresh home) = (fresh home, Ok invalid_number).
Proof.
  split; [reflexivity |].
  exact (lone_operand_is_invalid Null "null" (fresh home) eq_refl eq_refl).
Defined.

Lemma padding_is_ignored_witness :
  forallb is_ws (chars " ") = true
  /\ observation (Str "addTwoNumbers") (Str "10, 20") (fresh home)
     = observation (Str "addTwoNumbers") (Str "10,20") (fresh home).
Proof.
  split; [reflexivity |].
  exact (padding_is_ignored EmptyString " " "10" "20" (fresh home)
           eq_refl eq_refl eq_refl eq_refl).
Defined.

Lemma infinite_sum_is_told_as_null_witness :
  is_finite (add (StringToNumber "Infinity") (StringToNumber "1")) = false
  /\ interpret overflowing (fresh home)
     = (remembered [turn "user" (Str ("{" +:+ quoted "step" +:+ ":" +:+ quoted "observe" +:+ ","
                                      +:+ quoted "output" +:+ ":null}"))]
          (logged [step_line "observe" "Result: Infinity"]
             (announced overflowing "addTwoNumbers" (fresh home))),
        Ok Continue).
Proof.
  split; [reflexivity |].
  exact (infinite_sum_is_told_as_null overflowing "Infinity" "1" (fresh home)
           eq_refl eq_refl eq_refl eq_refl eq_refl eq_refl eq_refl eq_refl).
Defined.

Lemma query_forgets_history_witness :
  toLowerCase "hello" <> "exit"
  /\ start ["hello"] [answer answering] (reseeded [turn "user" (Str "before")] (fresh home))
     = start ["hello"] [answer answering] (fresh home).
Proof.
  assert (N : toLowerCase "hello" <> "exit") by discriminate.
  split; [exact N |].
  exact (query_forgets_history "hello" [] [answer answering] [turn "user" (Str "before")]
           (fresh home) N).
Defined.

Lemma query_starts_from_seed_witness :
  toLowerCase "hello" <> "exit"
  /\ (requests (fresh home) ++ [JSON_stringify (payload (seed "hello"))])%list
       `prefix_of` requests (fst (fst (start ["hello"; "exit"] [answer answering] (fresh home)))).
Proof.
  assert (N : toLowerCase "hello" <> "exit") by discriminate.
  split; [exact N |].
  exact (query_starts_from_seed "hello" ["exit"] [answer answering] (fresh home) N).
Defined.

Lemma falsy_decision_ends_quietly_witness :
  decode (answer Null) = Ok Null
  /\ loop [answer Null; answer answering] (fresh home)
     = (requested (fresh home), [answer answering], LoopLeft).
Proof.
  split; [reflexivity |].
  exact (proj1 (falsy_decision_ends_quietly (answer Null) Null [answer answering] []
                  (fresh home) eq_refl eq_refl)).
Defined.

Lemma unprintable_content_ends_session_witness :
  decode (answer unprintable) = Ok unprintable
  /\ snd (runConversation ["next"] [answer unprintable; answer answering] (fresh home))
     = Crashed (PlatformError CannotConvertToPrimitive).
Proof.
  assert (D : decode (answer unprintable) = Ok unprintable) by reflexivity.
  split; [exact D |].
  rewrite (proj2 (unprintable_content_ends_session (answer unprintable) unprintable
                    (PlatformError CannotConvertToPrimitive) [answer answering] ["next"]
                    (fresh home) D (or_introl eq_refl) eq_refl)).
  reflexivity.
Defined.

Lemma fences_go_one_by_one_witness :
  object_shaped object_text
  /\ cleanedText (Str (object_text +:+ lf +:+ "```")) = Ok object_text.
Proof.
  assert (S : object_shaped object_text).
  { exists EmptyString, object_body, EmptyString. repeat split; reflexivity. }
  split; [exact S |].
  exact (proj1 (proj2 (fences_go_one_by_one object_text S))).
Defined.

Lemma bad_status_is_reported_witness :
  ok unavailable_response = false
  /\ callGemini unavailable (fresh home)
     = (logged [step_line "error"
                  "Error calling Gemini API or parsing response: API Error: 503 Service Unavailable - overloaded"]
               (requested (fresh home)), Ok Null).
Proof.
  split; [reflexivity |].
  exact (bad_status_is_reported unavailable_response (fresh home) eq_refl).
Defined.

Lemma answer_without_candidate_witness :
  response_json shapeless = Ok (Obj [])
  /\ decode (FetchResolves shapeless)
     = Throw (SourceError "Invalid response structure from API.").
Proof.
  split; [reflexivity |].
  exact (answer_without_candidate shapeless [] eq_refl eq_refl (or_introl eq_refl)).
Defined.

End Instances.
